(** * Leveling / XP engine of the bot: a shallow embedding and its properties

    The development follows [data_manager.py] (the [DataManager] methods of
    the "Leveling System" section), [config.py] (the per-guild JSON document
    store) and [cogs/leveling.py] (the [Leveling] cog: message handler, rank
    and [/addxp] commands).

    Modelling conventions.
    - Python [int] is [Z].  Python [float] values (the XP multiplier, the
      level threshold [base_xp * (current_level * 1.5)], the event-loop clock)
      are modelled by exact rationals [Q]: every arithmetic step is the exact
      one.  Module [F64] evaluates the same expressions in IEEE 754 binary64
      and the two are compared on the ranges the bot works in (levels up to
      10000, grants up to 10000 xp at the multipliers 1.0 and 1.5).
    - A Python [dict] whose iteration order is never observed is a [gmap];
      the per-guild table of user records, whose order the leaderboard
      observes, is an association list in insertion order.
    - Dictionary keys of the form [str(i)] for an integer [i] (guild ids, user
      ids, levels) and the cooldown key [f"{guild_id}_{user_id}"] are
      modelled by the integers themselves: [str] is injective on integers
      and [int(str(i)) = i].
    - File and network failures ([IOError], [discord.HTTPException]) are not
      modelled: every save succeeds, every send is recorded as attempted. *)

From Stdlib Require Import ZArith QArith Qround Lia Lqa List Sorted Permutation.
From Stdlib Require Import Floats.SpecFloat.
From Equations Require Import Equations.
From stdpp Require Import gmap strings list fin_maps.

Local Open Scope Z_scope.

(** ** Python numerics *)

Module Py.

(** [int(x)] on a float: truncation toward zero. *)
Definition int (x : Q) : Z := Z.quot (Qnum x) (Z.pos (Qden x)).

(** [a >= b] on numbers. *)
Definition ge (a b : Q) : bool := Qle_bool b a.

(** [a < b] on numbers. *)
Definition lt (a b : Q) : bool := negb (Qle_bool b a).

(** An [int] operand promoted in mixed int/float arithmetic. *)
Definition of_int (z : Z) : Q := inject_Z z.

End Py.

(** Python floats as they are, IEEE 754 binary64, for checking on the ranges
    the bot works in that the exact arithmetic above computes what the
    floating-point code computes. *)
Module F64.

Definition prec : Z := 53.
Definition emax : Z := 1024.

(** [float(z)]: round to nearest, ties to even. *)
Definition of_int (z : Z) : spec_float := binary_normalize prec emax z 0 false.

(** [x * y] on floats. *)
Definition mul : spec_float -> spec_float -> spec_float := SFmul prec emax.

(** The literal [1.5]. *)
Definition one_and_a_half : spec_float := SFdiv prec emax (of_int 3) (of_int 2).

(** The number a finite float denotes. *)
Definition value (x : spec_float) : option Q :=
  match x with
  | S754_zero _ => Some 0%Q
  | S754_finite s m e =>
      let n := if s then Z.neg m else Z.pos m in
      Some (match e with
            | Z.neg k => Qmake n (2 ^ k)
            | _ => inject_Z (n * 2 ^ e)
            end)
  | _ => None
  end.

(** [int(x)]: truncation toward zero; Python raises on infinities and NaN. *)
Definition int (x : spec_float) : option Z :=
  match x with
  | S754_zero _ => Some 0
  | S754_finite s m e =>
      let n := if s then Z.neg m else Z.pos m in
      Some (match e with
            | Z.neg k => Z.quot n (Z.pos (2 ^ k))
            | _ => n * 2 ^ e
            end)
  | _ => None
  end.

End F64.

(** ** The level-up loop of [add_user_xp] *)

Definition base_xp : Z := 100.

(** [xp_for_next_level = base_xp * (current_level * 1.5)] *)
Definition xp_for_next_level (current_level : Z) : Q :=
  (Py.of_int base_xp * (Py.of_int current_level * (3 # 2)))%Q.

(** [base_xp * (current_level * 1.5)] evaluated in binary64. *)
Definition xp_for_next_level_f64 (current_level : Z) : spec_float :=
  F64.mul (F64.of_int base_xp) (F64.mul (F64.of_int current_level) F64.one_and_a_half).

(** [int(xp_amount * xp_multiplier)] evaluated in binary64. *)
Definition xp_gained_f64 (xp_amount : Z) (xp_multiplier : spec_float) : option Z :=
  F64.int (F64.mul (F64.of_int xp_amount) xp_multiplier).

(** Termination measure of the loop: for a positive level the remaining xp
    decreases; for a non-positive level the threshold is non-positive, the
    level climbs to 1 and the quantity below decreases by one per step. *)
Definition loop_measure (current_level current_xp : Z) : nat :=
  Z.to_nat (current_xp +
            (if current_level <=? 0
             then 75 * current_level * (current_level - 1) + (1 - current_level)
             else 0)).

Definition inspect {A} (a : A) : {b | a = b} := exist _ a eq_refl.

(**
<<
    leveled_up = False
    while current_xp >= xp_for_next_level:
        current_xp -= int(xp_for_next_level)
        current_level += 1
        leveled_up = True
        xp_for_next_level = base_xp * (current_level * 1.5)
>>
    The result is the triple [(current_level, current_xp, leveled_up)] at
    loop exit. *)
Equations? level_up_loop (current_level current_xp : Z) (leveled_up : bool)
  : Z * Z * bool by wf (loop_measure current_level current_xp) lt :=
  level_up_loop current_level current_xp leveled_up
    with inspect (Py.ge (Py.of_int current_xp) (xp_for_next_level current_level)) => {
    | exist _ true _ :=
        level_up_loop (current_level + 1)
                      (current_xp - Py.int (xp_for_next_level current_level))
                      true;
    | exist _ false _ := (current_level, current_xp, leveled_up) }.
Proof.
  unfold Py.ge, Qle_bool in e. cbn in e. apply Z.leb_le in e.
  unfold base_xp in e.
  assert (Py.int (xp_for_next_level current_level) = 150 * current_level) as ->.
  { unfold Py.int, xp_for_next_level, base_xp. cbn.
    replace (100 * (current_level * 3)) with (150 * current_level * 2) by lia.
    apply Z.quot_mul. discriminate. }
  unfold loop_measure.
  destruct (Z.leb_spec current_level 0), (Z.leb_spec (current_level + 1) 0); nia.
Qed.

(** ** The per-guild JSON documents ([config.py]) *)

(** A user's level record, the JSON object with keys ["level"], ["xp"] and
    ["total_xp"]. *)
Definition new_record : gmap string Z :=
  {[ "level" := 1; "xp" := 0; "total_xp" := 0 ]}.

(** [d.get(key, default)] *)
Definition dict_get (r : gmap string Z) (key : string) (dflt : Z) : Z :=
  default dflt (r !! key).

(** The ["leveling"] object of a guild document; [None] is an absent key. *)
Record leveling_config := {
  enabled : option bool;
  xp_multiplier : option Q;
  level_channel_id : option Z
}.

(** The part of a guild document the leveling system reads and writes.
    [user_levels] maps [str(guild_id)] to the table of user records, kept in
    insertion order; [level_roles] maps [str(level)] to a role id. *)
Record config_data := {
  user_levels : option (gmap Z (list (Z * gmap string Z)));
  leveling : option leveling_config;
  level_roles : option (gmap Z Z)
}.

(** [DEFAULT_CONFIG]: none of the leveling keys is present. *)
Definition DEFAULT_CONFIG : config_data :=
  {| user_levels := None; leveling := None; level_roles := None |}.

Definition set_user_levels (c : config_data) v : config_data :=
  {| user_levels := Some v; leveling := leveling c; level_roles := level_roles c |}.
Definition set_leveling (c : config_data) v : config_data :=
  {| user_levels := user_levels c; leveling := Some v; level_roles := level_roles c |}.
Definition set_level_roles (c : config_data) v : config_data :=
  {| user_levels := user_levels c; leveling := leveling c; level_roles := Some v |}.

(** Insertion-ordered dictionary operations on the table of user records. *)
Fixpoint table_get {V} (k : Z) (t : list (Z * V)) : option V :=
  match t with
  | [] => None
  | (k', v) :: t' => if Z.eqb k k' then Some v else table_get k t'
  end.

(** [t[k] = v]: an existing key keeps its position, a new key goes last. *)
Fixpoint table_set {V} (k : Z) (v : V) (t : list (Z * V)) : list (Z * V) :=
  match t with
  | [] => [(k, v)]
  | (k', v') :: t' =>
      if Z.eqb k k' then (k, v) :: t' else (k', v') :: table_set k v t'
  end.

(** The data folder: guild id to the document in [data/<guild_id>.json]. *)
Definition M (A : Type) : Type := gmap Z config_data -> A * gmap Z config_data.

Definition ret {A} (a : A) : M A := fun fs => (a, fs).
Definition bind {A B} (m : M A) (k : A -> M B) : M B :=
  fun fs => let (a, fs') := m fs in k a fs'.

Declare Scope files_scope.
Delimit Scope files_scope with files.
Notation "'let*' x ':=' m 'in' k" := (bind m (fun x => k))
  (at level 10, x name, m at level 100, k at level 200) : files_scope.
Notation "m ';;' k" := (bind m (fun _ => k))
  (at level 100, k at level 200, right associativity) : files_scope.

Section Config.
Local Open Scope files_scope.

Definition save_guild_config (guild_id : Z) (c : config_data) : M bool :=
  fun fs => (true, <[guild_id := c]> fs).

Definition create_guild_config (guild_id : Z) : M config_data :=
  save_guild_config guild_id DEFAULT_CONFIG ;; ret DEFAULT_CONFIG.

Definition load_guild_config (guild_id : Z) : M config_data :=
  fun fs =>
    match fs !! guild_id with
    | None => create_guild_config guild_id fs
    | Some c => (c, fs)
    end.

End Config.

(** ** The leveling section of [DataManager] ([data_manager.py]) *)

(** What [add_user_xp] returns. *)
Record xp_result := {
  res_level : Z;
  res_xp : Z;
  res_total_xp : Z;
  res_leveled_up : bool
}.

(** The key function of the leaderboard sort:
    [lambda x: x[1].get("total_xp", 0)]. *)
Definition sort_key (x : Z * gmap string Z) : Z := dict_get (snd x) "total_xp" 0.

(** [list.sort(key=sort_key, reverse=True)]: Python's sort is stable, also
    with [reverse=True]; the model is the stable insertion sort: an element
    goes in front of the first element of the sorted tail whose key is not
    greater than its own. *)
Fixpoint sort_insert (x : Z * gmap string Z) (l : list (Z * gmap string Z))
  : list (Z * gmap string Z) :=
  match l with
  | [] => [x]
  | y :: l' =>
      if sort_key y <=? sort_key x then x :: y :: l'
      else y :: sort_insert x l'
  end.

Definition sort_by_total_xp (l : list (Z * gmap string Z))
  : list (Z * gmap string Z) :=
  foldr sort_insert [] l.

Section DataManager.
Local Open Scope files_scope.

Definition default_leveling : leveling_config :=
  {| enabled := Some false; xp_multiplier := Some 1%Q; level_channel_id := None |}.

Definition get_leveling_config (guild_id : Z) : M leveling_config :=
  let* config_data := load_guild_config guild_id in
  match leveling config_data with
  | None =>
      save_guild_config guild_id (set_leveling config_data default_leveling) ;;
      ret default_leveling
  | Some lv => ret lv
  end.

Definition save_leveling_config (guild_id : Z) (config : leveling_config) : M bool :=
  let* config_data := load_guild_config guild_id in
  save_guild_config guild_id (set_leveling config_data config).

Definition get_level_roles (guild_id : Z) : M (gmap Z Z) :=
  let* config_data := load_guild_config guild_id in
  match level_roles config_data with
  | None =>
      save_guild_config guild_id (set_level_roles config_data ∅) ;;
      ret ∅
  | Some lr => ret lr
  end.

Definition set_level_role (guild_id level role_id : Z) : M bool :=
  let* config_data := load_guild_config guild_id in
  let lr := default ∅ (level_roles config_data) in
  save_guild_config guild_id (set_level_roles config_data (<[level := role_id]> lr)).

Definition remove_level_role (guild_id level : Z) : M bool :=
  let* config_data := load_guild_config guild_id in
  match level_roles config_data with
  | None => ret false
  | Some lr =>
      match lr !! level with
      | Some _ =>
          save_guild_config guild_id (set_level_roles config_data (delete level lr))
      | None => ret false
      end
  end.

Definition get_user_level_data (guild_id user_id : Z) : M (gmap string Z) :=
  let* config_data := load_guild_config guild_id in
  let* config_data :=
    match user_levels config_data with
    | None =>
        let c := set_user_levels config_data ∅ in
        save_guild_config guild_id c ;; ret c
    | Some _ => ret config_data
    end in
  let ul := default ∅ (user_levels config_data) in
  let* ul :=
    match ul !! guild_id with
    | None =>
        let ul' := <[guild_id := []]> ul in
        save_guild_config guild_id (set_user_levels config_data ul') ;; ret ul'
    | Some _ => ret ul
    end in
  ret (default new_record (table_get user_id (default [] (ul !! guild_id)))).

Definition get_user_level (guild_id user_id : Z) : M Z :=
  let* user_data := get_user_level_data guild_id user_id in
  ret (dict_get user_data "level" 1).

Definition add_user_xp (guild_id user_id xp_amount : Z) : M xp_result :=
  let* config_data := load_guild_config guild_id in
  (* Initialize user_levels if it doesn't exist *)
  let ul := default ∅ (user_levels config_data) in
  let table := default [] (ul !! guild_id) in
  (* Initialize user if they don't exist *)
  let record := default new_record (table_get user_id table) in
  (* Get current XP and level *)
  let current_level := dict_get record "level" 1 in
  let current_xp := dict_get record "xp" 0 in
  let total_xp := dict_get record "total_xp" 0 in
  (* Apply XP multiplier *)
  let xp_multiplier :=
    default 1%Q (xp_multiplier (default {| enabled := None; xp_multiplier := None;
                                           level_channel_id := None |}
                                        (leveling config_data))) in
  let xp_gained := Py.int (Py.of_int xp_amount * xp_multiplier)%Q in
  (* Update XP *)
  let current_xp := current_xp + xp_gained in
  let total_xp := total_xp + xp_gained in
  (* Check if user leveled up *)
  let '(current_level, current_xp, leveled_up) :=
    level_up_loop current_level current_xp false in
  (* Update user data *)
  let record :=
    <["total_xp" := total_xp]>
      (<["xp" := current_xp]> (<["level" := current_level]> record)) in
  let ul := <[guild_id := table_set user_id record table]> ul in
  (* Save the updated data *)
  save_guild_config guild_id (set_user_levels config_data ul) ;;
  ret {| res_level := current_level; res_xp := current_xp;
         res_total_xp := total_xp; res_leveled_up := leveled_up |}.

Definition get_level_leaderboard (guild_id : Z) : M (list (Z * gmap string Z)) :=
  let* config_data := load_guild_config guild_id in
  match user_levels config_data with
  | None => ret []
  | Some ul =>
      match ul !! guild_id with
      | None => ret []
      | Some table => ret (sort_by_total_xp table)
      end
  end.

End DataManager.

(** ** The [Leveling] cog ([cogs/leveling.py]) *)

(** What the handler sees of [message.guild]. *)
Record guild_view := {
  guild_id : Z;
  guild_roles : list Z;      (* ids for which [get_role] finds a role *)
  guild_channels : list Z    (* ids for which [get_channel] finds a channel *)
}.

Record message := {
  author_bot : bool;
  author_id : Z;
  author_roles : list Z;
  guild : option guild_view;
  content : string;
  channel : Z
}.

(** Calls made to the chat platform, in order. *)
Inductive action :=
| SendLevelUp (channel_id user_id new_level : Z)
| AddRole (user_id role_id : Z)
| SendReward (user_id role_id new_level : Z).

(** The cog instance: its [DataManager]'s data folder and [self.cooldowns]. *)
Record cog := {
  files : gmap Z config_data;
  cooldowns : gmap (Z * Z) Q
}.

Definition xp_per_message : Z := 15.
Definition random_xp_range : Z := 10.

(** The cooldown test of [on_message]: the handler returns early exactly
    when the key is present and [current_time - cooldowns[key] < 60]. *)
Definition on_cooldown (cd : gmap (Z * Z) Q) (key : Z * Z) (current_time : Q) : bool :=
  match cd !! key with
  | Some last => Py.lt (current_time - last)%Q (Py.of_int 60)
  | None => false
  end.

(** The level-up branch of [on_message]: the announcement, then the role
    reward looked up for [str(new_level)]. *)
Definition level_up_effects (m : message) (g : guild_view)
    (guild_config : leveling_config) (lr : gmap Z Z) (new_level : Z) : list action :=
  let level_channel :=
    match level_channel_id guild_config with
    | Some cid =>
        if negb (cid =? 0) && bool_decide (cid ∈ guild_channels g)
        then Some cid else None
    | None => None
    end in
  let level_up_channel := default (channel m) level_channel in
  SendLevelUp level_up_channel (author_id m) new_level ::
  match lr !! new_level with
  | Some role_id =>
      if bool_decide (role_id ∈ guild_roles g)
         && negb (bool_decide (role_id ∈ author_roles m))
      then [AddRole (author_id m) role_id;
            SendReward (author_id m) role_id new_level]
      else []
  | None => []
  end.

(** [on_message(message)], run at event-loop time [current_time]; [rnd] is
    the value [random.randint(0, self.random_xp_range)] returns when it is
    called. *)
Definition on_message (m : message) (current_time : Q) (rnd : Z) (st : cog)
  : cog * list action :=
  match guild m with
  | None => (st, [])
  | Some g =>
      if author_bot m then (st, [])
      else if (Z.of_nat (String.length (content m)) <? 5) then (st, [])
      else
        let user_id := author_id m in
        let cooldown_key := (guild_id g, user_id) in
        if on_cooldown (cooldowns st) cooldown_key current_time then (st, [])
        else
          let cd := <[cooldown_key := current_time]> (cooldowns st) in
          let (guild_config, fs) := get_leveling_config (guild_id g) (files st) in
          if negb (default false (enabled guild_config))
          then ({| files := fs; cooldowns := cd |}, [])
          else
            let xp_to_award := xp_per_message + rnd in
            let (lr, fs) := get_level_roles (guild_id g) fs in
            let (level_data, fs) := add_user_xp (guild_id g) user_id xp_to_award fs in
            ({| files := fs; cooldowns := cd |},
             if res_leveled_up level_data
             then level_up_effects m g guild_config lr (res_level level_data)
             else [])
  end.

(** Replies of [/rank]. *)
Inductive rank_reply :=
| NoXpYet
| RankCard (user_position : option Z) (level xp total_xp xp_for_next : Z).

(** The loop of [rank_command] over [enumerate(leaderboard)]: the position
    [i + 1] of the first entry whose key is the target user. *)
Fixpoint user_position_from (i : Z) (target : Z) (leaderboard : list (Z * gmap string Z))
  : option Z :=
  match leaderboard with
  | [] => None
  | (user_id, _) :: rest =>
      if user_id =? target then Some (i + 1)
      else user_position_from (i + 1) target rest
  end.

(** [if not user_data]: an empty dict is falsy. *)
Definition falsy (d : gmap string Z) : bool := bool_decide (d = ∅).

Definition rank_command (guild_id target_user : Z) : M rank_reply :=
  (let* user_data := get_user_level_data guild_id target_user in
   if falsy user_data then ret NoXpYet
   else
     let* leaderboard := get_level_leaderboard guild_id in
     let user_position := user_position_from 0 target_user leaderboard in
     let level := dict_get user_data "level" 1 in
     let xp := dict_get user_data "xp" 0 in
     let total_xp := dict_get user_data "total_xp" 0 in
     ret (RankCard user_position level xp total_xp
                   (Py.int (xp_for_next_level level))))%files.

(** [/addxp user amount]; [None] is a rejected amount. *)
Definition add_xp_command (guild_id user_id amount : Z) : M (option xp_result) :=
  (if amount <=? 0 then ret None
   else if 10000 <? amount then ret None
   else
     let* result := add_user_xp guild_id user_id amount in
     ret (Some result))%files.

(** [/levelconfig]: the multiplier is clamped to [0.1, 5.0] before it is
    stored. *)
Definition clamp_multiplier (x : Q) : Q :=
  if Py.lt x (1 # 10)%Q then (1 # 10)%Q
  else if Py.lt 5%Q x then 5%Q
  else x.

Definition level_config_command (guild_id : Z) (enable : option bool)
    (level_channel : option Z) (multiplier : option Q) : M bool :=
  (let* config := get_leveling_config guild_id in
   let config :=
     match enable with
     | Some e => {| enabled := Some e; xp_multiplier := xp_multiplier config;
                    level_channel_id := level_channel_id config |}
     | None => config
     end in
   let config :=
     match level_channel with
     | Some c => {| enabled := enabled config; xp_multiplier := xp_multiplier config;
                    level_channel_id := Some c |}
     | None => config
     end in
   let config :=
     match multiplier with
     | Some x => {| enabled := enabled config;
                    xp_multiplier := Some (clamp_multiplier x);
                    level_channel_id := level_channel_id config |}
     | None => config
     end in
   match enable, level_channel, multiplier with
   | None, None, None => ret true
   | _, _, _ => save_leveling_config guild_id config
   end)%files.

(** ** Notions used in the statements *)

(** [required(level) = floor(100 * level * 1.5)], the threshold as the
    specification writes it. *)
Definition required (level : Z) : Z := Qfloor (100 * inject_Z level * (15 # 10))%Q.

(** The record stored for a user, if any. *)
Definition stored_record (fs : gmap Z config_data) (g u : Z)
  : option (gmap string Z) :=
  c ← fs !! g; ul ← user_levels c; t ← ul !! g; table_get u t.

(** The table of user records of a guild, empty when absent. *)
Definition stored_table (fs : gmap Z config_data) (g : Z)
  : list (Z * gmap string Z) :=
  default [] (c ← fs !! g; ul ← user_levels c; ul !! g).

(** The ["leveling"] object of a guild, if any. *)
Definition stored_leveling (fs : gmap Z config_data) (g : Z)
  : option leveling_config :=
  c ← fs !! g; leveling c.

(** The multiplier [add_user_xp] applies:
    [config_data.get("leveling", {}).get("xp_multiplier", 1.0)]. *)
Definition multiplier_of (fs : gmap Z config_data) (g : Z) : Q :=
  default 1%Q (lv ← stored_leveling fs g; xp_multiplier lv).

(** The record [add_user_xp] writes, from the record it read. *)
Definition granted (r : gmap string Z) (gained : Z) : gmap string Z :=
  let '(l', x', _) :=
    level_up_loop (dict_get r "level" 1) (dict_get r "xp" 0 + gained) false in
  <["total_xp" := dict_get r "total_xp" 0 + gained]>
    (<["xp" := x']> (<["level" := l']> r)).

(** The record [get_user_level_data] reports for a user. *)
Definition record_of (fs : gmap Z config_data) (g u : Z) : gmap string Z :=
  fst (get_user_level_data g u fs).

Definition total_xp_of (fs : gmap Z config_data) (g u : Z) : Z :=
  dict_get (record_of fs g u) "total_xp" 0.


(** The sum over the calls of [floor(raw_amount * xp_multiplier)]. *)
Definition gained_sum (m : Q) (amounts : list Z) : Z :=
  foldr (fun a acc => Qfloor (inject_Z a * m)%Q + acc) 0 amounts.

(** Descending order of the sort key. *)
Definition desc (a b : Z * gmap string Z) : Prop := sort_key b <= sort_key a.

(** The entries whose key is [k], in list order. *)
Definition with_key (k : Z) (l : list (Z * gmap string Z)) : list (Z * gmap string Z) :=
  List.filter (fun x => sort_key x =? k) l.

(** [guild_config.get("enabled", False)] for the guild's leveling object as
    [get_leveling_config] returns it. *)
Definition leveling_enabled (fs : gmap Z config_data) (g : Z) : bool :=
  default false (enabled (default default_leveling (stored_leveling fs g))).

(** The ["level_roles"] object of a guild, empty when absent. *)
Definition stored_level_roles (fs : gmap Z config_data) (g : Z) : gmap Z Z :=
  default ∅ (c ← fs !! g; level_roles c).

(** A message of user [u] in guild [g] that passes the first two tests of
    the handler: a guild message of a non-bot author, at least 5 characters. *)
Definition qualifying (m : message) (g u : Z) : Prop :=
  (exists gv, guild m = Some gv /\ guild_id gv = g) /\
  author_bot m = false /\
  author_id m = u /\
  (5 <= String.length (content m))%nat.

(** A guild with leveling enabled at multiplier 1.0, and a member's message. *)
Definition demo_files : gmap Z config_data :=
  snd (save_leveling_config 1
         {| enabled := Some true; xp_multiplier := Some 1%Q;
            level_channel_id := None |} ∅).

Definition demo_message : message :=
  {| author_bot := false; author_id := 7; author_roles := [];
     guild := Some {| guild_id := 1; guild_roles := [99]; guild_channels := [] |};
     content := "hello"; channel := 5 |}.

(** The claim as the specification states it: every level gained by an
    awarded message has its configured role reward evaluated, and granted
    when the role exists in the guild and the author does not hold it. *)
Definition rewards_every_level_gained : Prop :=
  forall m gv t rnd st,
    guild m = Some gv ->
    qualifying m (guild_id gv) (author_id m) ->
    on_cooldown (cooldowns st) (guild_id gv, author_id m) t = false ->
    leveling_enabled (files st) (guild_id gv) = true ->
    let g := guild_id gv in
    let u := author_id m in
    let old_level := dict_get (record_of (files st) g u) "level" 1 in
    let new_level := dict_get (record_of (files (fst (on_message m t rnd st))) g u) "level" 1 in
    forall level role,
      old_level < level <= new_level ->
      stored_level_roles (files st) g !! level = Some role ->
      role ∈ guild_roles gv ->
      role ∉ author_roles m ->
      AddRole u role ∈ snd (on_message m t rnd st).

(** A guild with multiplier 20.0 and role 99 configured for level 2. *)
Definition jump_files : gmap Z config_data :=
  snd (set_level_role 1 2 99
         (snd (save_leveling_config 1
                 {| enabled := Some true; xp_multiplier := Some 20%Q;
                    level_channel_id := None |} ∅))).

(** The methods of [DataManager] that touch the guild documents of the
    leveling system; [LoadGuildConfig] stands for the other modules, which
    load a document and save it back with keys of their own changed. *)
Inductive op :=
| LoadGuildConfig (g : Z)
| GetLevelingConfig (g : Z)
| SaveLevelingConfig (g : Z) (config : leveling_config)
| GetLevelRoles (g : Z)
| SetLevelRole (g level role_id : Z)
| RemoveLevelRole (g level : Z)
| GetUserLevelData (g u : Z)
| AddUserXp (g u amount : Z)
| GetLevelLeaderboard (g : Z).

Definition run (o : op) (fs : gmap Z config_data) : gmap Z config_data :=
  match o with
  | LoadGuildConfig g => snd (load_guild_config g fs)
  | GetLevelingConfig g => snd (get_leveling_config g fs)
  | SaveLevelingConfig g c => snd (save_leveling_config g c fs)
  | GetLevelRoles g => snd (get_level_roles g fs)
  | SetLevelRole g l r => snd (set_level_role g l r fs)
  | RemoveLevelRole g l => snd (remove_level_role g l fs)
  | GetUserLevelData g u => snd (get_user_level_data g u fs)
  | AddUserXp g u a => snd (add_user_xp g u a fs)
  | GetLevelLeaderboard g => snd (get_level_leaderboard g fs)
  end.

(** The data folders the bot can produce, starting from an empty one. *)
Inductive reachable : gmap Z config_data -> Prop :=
| reachable_empty : reachable ∅
| reachable_run o fs : reachable fs -> reachable (run o fs).

(** Every stored record has its three keys. *)
Definition records_complete (fs : gmap Z config_data) : Prop :=
  forall g u r,
    table_get u (stored_table fs g) = Some r ->
    is_Some (r !! "level") /\ is_Some (r !! "xp") /\ is_Some (r !! "total_xp").

(** ** Further commands of the [Leveling] cog *)

(** [on_ready]: the cooldowns are cleared (the loop over the guilds only
    makes [get_leveling_config] store the default object where missing). *)
Definition on_ready (guilds : list Z) (st : cog) : cog :=
  {| files := foldl (fun fs g => snd (get_leveling_config g fs)) (files st) guilds;
     cooldowns := ∅ |}.






(** [enumerate(l, start=i)] *)
Fixpoint enumerate_from {A} (i : Z) (l : list A) : list (Z * A) :=
  match l with
  | [] => []
  | x :: l' => (i, x) :: enumerate_from (i + 1) l'
  end.

(** [l[start:stop]] for [0 <= start]. *)
Definition py_slice {A} (l : list A) (start stop : Z) : list A :=
  take (Z.to_nat (stop - start)) (drop (Z.to_nat start) l).

(** The prefix of a leaderboard line. *)
Inductive prefix := Gold | Silver | Bronze | Numbered (i : Z).

Definition prefix_of (i : Z) : prefix :=
  if i =? 1 then Gold else if i =? 2 then Silver else if i =? 3 then Bronze
  else Numbered i.

(** A line of the leaderboard embed: prefix, user id, level, total xp. *)
Record leaderboard_line := {
  line_prefix : prefix;
  line_user : Z;
  line_level : Z;
  line_total_xp : Z
}.

Inductive leaderboard_reply :=
| NoLeaderboardData
| LeaderboardPage (page max_pages : Z) (lines : list leaderboard_line).

Definition items_per_page : Z := 10.

(** [math.ceil(n / items_per_page)] for a length [n]. *)
Definition max_pages_of (n : Z) : Z := (n + items_per_page - 1) / items_per_page.

(** [/leaderboard page] *)
Definition leaderboard_command (guild_id page : Z) : M leaderboard_reply :=
  (let* leaderboard := get_level_leaderboard guild_id in
   match leaderboard with
   | [] => ret NoLeaderboardData
   | _ =>
       let max_pages := max_pages_of (Z.of_nat (length leaderboard)) in
       let page := Z.max 1 (Z.min page max_pages) in
       let start_idx := (page - 1) * items_per_page in
       let end_idx := start_idx + items_per_page in
       let page_items := py_slice leaderboard start_idx end_idx in
       ret (LeaderboardPage page max_pages
              (map (fun '(i, (user_id, user_data)) =>
                      {| line_prefix := prefix_of i;
                         line_user := user_id;
                         line_level := dict_get user_data "level" 1;
                         line_total_xp := dict_get user_data "total_xp" 0 |})
                   (enumerate_from (start_idx + 1) page_items)))
   end)%files.

(** What [/setlevelrole] looks at in a role. *)
Record role := {
  role_id_of : Z;
  role_managed : bool;
  role_is_default : bool;
  role_position : Z
}.




(** The keys of a table, in insertion order. *)
Definition table_keys {V} (t : list (Z * V)) : list Z := map fst t.

(** The invariant of a level record written by the bot. *)
Definition record_consistent (r : gmap string Z) : Prop :=
  let level := dict_get r "level" 1 in
  let xp := dict_get r "xp" 0 in
  let total_xp := dict_get r "total_xp" 0 in
  1 <= level /\ xp < 150 * level /\ total_xp = xp + 75 * level * (level - 1).


(** ** The other sections of [DataManager]

    [DEFAULT_CONFIG.copy()] is a shallow copy, so the section dictionaries of
    a document created in this process are shared and may carry entries of
    other guilds; every method below reads and writes only the entry of its
    own guild, [config_data[section][str(guild_id)]], and that entry is what
    each model keeps, indexed by the guild id. *)

(** *** Warnings ([self.warns], saved to [warns.json]) *)

Record warning := {
  warn_reason : string;
  warn_moderator_id : Z;
  warn_timestamp : string
}.

(** [add_warning]; [now] is [datetime.utcnow().isoformat()]. *)
Definition add_warning (guild_id user_id : Z) (reason : string) (moderator_id : Z)
    (now : string) (warns : gmap Z (gmap Z (list warning)))
  : Z * gmap Z (gmap Z (list warning)) :=
  let by_user := default ∅ (warns !! guild_id) in
  let warnings :=
    default [] (by_user !! user_id)
    ++ [{| warn_reason := reason; warn_moderator_id := moderator_id;
           warn_timestamp := now |}] in
  (Z.of_nat (length warnings), <[guild_id := <[user_id := warnings]> by_user]> warns).

Definition get_warnings (guild_id user_id : Z) (warns : gmap Z (gmap Z (list warning)))
  : list warning :=
  match warns !! guild_id with
  | None => []
  | Some by_user => default [] (by_user !! user_id)
  end.

Definition clear_warnings (guild_id user_id : Z) (warns : gmap Z (gmap Z (list warning)))
  : Z * gmap Z (gmap Z (list warning)) :=
  match warns !! guild_id with
  | None => (0, warns)
  | Some by_user =>
      match by_user !! user_id with
      | None => (0, warns)
      | Some warnings =>
          (Z.of_nat (length warnings), <[guild_id := <[user_id := []]> by_user]> warns)
      end
  end.

(** *** Admin and moderator roles *)

(** The ["admin_roles"] and ["mod_roles"] sections of the guild documents:
    document of a guild, section name, guild id, list of role ids. *)
Definition DEFAULT_ROLE_SECTIONS : gmap string (gmap Z (list Z)) :=
  {[ "admin_roles" := ∅; "mod_roles" := ∅ ]}.

Definition load_role_sections (guild_id : Z)
    (docs : gmap Z (gmap string (gmap Z (list Z))))
  : gmap string (gmap Z (list Z)) * gmap Z (gmap string (gmap Z (list Z))) :=
  match docs !! guild_id with
  | None => (DEFAULT_ROLE_SECTIONS, <[guild_id := DEFAULT_ROLE_SECTIONS]> docs)
  | Some c => (c, docs)
  end.

(** [l.remove(x)]: the first occurrence goes. *)
Fixpoint list_remove_first (x : Z) (l : list Z) : list Z :=
  match l with
  | [] => []
  | y :: l' => if x =? y then l' else y :: list_remove_first x l'
  end.

(** [get_admin_roles] / [get_mod_roles], for the section [key]. *)
Definition get_roles (key : string) (guild_id : Z)
    (docs : gmap Z (gmap string (gmap Z (list Z))))
  : list Z * gmap Z (gmap string (gmap Z (list Z))) :=
  let (config_data, docs) := load_role_sections guild_id docs in
  (default [] (default ∅ (config_data !! key) !! guild_id), docs).

(** [set_admin_role] / [set_mod_role] *)
Definition set_role (key : string) (guild_id role_id : Z)
    (docs : gmap Z (gmap string (gmap Z (list Z))))
  : bool * gmap Z (gmap string (gmap Z (list Z))) :=
  let (config_data, docs) := load_role_sections guild_id docs in
  let section := default ∅ (config_data !! key) in
  let roles := default [] (section !! guild_id) in
  let roles := if bool_decide (role_id ∈ roles) then roles else roles ++ [role_id] in
  (true, <[guild_id := <[key := <[guild_id := roles]> section]> config_data]> docs).

(** [remove_admin_role] / [remove_mod_role] *)
Definition remove_role (key : string) (guild_id role_id : Z)
    (docs : gmap Z (gmap string (gmap Z (list Z))))
  : bool * gmap Z (gmap string (gmap Z (list Z))) :=
  let (config_data, docs) := load_role_sections guild_id docs in
  match config_data !! key with
  | None => (false, docs)
  | Some section =>
      match section !! guild_id with
      | None => (false, docs)
      | Some roles =>
          if bool_decide (role_id ∈ roles)
          then (true,
                <[guild_id := <[key := <[guild_id := list_remove_first role_id roles]>
                                          section]> config_data]> docs)
          else (false, docs)
      end
  end.

Definition get_admin_roles := get_roles "admin_roles".
Definition set_admin_role := set_role "admin_roles".
Definition remove_admin_role := remove_role "admin_roles".
Definition get_mod_roles := get_roles "mod_roles".
Definition set_mod_role := set_role "mod_roles".
Definition remove_mod_role := remove_role "mod_roles".

(** [any(role_id in user_roles for role_id in roles)] *)
Definition any_role_held (user_roles roles : list Z) : bool :=
  existsb (fun role_id => bool_decide (role_id ∈ user_roles)) roles.

(** The predicate of [has_admin_permissions] ([utils.py]). *)
Definition has_admin_permissions (administrator : bool) (user_roles : list Z)
    (guild_id : Z) (docs : gmap Z (gmap string (gmap Z (list Z))))
  : bool * gmap Z (gmap string (gmap Z (list Z))) :=
  if administrator then (true, docs)
  else
    let (admin_roles, docs) := get_admin_roles guild_id docs in
    (any_role_held user_roles admin_roles, docs).

(** The predicate of [has_mod_permissions] ([utils.py]). *)
Definition has_mod_permissions (administrator : bool) (user_roles : list Z)
    (guild_id : Z) (docs : gmap Z (gmap string (gmap Z (list Z))))
  : bool * gmap Z (gmap string (gmap Z (list Z))) :=
  if administrator then (true, docs)
  else
    let (admin_roles, docs) := get_admin_roles guild_id docs in
    let (mod_roles, docs) := get_mod_roles guild_id docs in
    (any_role_held user_roles (admin_roles ++ mod_roles), docs).

(** *** Ticket systems *)

Record ticket_system := {
  ts_description : string;
  ts_category_id : Z;
  ts_log_channel_id : Z;
  ts_support_role_id : option Z;
  ts_ticket_count : option Z       (* [None]: the key is absent *)
}.

Definition create_ticket_system (guild_id : Z) (name description : string)
    (category_id log_channel_id : Z) (support_role_id : option Z)
    (tickets : gmap Z (gmap string ticket_system))
  : bool * gmap Z (gmap string ticket_system) :=
  let systems := default ∅ (tickets !! guild_id) in
  (true,
   <[guild_id := <[name := {| ts_description := description;
                              ts_category_id := category_id;
                              ts_log_channel_id := log_channel_id;
                              ts_support_role_id := support_role_id;
                              ts_ticket_count := Some 0 |}]> systems]> tickets).

Definition get_ticket_system (guild_id : Z) (name : string)
    (tickets : gmap Z (gmap string ticket_system)) : option ticket_system :=
  systems ← tickets !! guild_id; systems !! name.

(** [increment_ticket_count]: the new count, or [None]. *)
Definition increment_ticket_count (guild_id : Z) (system_name : string)
    (tickets : gmap Z (gmap string ticket_system))
  : option Z * gmap Z (gmap string ticket_system) :=
  match tickets !! guild_id with
  | None => (None, tickets)
  | Some systems =>
      match systems !! system_name with
      | None => (None, tickets)
      | Some s =>
          let ticket_count := default 0 (ts_ticket_count s) + 1 in
          (Some ticket_count,
           <[guild_id :=
               <[system_name := {| ts_description := ts_description s;
                                   ts_category_id := ts_category_id s;
                                   ts_log_channel_id := ts_log_channel_id s;
                                   ts_support_role_id := ts_support_role_id s;
                                   ts_ticket_count := Some ticket_count |}]> systems]>
             tickets)
      end
  end.

Definition delete_ticket_system (guild_id : Z) (system_name : string)
    (tickets : gmap Z (gmap string ticket_system))
  : bool * gmap Z (gmap string ticket_system) :=
  match tickets !! guild_id with
  | None => (false, tickets)
  | Some systems =>
      match systems !! system_name with
      | None => (false, tickets)
      | Some _ => (true, <[guild_id := delete system_name systems]> tickets)
      end
  end.

(** *** The bump system *)

(** Times are in microseconds, the resolution of [datetime]. *)
Record bump_system := {
  bump_channel_id : Z;
  bump_message : string;
  bump_cooldown_hours : option Z;
  bump_last_bump : option Z;
  bump_count : option Z;
  bump_user_bumps : option (gmap Z Z)
}.

Definition setup_bump_system (guild_id channel_id : Z) (message : string)
    (cooldown_hours : Z) (bumps : gmap Z bump_system) : bool * gmap Z bump_system :=
  (true,
   <[guild_id := {| bump_channel_id := channel_id; bump_message := message;
                    bump_cooldown_hours := Some cooldown_hours;
                    bump_last_bump := None; bump_count := Some 0;
                    bump_user_bumps := Some ∅ |}]> bumps).

(** [record_bump]; [now] is [datetime.utcnow()]. *)
Definition record_bump (guild_id user_id now : Z) (bumps : gmap Z bump_system)
  : option Z * gmap Z bump_system :=
  match bumps !! guild_id with
  | None => (None, bumps)
  | Some b =>
      let count := default 0 (bump_count b) + 1 in
      let user_bumps := default ∅ (bump_user_bumps b) in
      let user_bumps := <[user_id := default 0 (user_bumps !! user_id) + 1]> user_bumps in
      (Some count,
       <[guild_id := {| bump_channel_id := bump_channel_id b;
                        bump_message := bump_message b;
                        bump_cooldown_hours := bump_cooldown_hours b;
                        bump_last_bump := Some now;
                        bump_count := Some count;
                        bump_user_bumps := Some user_bumps |}]> bumps)
  end.

Definition get_user_bump_count (guild_id user_id : Z) (bumps : gmap Z bump_system) : Z :=
  match bumps !! guild_id with
  | None => 0
  | Some b =>
      match bump_user_bumps b with
      | None => 0
      | Some user_bumps => default 0 (user_bumps !! user_id)
      end
  end.

Definition clear_bump_count (guild_id : Z) (bumps : gmap Z bump_system)
  : bool * gmap Z bump_system :=
  match bumps !! guild_id with
  | None => (false, bumps)
  | Some b =>
      (true,
       <[guild_id := {| bump_channel_id := bump_channel_id b;
                        bump_message := bump_message b;
                        bump_cooldown_hours := bump_cooldown_hours b;
                        bump_last_bump := bump_last_bump b;
                        bump_count := Some 0;
                        bump_user_bumps := Some ∅ |}]> bumps)
  end.

Definition microseconds_per_hour : Z := 3600 * 1000000.

(** [is_bump_on_cooldown], asked at time [now]. *)
Definition is_bump_on_cooldown (guild_id now : Z) (bumps : gmap Z bump_system) : bool :=
  match bumps !! guild_id with
  | None => false
  | Some b =>
      match bump_last_bump b with
      | None => false
      | Some last_bump_time =>
          let cooldown_hours := default 24 (bump_cooldown_hours b) in
          now <? last_bump_time + cooldown_hours * microseconds_per_hour
      end
  end.

(** The sum of the per-user bump counts. *)
Definition total_user_bumps (user_bumps : gmap Z Z) : Z :=
  map_fold (fun _ n acc => n + acc) 0 user_bumps.

(** *** Tournaments *)

Inductive tournament_status := Registration | Ongoing | Completed.

Record team := {
  team_members : list Z;
  team_score : Z
}.

Record tmatch := {
  match_team1 : string;
  match_team2 : string;
  match_winner : option string;
  match_completed : bool;
  match_id : Z
}.

(** A tournament; [tournament_teams] is a dictionary in insertion order. *)
Record tournament := {
  tournament_team_size : Z;
  tournament_team_count : Z;
  tournament_channel_id : Z;
  tournament_teams : list (string * team);
  tournament_matches : list tmatch;
  tournament_status_of : tournament_status
}.

(** What a method does with the tournament it found: save it and return
    [True], return [False] without saving, or raise [KeyError]. *)
Inductive outcome :=
| Saved (t : tournament)
| ReturnedFalse
| RaisedKeyError.

Definition create_tournament (guild_id : Z) (name : string)
    (team_size team_count channel_id : Z)
    (tournaments : gmap Z (gmap string tournament))
  : bool * gmap Z (gmap string tournament) :=
  (true,
   <[guild_id :=
       <[name := {| tournament_team_size := team_size;
                    tournament_team_count := team_count;
                    tournament_channel_id := channel_id;
                    tournament_teams := [];
                    tournament_matches := [];
                    tournament_status_of := Registration |}]>
         (default ∅ (tournaments !! guild_id))]> tournaments).

Definition status_eqb (a b : tournament_status) : bool :=
  match a, b with
  | Registration, Registration | Ongoing, Ongoing | Completed, Completed => true
  | _, _ => false
  end.

Fixpoint team_lookup (name : string) (teams : list (string * team)) : option team :=
  match teams with
  | [] => None
  | (n, t) :: teams' => if String.eqb name n then Some t else team_lookup name teams'
  end.

(** [all_members]: the members of all teams, team after team. *)
Definition all_members (teams : list (string * team)) : list Z :=
  concat (map (fun nt => team_members (snd nt)) teams).

(** The body of [add_team_to_tournament] once the tournament is found. *)
Definition add_team (t : tournament) (team_name : string) (member_ids : list Z)
  : outcome :=
  if negb (status_eqb (tournament_status_of t) Registration) then ReturnedFalse
  else if negb (Z.of_nat (length member_ids) =? tournament_team_size t) then ReturnedFalse
  else if bool_decide (is_Some (team_lookup team_name (tournament_teams t)))
  then ReturnedFalse
  else if existsb (fun member_id =>
                     bool_decide (member_id ∈ all_members (tournament_teams t)))
                  member_ids
  then ReturnedFalse
  else
    Saved {| tournament_team_size := tournament_team_size t;
             tournament_team_count := tournament_team_count t;
             tournament_channel_id := tournament_channel_id t;
             tournament_teams :=
               tournament_teams t
               ++ [(team_name, {| team_members := member_ids; team_score := 0 |})];
             tournament_matches := tournament_matches t;
             tournament_status_of := tournament_status_of t |}.

(** The inner loop of [start_tournament], [for j in range(i + 1, len(teams))]:
    [later] are the teams after [teams[i]]. *)
Fixpoint add_matches_against (team_i : string) (later : list string)
    (matches : list tmatch) : list tmatch :=
  match later with
  | [] => matches
  | team_j :: later' =>
      add_matches_against team_i later'
        (matches ++ [{| match_team1 := team_i; match_team2 := team_j;
                        match_winner := None; match_completed := false;
                        match_id := Z.of_nat (length matches) + 1 |}])
  end.

(** The outer loop, [for i in range(len(teams))]. *)
Fixpoint round_robin (teams : list string) (matches : list tmatch) : list tmatch :=
  match teams with
  | [] => matches
  | team_i :: later => round_robin later (add_matches_against team_i later matches)
  end.

(** The body of [start_tournament] once the tournament is found. *)
Definition start (t : tournament) : outcome :=
  if negb (status_eqb (tournament_status_of t) Registration) then ReturnedFalse
  else if (length (tournament_teams t) <? 2)%nat then ReturnedFalse
  else
    Saved {| tournament_team_size := tournament_team_size t;
             tournament_team_count := tournament_team_count t;
             tournament_channel_id := tournament_channel_id t;
             tournament_teams := tournament_teams t;
             tournament_matches := round_robin (map fst (tournament_teams t)) [];
             tournament_status_of := Ongoing |}.

(** [teams[name]["score"] += 1]; [None] stands for the [KeyError]. *)
Fixpoint bump_score (name : string) (teams : list (string * team))
  : option (list (string * team)) :=
  match teams with
  | [] => None
  | (n, t) :: teams' =>
      if String.eqb name n
      then Some ((n, {| team_members := team_members t;
                        team_score := team_score t + 1 |}) :: teams')
      else option_map (cons (n, t)) (bump_score name teams')
  end.

(** The loop of [set_match_winner] over the matches: the first match with
    the id is updated ([Some] of the new list), a winner that is neither of
    its teams makes the method return [False] ([Some None]), and [None]
    means that no match has the id. *)
Fixpoint update_match (id : Z) (winner_team : string) (matches : list tmatch)
  : option (option (list tmatch)) :=
  match matches with
  | [] => None
  | m :: matches' =>
      if match_id m =? id
      then
        if String.eqb winner_team (match_team1 m) || String.eqb winner_team (match_team2 m)
        then Some (Some ({| match_team1 := match_team1 m;
                            match_team2 := match_team2 m;
                            match_winner := Some winner_team;
                            match_completed := true;
                            match_id := match_id m |} :: matches'))
        else Some None
      else
        match update_match id winner_team matches' with
        | Some (Some l) => Some (Some (m :: l))
        | other => other
        end
  end.

(** The body of [set_match_winner] once the tournament is found. *)
Definition set_winner (t : tournament) (id : Z) (winner_team : string) : outcome :=
  if negb (status_eqb (tournament_status_of t) Ongoing) then ReturnedFalse
  else
    match update_match id winner_team (tournament_matches t) with
    | None => ReturnedFalse
    | Some None => ReturnedFalse
    | Some (Some matches) =>
        match bump_score winner_team (tournament_teams t) with
        | None => RaisedKeyError
        | Some teams =>
            Saved {| tournament_team_size := tournament_team_size t;
                     tournament_team_count := tournament_team_count t;
                     tournament_channel_id := tournament_channel_id t;
                     tournament_teams := teams;
                     tournament_matches := matches;
                     tournament_status_of :=
                       if forallb match_completed matches
                       then Completed else Ongoing |}
        end
    end.

(** The methods themselves: the tournament is looked up by guild and name,
    and saved back when the body says so. *)
Definition on_tournament (body : tournament -> outcome) (guild_id : Z) (name : string)
    (tournaments : gmap Z (gmap string tournament))
  : option bool * gmap Z (gmap string tournament) :=
  match tournaments !! guild_id with
  | None => (Some false, tournaments)
  | Some by_name =>
      match by_name !! name with
      | None => (Some false, tournaments)
      | Some t =>
          match body t with
          | Saved t' => (Some true, <[guild_id := <[name := t']> by_name]> tournaments)
          | ReturnedFalse => (Some false, tournaments)
          | RaisedKeyError => (None, tournaments)
          end
      end
  end.

Definition add_team_to_tournament (guild_id : Z) (tournament_name team_name : string)
    (member_ids : list Z) :=
  on_tournament (fun t => add_team t team_name member_ids) guild_id tournament_name.

Definition start_tournament (guild_id : Z) (tournament_name : string) :=
  on_tournament start guild_id tournament_name.

Definition set_match_winner (guild_id : Z) (tournament_name : string) (id : Z)
    (winner_team : string) :=
  on_tournament (fun t => set_winner t id winner_team) guild_id tournament_name.

Definition get_tournament (guild_id : Z) (name : string)
    (tournaments : gmap Z (gmap string tournament)) : option tournament :=
  by_name ← tournaments !! guild_id; by_name !! name.

(** The tournaments a guild can hold: created, then changed by the three
    methods. *)
Inductive tournament_reachable : tournament -> Prop :=
| tournament_created team_size team_count channel_id :
    tournament_reachable
      {| tournament_team_size := team_size; tournament_team_count := team_count;
         tournament_channel_id := channel_id; tournament_teams := [];
         tournament_matches := []; tournament_status_of := Registration |}
| tournament_team_added t team_name member_ids t' :
    tournament_reachable t -> add_team t team_name member_ids = Saved t' ->
    tournament_reachable t'
| tournament_started t t' :
    tournament_reachable t -> start t = Saved t' -> tournament_reachable t'
| tournament_winner_set t id winner_team t' :
    tournament_reachable t -> set_winner t id winner_team = Saved t' ->
    tournament_reachable t'.

(** *** Auto messages *)

Record auto_message := {
  am_channel_id : Z;
  am_message : string;
  am_interval : Z;
  am_last_sent : string;
  am_active : bool
}.

(** [add_auto_message] as the cog calls it, without a [message_id]: the id
    is [str(len(messages) + 1)].  Ids are modelled by the integers. *)
Definition add_auto_message (guild_id channel_id : Z) (message : string)
    (interval_seconds : Z) (now : string)
    (autos : gmap Z (gmap Z auto_message))
  : (bool * Z) * gmap Z (gmap Z auto_message) :=
  let messages := default ∅ (autos !! guild_id) in
  let message_id := Z.of_nat (size messages) + 1 in
  ((true, message_id),
   <[guild_id := <[message_id := {| am_channel_id := channel_id;
                                    am_message := message;
                                    am_interval := interval_seconds;
                                    am_last_sent := now;
                                    am_active := true |}]> messages]> autos).

Definition get_auto_messages (guild_id : Z) (autos : gmap Z (gmap Z auto_message))
  : gmap Z auto_message :=
  default ∅ (autos !! guild_id).

Definition remove_auto_message (guild_id message_id : Z)
    (autos : gmap Z (gmap Z auto_message))
  : bool * gmap Z (gmap Z auto_message) :=
  match autos !! guild_id with
  | None => (false, autos)
  | Some messages =>
      match messages !! message_id with
      | None => (false, autos)
      | Some _ => (true, <[guild_id := delete message_id messages]> autos)
      end
  end.

(** [toggle_auto_message]; [active = None] flips the flag. *)
Definition toggle_auto_message (guild_id message_id : Z) (active : option bool)
    (autos : gmap Z (gmap Z auto_message))
  : bool * gmap Z (gmap Z auto_message) :=
  match autos !! guild_id with
  | None => (false, autos)
  | Some messages =>
      match messages !! message_id with
      | None => (false, autos)
      | Some am =>
          let active := default (negb (am_active am)) active in
          (true,
           <[guild_id := <[message_id := {| am_channel_id := am_channel_id am;
                                            am_message := am_message am;
                                            am_interval := am_interval am;
                                            am_last_sent := am_last_sent am;
                                            am_active := active |}]> messages]> autos)
      end
  end.

(** A match as [start_tournament] creates it, and as [set_match_winner]
    leaves it. *)
Definition new_match (team1 team2 : string) (id : Z) : tmatch :=
  {| match_team1 := team1; match_team2 := team2; match_winner := None;
     match_completed := false; match_id := id |}.

Definition decided (m : tmatch) (winner_team : string) : tmatch :=
  {| match_team1 := match_team1 m; match_team2 := match_team2 m;
     match_winner := Some winner_team; match_completed := true;
     match_id := match_id m |}.

(** The tournament after a method: the saved one, or the old one. *)
Definition saved (o : outcome) (t : tournament) : tournament :=
  match o with
  | Saved t' => t'
  | ReturnedFalse | RaisedKeyError => t
  end.

(** Three teams of two registered, the tournament started and the second
    match decided. *)
Definition demo_registration : tournament :=
  let t0 := {| tournament_team_size := 2; tournament_team_count := 4;
               tournament_channel_id := 10; tournament_teams := [];
               tournament_matches := []; tournament_status_of := Registration |} in
  let t1 := saved (add_team t0 "A" [1; 2]) t0 in
  let t2 := saved (add_team t1 "B" [3; 4]) t1 in
  saved (add_team t2 "C" [5; 6]) t2.

Definition demo_tournament : tournament :=
  let t := saved (start demo_registration) demo_registration in
  saved (set_winner t 2 "C") t.

(** The bump counter of a guild agrees with the per-user counters. *)
Definition bump_consistent (b : bump_system) : Prop :=
  default 0 (bump_count b) = total_user_bumps (default ∅ (bump_user_bumps b)).

(** The pairs of a round robin: each team with each team after it. *)
Fixpoint team_pairs (teams : list string) : list (string * string) :=
  match teams with
  | [] => []
  | t :: later => map (pair t) later ++ team_pairs later
  end.

(** No member belongs to two teams. *)
Fixpoint teams_disjoint (teams : list (string * team)) : Prop :=
  match teams with
  | [] => True
  | (_, t) :: teams' =>
      (forall member, member ∈ team_members t -> member ∉ all_members teams')
      /\ teams_disjoint teams'
  end.

(** The invariant of the tournaments of the bot. *)
Definition tournament_wf (t : tournament) : Prop :=
  NoDup (map fst (tournament_teams t)) /\
  Forall (fun nt => Z.of_nat (length (team_members (snd nt))) = tournament_team_size t)
         (tournament_teams t) /\
  teams_disjoint (tournament_teams t) /\
  (tournament_status_of t = Registration -> tournament_matches t = []) /\
  Forall (fun m => match_team1 m ∈ map fst (tournament_teams t) /\
                   match_team2 m ∈ map fst (tournament_teams t))
         (tournament_matches t).

(** What holds of every tournament the methods can produce. *)
Definition tournament_invariant (t : tournament) : Prop :=
  tournament_wf t /\
  (forall k m, tournament_matches t !! k = Some m -> match_id m = Z.of_nat k + 1) /\
  (tournament_status_of t <> Registration ->
   (2 <= length (tournament_teams t))%nat /\
   map (fun m => (match_team1 m, match_team2 m)) (tournament_matches t)
   = team_pairs (map fst (tournament_teams t))).

(** * Properties *)

(** ** The level-up loop *)

Lemma xp_for_next_level_num l : Qnum (xp_for_next_level l) = 300 * l.
Proof. unfold xp_for_next_level, Py.of_int, base_xp. simpl. lia. Qed.

Lemma xp_for_next_level_den l : Qden (xp_for_next_level l) = 2%positive.
Proof. reflexivity. Qed.

Lemma int_xp_for_next_level l : Py.int (xp_for_next_level l) = 150 * l.
Proof.
  unfold Py.int. rewrite xp_for_next_level_num, xp_for_next_level_den.
  replace (300 * l) with (150 * l * 2) by lia.
  apply Z.quot_mul. discriminate.
Qed.

Lemma ge_xp_for_next_level x l :
  Py.ge (Py.of_int x) (xp_for_next_level l) = (150 * l <=? x).
Proof.
  unfold Py.ge, Qle_bool.
  rewrite xp_for_next_level_num, xp_for_next_level_den.
  unfold Py.of_int. simpl Qnum. simpl Qden.
  apply eq_iff_eq_true. rewrite !Z.leb_le. lia.
Qed.

(** The loop as a single unfolding step. *)
Lemma level_up_loop_step current_level current_xp leveled_up :
  level_up_loop current_level current_xp leveled_up =
  if Py.ge (Py.of_int current_xp) (xp_for_next_level current_level)
  then level_up_loop (current_level + 1)
                     (current_xp - Py.int (xp_for_next_level current_level)) true
  else (current_level, current_xp, leveled_up).
Proof.
  rewrite level_up_loop_equation_1.
  unfold level_up_loop_unfold_clause_1, inspect.
  destruct (Py.ge _ _); reflexivity.
Qed.

Lemma required_eq level : required level = 150 * level.
Proof.
  unfold required, Qfloor. simpl.
  replace (100 * level * 15) with (150 * level * 10) by lia.
  apply Z.div_mul. discriminate.
Qed.

Lemma int_xp_for_next_level_required l : Py.int (xp_for_next_level l) = required l.
Proof. rewrite required_eq. apply int_xp_for_next_level. Qed.

Lemma level_up_loop_Z l x b :
  level_up_loop l x b =
  if 150 * l <=? x then level_up_loop (l + 1) (x - 150 * l) true else (l, x, b).
Proof.
  rewrite level_up_loop_step, ge_xp_for_next_level, int_xp_for_next_level.
  reflexivity.
Qed.

Lemma loop_measure_decreases l x :
  150 * l <= x -> (loop_measure (l + 1) (x - 150 * l) < loop_measure l x)%nat.
Proof.
  intros H. unfold loop_measure.
  destruct (Z.leb_spec l 0), (Z.leb_spec (l + 1) 0); nia.
Qed.

(** Induction along the iterations of the loop. *)
Lemma level_up_loop_ind (P : Z -> Z -> bool -> Z * Z * bool -> Prop) :
  (forall l x b, x < 150 * l -> P l x b (l, x, b)) ->
  (forall l x b r, 150 * l <= x -> P (l + 1) (x - 150 * l) true r -> P l x b r) ->
  forall l x b, P l x b (level_up_loop l x b).
Proof.
  intros Hexit Hiter l x.
  remember (loop_measure l x) as n eqn:Hn.
  revert l x Hn.
  induction n as [n IH] using lt_wf_ind.
  intros l x -> b.
  rewrite level_up_loop_Z.
  destruct (Z.leb_spec (150 * l) x) as [Hle | Hlt].
  - apply Hiter; [exact Hle |].
    eapply IH; [| reflexivity]. apply loop_measure_decreases, Hle.
  - apply Hexit, Hlt.
Qed.


(** The xp removed by the loop is the sum of the thresholds of the levels
    crossed: [150 * (l + (l+1) + ... + (l'-1))]. *)
Lemma level_up_loop_account l x b :
  let '(l', x', _) := level_up_loop l x b in
  x + 75 * l * (l - 1) = x' + 75 * l' * (l' - 1) /\ l <= l'.
Proof.
  pattern l, x, b, (level_up_loop l x b).
  apply level_up_loop_ind; clear.
  - intros; lia.
  - intros l x b [[l' x'] b'] Hle IH. nia.
Qed.

(** [leveled_up] reports exactly whether the level changed. *)
Lemma level_up_loop_flag l x :
  let '(l', _, b') := level_up_loop l x false in
  b' = negb (l' =? l).
Proof.
  assert (G : forall l x b,
             let '(l', _, b') := level_up_loop l x b in
             l <= l' /\ (b' = true <-> (b = true \/ l < l'))).
  { clear. intros l x b. pattern l, x, b, (level_up_loop l x b).
    apply level_up_loop_ind; clear.
    - intros l x b _. split; [lia |]. split; [tauto |]. intros [H | H]; [exact H | lia].
    - intros l x b [[l' x'] b'] _ [Hl IH]. split; [lia |].
      rewrite IH. split; intros _; [right; lia | left; reflexivity]. }
  specialize (G l x false). destruct (level_up_loop l x false) as [[l' x'] b'].
  destruct G as [Hl Hb].
  destruct (Z.eqb_spec l' l) as [-> | Hne]; simpl.
  - destruct b'; [| reflexivity]. destruct Hb as [Hb _].
    destruct (Hb eq_refl); [discriminate | lia].
  - apply Hb. right. lia.
Qed.

(** ** Python numerics *)

Lemma int_nonneg (q : Q) : (0 <= q)%Q -> 0 <= Py.int q.
Proof.
  unfold Qle, Py.int. simpl. intros H.
  apply Z.quot_pos; lia.
Qed.

(** On a non-negative number truncation toward zero is the floor. *)
Lemma int_floor (q : Q) : (0 <= q)%Q -> Py.int q = Qfloor q.
Proof.
  unfold Qle, Py.int, Qfloor. simpl. intros H. destruct q as [n d]. simpl in *.
  apply Z.quot_div_nonneg; lia.
Qed.

Lemma product_nonneg (a : Z) (m : Q) :
  0 <= a -> (0 <= m)%Q -> (0 <= Py.of_int a * m)%Q.
Proof.
  intros Ha Hm. apply Qmult_le_0_compat; [| exact Hm].
  unfold Py.of_int, Qle. simpl. lia.
Qed.

(** ** Exact arithmetic against binary64 *)

Lemma forallb_range (P : Z -> bool) (n : nat) :
  forallb P (map Z.of_nat (seq 0 (S n))) = true ->
  forall z, 0 <= z <= Z.of_nat n -> P z = true.
Proof.
  intros H z Hz. rewrite forallb_forall in H. apply H.
  apply in_map_iff. exists (Z.to_nat z). split; [lia |].
  apply in_seq. lia.
Qed.

(** For every level up to 10000 the binary64 threshold is the exact one,
    [150 * level]: both multiplications are exact. *)
Lemma xp_for_next_level_f64_exact level :
  0 <= level <= 10000 ->
  exists q, F64.value (xp_for_next_level_f64 level) = Some q /\
            (q == xp_for_next_level level)%Q /\
            F64.int (xp_for_next_level_f64 level) = Some (Py.int (xp_for_next_level level)).
Proof.
  intros H.
  pose proof (forallb_range
    (fun l => match F64.value (xp_for_next_level_f64 l),
                    F64.int (xp_for_next_level_f64 l) with
              | Some q, Some z =>
                  Qeq_bool q (xp_for_next_level l)
                  && (z =? Py.int (xp_for_next_level l))
              | _, _ => false
              end)
    (Z.to_nat 10000) ltac:(vm_compute; reflexivity) level ltac:(lia)) as Hc.
  cbv beta in Hc.
  destruct (F64.value (xp_for_next_level_f64 level)) as [q |]; [| discriminate].
  destruct (F64.int (xp_for_next_level_f64 level)) as [z |]; [| discriminate].
  apply andb_prop in Hc as [Hq Hz].
  exists q. split; [reflexivity |]. split; [by apply Qeq_bool_eq |].
  apply Z.eqb_eq in Hz. by rewrite Hz.
Qed.

(** For every grant up to 10000 xp (the bound of [/addxp]) at the
    multipliers 1.0 and 1.5, the binary64 computation of the xp gained gives
    the exact one. *)
Lemma xp_gained_f64_exact amount :
  0 <= amount <= 10000 ->
  xp_gained_f64 amount (F64.of_int 1) = Some (Py.int (Py.of_int amount * 1)%Q) /\
  xp_gained_f64 amount F64.one_and_a_half
    = Some (Py.int (Py.of_int amount * (3 # 2))%Q).
Proof.
  intros H.
  pose proof (forallb_range
    (fun a => match xp_gained_f64 a (F64.of_int 1),
                    xp_gained_f64 a F64.one_and_a_half with
              | Some z1, Some z2 =>
                  (z1 =? Py.int (Py.of_int a * 1)%Q)
                  && (z2 =? Py.int (Py.of_int a * (3 # 2))%Q)
              | _, _ => false
              end)
    (Z.to_nat 10000) ltac:(vm_compute; reflexivity) amount ltac:(lia)) as Hc.
  cbv beta in Hc.
  destruct (xp_gained_f64 amount (F64.of_int 1)) as [z1 |]; [| discriminate].
  destruct (xp_gained_f64 amount F64.one_and_a_half) as [z2 |]; [| discriminate].
  apply andb_prop in Hc as [H1 H2].
  apply Z.eqb_eq in H1, H2. by rewrite H1, H2.
Qed.

(** ** The document store *)

Lemma table_get_set_eq {V} k (v : V) t : table_get k (table_set k v t) = Some v.
Proof.
  induction t as [| [k' v'] t IH]; simpl.
  - by rewrite Z.eqb_refl.
  - destruct (Z.eqb_spec k k') as [-> | Hne]; simpl.
    + by rewrite Z.eqb_refl.
    + destruct (Z.eqb_spec k k'); [done | exact IH].
Qed.

Lemma table_get_set_ne {V} k k' (v : V) t :
  k <> k' -> table_get k' (table_set k v t) = table_get k' t.
Proof.
  intros Hne. induction t as [| [k0 v0] t IH]; simpl.
  - destruct (Z.eqb_spec k' k); [congruence | done].
  - destruct (Z.eqb_spec k k0) as [-> | Hk]; simpl.
    + destruct (Z.eqb_spec k' k0); [congruence | done].
    + destruct (Z.eqb_spec k' k0); [done | exact IH].
Qed.

Lemma load_guild_config_spec g fs :
  load_guild_config g fs =
  match fs !! g with
  | Some c => (c, fs)
  | None => (DEFAULT_CONFIG, <[g := DEFAULT_CONFIG]> fs)
  end.
Proof. unfold load_guild_config. destruct (fs !! g); reflexivity. Qed.

(** What [add_user_xp] returns and stores. *)
Lemma add_user_xp_spec g u amount fs :
  let r := default new_record (stored_record fs g u) in
  let gained := Py.int (Py.of_int amount * multiplier_of fs g)%Q in
  let '(l', x', b') :=
    level_up_loop (dict_get r "level" 1) (dict_get r "xp" 0 + gained) false in
  let '(res, fs') := add_user_xp g u amount fs in
  res = {| res_level := l'; res_xp := x';
           res_total_xp := dict_get r "total_xp" 0 + gained;
           res_leveled_up := b' |} /\
  stored_record fs' g u = Some (granted r gained) /\
  stored_table fs' g = table_set u (granted r gained) (stored_table fs g) /\
  stored_leveling fs' g = stored_leveling fs g /\
  (forall g', g' <> g -> fs' !! g' = fs !! g').
Proof.
  unfold add_user_xp, bind, ret, save_guild_config, granted, multiplier_of.
  unfold stored_record, stored_table, stored_leveling.
  rewrite load_guild_config_spec.
  destruct (fs !! g) as [[[ul |] [lv |] lr] |] eqn:Hc; simpl;
    try (destruct (ul !! g) as [t |] eqn:Ht; simpl).
  all: destruct (level_up_loop _ _ false) as [[l' x'] b'] eqn:Hloop; simpl.
  all: rewrite ?lookup_insert_eq; simpl; rewrite ?lookup_insert_eq; simpl.
  all: rewrite ?table_get_set_eq, ?Z.eqb_refl.
  all: repeat split; auto; intros; by rewrite ?lookup_insert_ne.
Qed.

Lemma stored_record_table fs g u :
  stored_record fs g u = table_get u (stored_table fs g).
Proof.
  unfold stored_record, stored_table.
  destruct (fs !! g) as [[[ul |] lv lr] |]; simpl; try done.
  destruct (ul !! g); done.
Qed.

Lemma multiplier_of_leveling fs fs' g :
  stored_leveling fs' g = stored_leveling fs g ->
  multiplier_of fs' g = multiplier_of fs g.
Proof. unfold multiplier_of. by intros ->. Qed.

Ltac use_lookups :=
  repeat match goal with
         | H : _ !! _ = _ |- _ => rewrite H; simpl
         end.

Ltac frame_other g' g :=
  destruct (decide (g' = g)) as [-> | ?];
  [rewrite ?lookup_insert_eq | rewrite ?lookup_insert_ne by done]; simpl;
  use_lookups; rewrite ?lookup_insert_eq, ?lookup_empty; simpl; try done.

(** [get_leveling_config] returns the stored object, or stores and returns
    the default one; user records are not touched. *)
Lemma get_leveling_config_spec g fs :
  let '(lv, fs') := get_leveling_config g fs in
  lv = default default_leveling (stored_leveling fs g) /\
  stored_leveling fs' g = Some lv /\
  (forall g', stored_table fs' g' = stored_table fs g') /\
  (forall g', multiplier_of fs' g' = multiplier_of fs g').
Proof.
  unfold get_leveling_config, bind, ret, save_guild_config, multiplier_of.
  unfold stored_table, stored_leveling.
  rewrite load_guild_config_spec.
  destruct (fs !! g) as [[ul [lv |] lr] |] eqn:Hc; simpl.
  - rewrite Hc. simpl. done.
  - rewrite lookup_insert_eq. simpl.
    repeat split; intros g'; frame_other g' g.
  - rewrite !lookup_insert_eq. simpl.
    repeat split; intros g'; frame_other g' g.
Qed.

(** [get_level_roles] touches neither user records nor the leveling object. *)
Lemma get_level_roles_spec g fs :
  let '(lr, fs') := get_level_roles g fs in
  (forall g', stored_table fs' g' = stored_table fs g') /\
  (forall g', stored_leveling fs' g' = stored_leveling fs g').
Proof.
  unfold get_level_roles, bind, ret, save_guild_config.
  unfold stored_table, stored_leveling.
  rewrite load_guild_config_spec.
  destruct (fs !! g) as [[ul lv [lr |]] |] eqn:Hc; simpl.
  - done.
  - split; intros g'; frame_other g' g.
  - split; intros g'; frame_other g' g.
Qed.

(** [get_user_level_data] returns the stored record or the default one, and
    leaves every stored record as it is. *)
Lemma get_user_level_data_spec g u fs :
  let '(r, fs') := get_user_level_data g u fs in
  r = default new_record (stored_record fs g u) /\
  (forall g', stored_table fs' g' = stored_table fs g') /\
  (forall g', stored_leveling fs' g' = stored_leveling fs g').
Proof.
  unfold get_user_level_data, bind, ret, save_guild_config.
  unfold stored_record, stored_table, stored_leveling.
  rewrite load_guild_config_spec.
  destruct (fs !! g) as [[[ul |] lv lr] |] eqn:Hc; simpl;
    try (destruct (ul !! g) as [t |] eqn:Ht; simpl).
  all: rewrite ?lookup_empty; simpl; rewrite ?lookup_insert_eq; simpl; rewrite ?Ht; simpl.
  all: split; [done |].
  all: split; intros g'; frame_other g' g.
Qed.

Lemma get_level_leaderboard_spec g fs :
  get_level_leaderboard g fs =
  (sort_by_total_xp (stored_table fs g),
   match fs !! g with Some _ => fs | None => <[g := DEFAULT_CONFIG]> fs end).
Proof.
  unfold get_level_leaderboard, bind, ret, stored_table.
  rewrite load_guild_config_spec.
  destruct (fs !! g) as [[[ul |] lv lr] |] eqn:Hc; simpl; try done.
  destruct (ul !! g); done.
Qed.

Lemma record_of_stored fs g u :
  record_of fs g u = default new_record (stored_record fs g u).
Proof.
  unfold record_of. pose proof (get_user_level_data_spec g u fs) as H.
  destruct (get_user_level_data g u fs) as [r fs']. simpl. tauto.
Qed.

Lemma granted_fields r gained :
  let '(l', x', _) :=
    level_up_loop (dict_get r "level" 1) (dict_get r "xp" 0 + gained) false in
  dict_get (granted r gained) "level" 1 = l' /\
  dict_get (granted r gained) "xp" 0 = x' /\
  dict_get (granted r gained) "total_xp" 0 = dict_get r "total_xp" 0 + gained.
Proof.
  unfold granted.
  destruct (level_up_loop _ _ false) as [[l' x'] b'].
  unfold dict_get. by simplify_map_eq.
Qed.

(** The record read back after a grant. *)
Lemma record_of_add_user_xp g u amount fs :
  record_of (snd (add_user_xp g u amount fs)) g u =
  granted (record_of fs g u)
          (Py.int (Py.of_int amount * multiplier_of fs g)%Q).
Proof.
  rewrite !record_of_stored.
  pose proof (add_user_xp_spec g u amount fs) as H. simpl in H.
  destruct (level_up_loop _ _ false) as [[l' x'] b'].
  destruct (add_user_xp g u amount fs) as [res fs']. simpl.
  destruct H as (_ & -> & _). reflexivity.
Qed.



(** ** C1: the xp of a stored record stays below the threshold *)



(** ** C2: the three reference grants to a fresh user *)

Lemma int_neg (q : Q) : (q <= 0)%Q -> Py.int q = - Qfloor (- q).
Proof.
  intros H. rewrite <- int_floor.
  - unfold Py.int. destruct q as [n d]. simpl.
    rewrite Z.quot_opp_l by discriminate. rewrite Z.opp_involutive. reflexivity.
  - lra.
Qed.

(** [int] does not depend on the representation of the number. *)
Lemma int_Qeq (p q : Q) : (p == q)%Q -> Py.int p = Py.int q.
Proof.
  intros H. destruct (Qlt_le_dec p 0) as [Hp | Hp].
  - rewrite !int_neg by lra. by rewrite H.
  - rewrite !int_floor by lra. by rewrite H.
Qed.

Lemma int_of_int (z : Z) : Py.int (Py.of_int z) = z.
Proof. unfold Py.int, Py.of_int. simpl. apply Z.quot_1_r. Qed.

(** The result of a grant to a user without a stored record, under a
    multiplier equal to 1.0. *)
Lemma add_user_xp_fresh fs g u amount :
  stored_record fs g u = None ->
  (multiplier_of fs g == 1)%Q ->
  fst (add_user_xp g u amount fs) =
  let '(l', x', b') := level_up_loop 1 amount false in
  {| res_level := l'; res_xp := x'; res_total_xp := amount; res_leveled_up := b' |}.
Proof.
  intros Hrec Hm.
  pose proof (add_user_xp_spec g u amount fs) as H. simpl in H.
  rewrite Hrec in H. simpl in H.
  assert (Py.int (Py.of_int amount * multiplier_of fs g)%Q = amount) as Hg.
  { rewrite <- (int_of_int amount) at 2. apply int_Qeq. rewrite Hm. ring. }
  rewrite Hg in H.
  change (dict_get new_record "level" 1) with 1 in H.
  change (dict_get new_record "xp" 0 + amount) with amount in H.
  change (dict_get new_record "total_xp" 0 + amount) with amount in H.
  destruct (level_up_loop 1 amount false) as [[l' x'] b'].
  destruct (add_user_xp g u amount fs) as [res fs']. simpl. tauto.
Qed.

(** C2.  For a fresh user (no stored record, hence level 1, xp 0, total_xp 0)
    in a guild whose multiplier is 1.0, one call of [add_user_xp] with 149
    yields level 1, xp 149, not leveled up; with 150 yields level 2, xp 0,
    leveled up; with 450 yields level 3, xp 0, leveled up: the loop crosses
    two levels in one call, with the threshold of the new level each time. *)
Theorem add_user_xp_fresh_grants fs g u :
  stored_record fs g u = None ->
  (multiplier_of fs g == 1)%Q ->
  fst (add_user_xp g u 149 fs) =
    {| res_level := 1; res_xp := 149; res_total_xp := 149;
       res_leveled_up := false |} /\
  fst (add_user_xp g u 150 fs) =
    {| res_level := 2; res_xp := 0; res_total_xp := 150;
       res_leveled_up := true |} /\
  fst (add_user_xp g u 450 fs) =
    {| res_level := 3; res_xp := 0; res_total_xp := 450;
       res_leveled_up := true |}.
Proof.
  intros Hrec Hm.
  rewrite !add_user_xp_fresh by assumption.
  split; [| split].
  - rewrite level_up_loop_Z. reflexivity.
  - do 2 (rewrite level_up_loop_Z; simpl). reflexivity.
  - do 3 (rewrite level_up_loop_Z; simpl). reflexivity.
Qed.

Lemma add_user_xp_fresh_grants_witness :
  fst (add_user_xp 1 7 149 ∅) =
    {| res_level := 1; res_xp := 149; res_total_xp := 149;
       res_leveled_up := false |} /\
  fst (add_user_xp 1 7 150 ∅) =
    {| res_level := 2; res_xp := 0; res_total_xp := 150;
       res_leveled_up := true |} /\
  fst (add_user_xp 1 7 450 ∅) =
    {| res_level := 3; res_xp := 0; res_total_xp := 450;
       res_leveled_up := true |}.
Proof.
  apply (add_user_xp_fresh_grants ∅ 1 7); reflexivity.
Defined.

(** ** C6: the multiplier is applied with one truncation per grant *)

Lemma gained_floor amount (m : Q) :
  0 <= amount -> (0 <= m)%Q ->
  Py.int (Py.of_int amount * m)%Q = Qfloor (inject_Z amount * m)%Q.
Proof. intros Ha Hm. apply int_floor, product_nonneg; assumption. Qed.

Lemma total_xp_of_add_user_xp g u amount fs :
  total_xp_of (snd (add_user_xp g u amount fs)) g u =
  total_xp_of fs g u + Py.int (Py.of_int amount * multiplier_of fs g)%Q.
Proof.
  unfold total_xp_of. rewrite record_of_add_user_xp.
  pose proof (granted_fields (record_of fs g u)
                (Py.int (Py.of_int amount * multiplier_of fs g)%Q)) as G.
  destruct (level_up_loop _ _ false) as [[l' x'] b']. tauto.
Qed.



(** ** C4: total_xp accumulates the grants *)

Lemma gained_sum_cons m a amounts :
  gained_sum m (a :: amounts) = Qfloor (inject_Z a * m)%Q + gained_sum m amounts.
Proof. reflexivity. Qed.


Lemma gained_sum_app m l1 l2 :
  gained_sum m (l1 ++ l2) = gained_sum m l1 + gained_sum m l2.
Proof.
  induction l1 as [| a l1 IH]; [done |].
  rewrite <- app_comm_cons, !gained_sum_cons. lia.
Qed.




(** ** C8: the leaderboard *)

Lemma sort_insert_perm x l : sort_insert x l ≡ₚ x :: l.
Proof.
  induction l as [| y l IH]; simpl; [done |].
  destruct (sort_key y <=? sort_key x); [done |].
  rewrite IH. apply Permutation_swap.
Qed.

Lemma sort_insert_sorted x l :
  StronglySorted desc l -> StronglySorted desc (sort_insert x l).
Proof.
  induction 1 as [| y l Hs IH Hall]; simpl.
  - repeat constructor.
  - destruct (Z.leb_spec (sort_key y) (sort_key x)) as [Hle | Hgt].
    + constructor; [by constructor |].
      constructor; [exact Hle |].
      eapply Forall_impl; [exact Hall |]. unfold desc. intros; simpl in *; lia.
    + constructor; [exact IH |].
      rewrite sort_insert_perm. constructor; [unfold desc; lia | exact Hall].
Qed.

Lemma sort_insert_with_key k x l :
  with_key k (sort_insert x l) = with_key k (x :: l).
Proof.
  unfold with_key. induction l as [| y l IH]; simpl; [done |].
  destruct (Z.leb_spec (sort_key y) (sort_key x)) as [Hle | Hgt]; [done |].
  simpl in *. rewrite IH.
  destruct (Z.eqb_spec (sort_key x) k), (Z.eqb_spec (sort_key y) k); try done.
  lia.
Qed.

Lemma sort_by_total_xp_perm l : sort_by_total_xp l ≡ₚ l.
Proof.
  induction l as [| x l IH]; simpl; [done |].
  by rewrite sort_insert_perm, IH.
Qed.

Lemma sort_by_total_xp_sorted l : StronglySorted desc (sort_by_total_xp l).
Proof.
  induction l as [| x l IH]; simpl; [constructor |].
  by apply sort_insert_sorted.
Qed.

Lemma sort_by_total_xp_stable k l :
  with_key k (sort_by_total_xp l) = with_key k l.
Proof.
  induction l as [| x l IH]; simpl; [done |].
  rewrite sort_insert_with_key. unfold with_key in *. simpl. by rewrite IH.
Qed.

Lemma with_key_elem k x l : x ∈ with_key k l <-> x ∈ l /\ sort_key x = k.
Proof.
  unfold with_key. rewrite !list_elem_of_In, filter_In, Z.eqb_eq. done.
Qed.

(** Descending order and stability determine the sorted list: whatever
    stable algorithm [list.sort] runs, its result is the one modelled. *)
Lemma stable_sort_unique l1 : forall l2,
  StronglySorted desc l1 -> StronglySorted desc l2 ->
  (forall k, with_key k l1 = with_key k l2) ->
  l1 = l2.
Proof.
  induction l1 as [| x l1 IH]; intros l2 H1 H2 Hk.
  - destruct l2 as [| y l2]; [done |].
    specialize (Hk (sort_key y)). unfold with_key in Hk. simpl in Hk.
    by rewrite Z.eqb_refl in Hk.
  - destruct l2 as [| y l2].
    { specialize (Hk (sort_key x)). unfold with_key in Hk. simpl in Hk.
      by rewrite Z.eqb_refl in Hk. }
    apply StronglySorted_inv in H1 as [H1 Hx].
    apply StronglySorted_inv in H2 as [H2 Hy].
    rewrite Forall_forall in Hx, Hy.
    assert (Hxy : sort_key x <= sort_key y).
    { assert (x ∈ with_key (sort_key x) (y :: l2)) as Hin.
      { rewrite <- Hk. apply with_key_elem. split; [left | done]. }
      apply with_key_elem in Hin as [Hin _].
      apply elem_of_cons in Hin as [-> | Hin]; [lia |].
      exact (Hy _ Hin). }
    assert (Hyx : sort_key y <= sort_key x).
    { assert (y ∈ with_key (sort_key y) (x :: l1)) as Hin.
      { rewrite Hk. apply with_key_elem. split; [left | done]. }
      apply with_key_elem in Hin as [Hin _].
      apply elem_of_cons in Hin as [-> | Hin]; [lia |].
      exact (Hx _ Hin). }
    assert (x = y) as ->.
    { specialize (Hk (sort_key x)). unfold with_key in Hk. simpl in Hk.
      rewrite Z.eqb_refl in Hk.
      replace (sort_key y =? sort_key x) with true in Hk
        by (symmetry; apply Z.eqb_eq; lia).
      congruence. }
    f_equal. apply IH; [done | done |].
    intros k. specialize (Hk k). unfold with_key in *. simpl in Hk.
    destruct (sort_key y =? k); congruence.
Qed.

(** The position found by the loop of [rank_command] is the 1-based index of
    the first entry of the user; there is none exactly when the user has no
    entry. *)
Lemma user_position_from_spec target lb : forall i,
  match user_position_from i target lb with
  | Some p =>
      exists (n : nat) r,
        p = i + Z.of_nat n + 1 /\
        lb !! n = Some (target, r) /\
        forall (j : nat) e, (j < n)%nat -> lb !! j = Some e -> fst e <> target
  | None => forall e, e ∈ lb -> fst e <> target
  end.
Proof.
  induction lb as [| [u r] lb IH]; intros i; simpl.
  - intros e He. by apply elem_of_nil in He.
  - destruct (Z.eqb_spec u target) as [-> | Hne].
    + exists 0%nat, r. split; [lia |]. split; [done |]. intros j e Hj. lia.
    + specialize (IH (i + 1)).
      destruct (user_position_from (i + 1) target lb) as [p |].
      * destruct IH as (n & r' & -> & Hn & Hfirst).
        exists (S n), r'. split; [lia |]. split; [done |].
        intros [| j] e Hj He; simpl in He.
        -- by inversion He; subst.
        -- apply (Hfirst j); [lia | done].
      * intros e He. apply elem_of_cons in He as [-> | He]; [done |].
        by apply IH.
Qed.

(** C8.  For every guild, [get_level_leaderboard] returns the stored user
    records rearranged in descending order of total_xp, entries of equal
    total_xp in the insertion order of the stored table; three users with
    total_xp 500, 1500 and 1000 come out in the order 1500, 1000, 500; and
    the rank found over the leaderboard is the 1-based index of the first
    entry of the user. *)
Theorem leaderboard_sorted_stable fs g :
  let lb := fst (get_level_leaderboard g fs) in
  let t := stored_table fs g in
  lb ≡ₚ t /\
  StronglySorted desc lb /\
  (forall k, with_key k lb = with_key k t) /\
  (forall e1 e2 e3,
     t = [e1; e2; e3] ->
     sort_key e1 = 500 -> sort_key e2 = 1500 -> sort_key e3 = 1000 ->
     lb = [e2; e3; e1]) /\
  (forall target p,
     user_position_from 0 target lb = Some p ->
     exists (n : nat) r,
       p = Z.of_nat n + 1 /\ lb !! n = Some (target, r) /\
       forall (j : nat) e, (j < n)%nat -> lb !! j = Some e -> fst e <> target).
Proof.
  rewrite get_level_leaderboard_spec. simpl.
  split; [apply sort_by_total_xp_perm |].
  split; [apply sort_by_total_xp_sorted |].
  split; [intros k; apply sort_by_total_xp_stable |].
  split.
  - intros e1 e2 e3 -> H1 H2 H3.
    unfold sort_by_total_xp. cbn [foldr sort_insert].
    rewrite H2, H3. change (1000 <=? 1500) with true.
    cbn [sort_insert]. rewrite H1, H2, H3. reflexivity.
  - intros target p Hp.
    pose proof (user_position_from_spec target
                  (sort_by_total_xp (stored_table fs g)) 0) as H.
    rewrite Hp in H. destruct H as (n & r & -> & Hn & Hfirst).
    exists n, r. split; [lia | done].
Qed.

(** The leaderboard of a guild with three users of total_xp 500, 1500 and
    1000, and the ranks of the three users. *)
Lemma leaderboard_sorted_stable_witness :
  let rec_ (x : Z) : gmap string Z := {[ "level" := 1; "xp" := 0; "total_xp" := x ]} in
  let fs : gmap Z config_data :=
    {[ 1 := {| user_levels :=
                 Some {[ 1 := [(11, rec_ 500); (12, rec_ 1500); (13, rec_ 1000)] ]};
               leveling := None; level_roles := None |} ]} in
  let lb := fst (get_level_leaderboard 1 fs) in
  lb = [(12, rec_ 1500); (13, rec_ 1000); (11, rec_ 500)] /\
  user_position_from 0 11 lb = Some 3 /\
  user_position_from 0 12 lb = Some 1.
Proof.
  intros rec_ fs lb.
  destruct (leaderboard_sorted_stable fs 1) as (_ & _ & _ & Hex & _).
  split; [| split].
  - apply Hex; reflexivity.
  - reflexivity.
  - reflexivity.
Defined.

(** ** The message handler *)

Lemma record_of_table fs fs' g u :
  stored_table fs' g = stored_table fs g -> record_of fs' g u = record_of fs g u.
Proof. intros H. by rewrite !record_of_stored, !stored_record_table, H. Qed.

Lemma get_level_roles_result g fs :
  fst (get_level_roles g fs) = stored_level_roles fs g.
Proof.
  unfold get_level_roles, bind, ret, save_guild_config, stored_level_roles.
  rewrite load_guild_config_spec.
  destruct (fs !! g) as [[ul lv [lr |]] |]; done.
Qed.



(** A message off cooldown in a guild where leveling is enabled: the
    cooldown entry is written and the xp is granted. *)
Lemma on_message_award m gv t rnd st :
  guild m = Some gv ->
  qualifying m (guild_id gv) (author_id m) ->
  on_cooldown (cooldowns st) (guild_id gv, author_id m) t = false ->
  leveling_enabled (files st) (guild_id gv) = true ->
  on_message m t rnd st =
  let g := guild_id gv in
  let '(lv, fs1) := get_leveling_config g (files st) in
  let '(lr, fs2) := get_level_roles g fs1 in
  let '(res, fs3) := add_user_xp g (author_id m) (xp_per_message + rnd) fs2 in
  ({| files := fs3; cooldowns := <[(g, author_id m) := t]> (cooldowns st) |},
   if res_leveled_up res
   then level_up_effects m gv lv lr (res_level res) else []).
Proof.
  intros Hg (_ & Hbot & _ & Hlen) Hcd Hen.
  unfold on_message. rewrite Hg, Hbot, Hcd.
  destruct (Z.ltb_spec (Z.of_nat (String.length (content m))) 5); [lia |].
  pose proof (get_leveling_config_spec (guild_id gv) (files st)) as Hspec.
  cbv zeta.
  destruct (get_leveling_config (guild_id gv) (files st)) as [lv fs1].
  destruct Hspec as (-> & _). fold (leveling_enabled (files st) (guild_id gv)).
  rewrite Hen. simpl. reflexivity.
Qed.

(** The documents after an awarded message, seen through the stored data. *)
Lemma on_message_award_files m gv t rnd st :
  guild m = Some gv ->
  qualifying m (guild_id gv) (author_id m) ->
  on_cooldown (cooldowns st) (guild_id gv, author_id m) t = false ->
  leveling_enabled (files st) (guild_id gv) = true ->
  let g := guild_id gv in
  let u := author_id m in
  let st' := fst (on_message m t rnd st) in
  let gained := Py.int (Py.of_int (xp_per_message + rnd) * multiplier_of (files st) g)%Q in
  cooldowns st' = <[(g, u) := t]> (cooldowns st) /\
  record_of (files st') g u = granted (record_of (files st) g u) gained /\
  multiplier_of (files st') g = multiplier_of (files st) g /\
  leveling_enabled (files st') g = true.
Proof.
  intros Hg Hq Hcd Hen. cbv zeta.
  rewrite (on_message_award m gv t rnd st Hg Hq Hcd Hen). cbv zeta.
  pose proof (get_leveling_config_spec (guild_id gv) (files st)) as H1.
  destruct (get_leveling_config (guild_id gv) (files st)) as [lv fs1].
  destruct H1 as (Hlv & Hlv1 & Ht1 & Hm1).
  pose proof (get_level_roles_spec (guild_id gv) fs1) as H2.
  destruct (get_level_roles (guild_id gv) fs1) as [lr fs2].
  destruct H2 as (Ht2 & Hl2).
  pose proof (record_of_add_user_xp (guild_id gv) (author_id m)
                (xp_per_message + rnd) fs2) as Hrec.
  pose proof (add_user_xp_spec (guild_id gv) (author_id m)
                (xp_per_message + rnd) fs2) as H3. simpl in H3.
  destruct (level_up_loop _ _ false) as [[l' x'] b'].
  destruct (add_user_xp _ _ _ fs2) as [res fs3]. simpl in *.
  destruct H3 as (_ & _ & _ & Hl3 & _).
  assert (multiplier_of fs2 (guild_id gv) = multiplier_of (files st) (guild_id gv))
    as Hm2 by (rewrite <- Hm1; apply multiplier_of_leveling, Hl2).
  split; [done |]. split; [| split].
  - rewrite Hrec, Hm2. f_equal. apply record_of_table. by rewrite Ht2, Ht1.
  - rewrite <- Hm2. apply multiplier_of_leveling, Hl3.
  - unfold leveling_enabled in *. rewrite Hl3, Hl2, Hlv1. simpl.
    by rewrite Hlv.
Qed.



Lemma lt_false_iff (a b : Q) : Py.lt a b = false <-> (b <= a)%Q.
Proof. unfold Py.lt. by rewrite negb_false_iff, Qle_bool_iff. Qed.


(** ** C5: the cooldown *)


Lemma demo_message_qualifying : qualifying demo_message 1 7.
Proof.
  split; [| split; [| split]]; try reflexivity.
  eexists; split; reflexivity.
Defined.


(** ** C7: the enabled flag gates messages, not [/addxp] *)

(** With leveling disabled no message of the guild changes a user record. *)
Lemma on_message_disabled_any m gv t rnd st :
  guild m = Some gv ->
  leveling_enabled (files st) (guild_id gv) = false ->
  let '(st', acts) := on_message m t rnd st in
  (forall g', stored_table (files st') g' = stored_table (files st) g') /\
  acts = [].
Proof.
  intros Hg Hen. unfold on_message. rewrite Hg.
  destruct (author_bot m); [done |].
  destruct (_ <? 5); [done |].
  destruct (on_cooldown _ _ _); [done |].
  pose proof (get_leveling_config_spec (guild_id gv) (files st)) as Hspec.
  destruct (get_leveling_config (guild_id gv) (files st)) as [lv fs1].
  destruct Hspec as (-> & _ & Ht & _).
  fold (leveling_enabled (files st) (guild_id gv)). rewrite Hen. simpl.
  split; [exact Ht | done].
Qed.

(** C7.  When the leveling object of a guild has [enabled == false], a
    message of that guild leaves every user's level record (level, xp,
    total_xp) as it was, while [/addxp] with a valid amount
    ([0 < amount <= 10000]) makes the grant: the flag is not consulted. *)
Theorem disabled_gates_messages_only m gv t rnd st u amount :
  guild m = Some gv ->
  leveling_enabled (files st) (guild_id gv) = false ->
  0 < amount <= 10000 ->
  let g := guild_id gv in
  let st' := fst (on_message m t rnd st) in
  (forall u', record_of (files st') g u' = record_of (files st) g u') /\
  snd (on_message m t rnd st) = [] /\
  add_xp_command g u amount (files st) =
    (Some (fst (add_user_xp g u amount (files st))),
     snd (add_user_xp g u amount (files st))) /\
  record_of (snd (add_xp_command g u amount (files st))) g u =
    granted (record_of (files st) g u)
            (Py.int (Py.of_int amount * multiplier_of (files st) g)%Q) /\
  total_xp_of (snd (add_xp_command g u amount (files st))) g u =
    total_xp_of (files st) g u
    + Py.int (Py.of_int amount * multiplier_of (files st) g)%Q.
Proof.
  intros Hg Hen [Hlo Hhi]. cbv zeta.
  pose proof (on_message_disabled_any m gv t rnd st Hg Hen) as H.
  destruct (on_message m t rnd st) as [st' acts]. simpl.
  destruct H as [Ht ->].
  split; [intros u'; apply record_of_table, Ht |].
  split; [done |].
  assert (Hcmd : add_xp_command (guild_id gv) u amount (files st) =
                 (Some (fst (add_user_xp (guild_id gv) u amount (files st))),
                  snd (add_user_xp (guild_id gv) u amount (files st)))).
  { unfold add_xp_command, bind, ret.
    destruct (Z.leb_spec amount 0); [lia |].
    destruct (Z.ltb_spec 10000 amount); [lia |].
    by destruct (add_user_xp _ _ _ _). }
  rewrite Hcmd. simpl.
  split; [done |]. split.
  - apply record_of_add_user_xp.
  - apply total_xp_of_add_user_xp.
Qed.

Lemma disabled_gates_messages_only_witness :
  let st := {| files := ∅; cooldowns := ∅ |} in
  let st' := fst (on_message demo_message 0 3 st) in
  (forall u', record_of (files st') 1 u' = record_of (files st) 1 u') /\
  snd (on_message demo_message 0 3 st) = [] /\
  total_xp_of (snd (add_xp_command 1 7 200 (files st))) 1 7 = 200.
Proof.
  intros st.
  destruct (disabled_gates_messages_only demo_message
              {| guild_id := 1; guild_roles := [99]; guild_channels := [] |}
              0 3 st 7 200 eq_refl eq_refl ltac:(lia))
    as (H1 & H2 & _ & _ & H3).
  split; [exact H1 |]. split; [exact H2 | exact H3].
Defined.

(** ** C10: the cooldown is recorded before the enabled flag is read *)



(** ** C3: role rewards on level-up *)

Lemma get_leveling_config_level_roles g fs g' :
  stored_level_roles (snd (get_leveling_config g fs)) g' = stored_level_roles fs g'.
Proof.
  unfold get_leveling_config, bind, ret, save_guild_config, stored_level_roles.
  rewrite load_guild_config_spec.
  destruct (fs !! g) as [[ul [lv |] lr] |] eqn:Hc; simpl; try done.
  - frame_other g' g.
  - frame_other g' g.
Qed.

(** The calls made to the platform by an awarded message. *)
Lemma on_message_award_actions m gv t rnd st :
  guild m = Some gv ->
  qualifying m (guild_id gv) (author_id m) ->
  on_cooldown (cooldowns st) (guild_id gv, author_id m) t = false ->
  leveling_enabled (files st) (guild_id gv) = true ->
  let g := guild_id gv in
  let r := record_of (files st) g (author_id m) in
  let gained := Py.int (Py.of_int (xp_per_message + rnd) * multiplier_of (files st) g)%Q in
  let '(l', _, b') :=
    level_up_loop (dict_get r "level" 1) (dict_get r "xp" 0 + gained) false in
  snd (on_message m t rnd st) =
  if b'
  then level_up_effects m gv (default default_leveling (stored_leveling (files st) g))
                        (stored_level_roles (files st) g) l'
  else [].
Proof.
  intros Hg Hq Hcd Hen. cbv zeta.
  rewrite (on_message_award m gv t rnd st Hg Hq Hcd Hen). cbv zeta.
  pose proof (get_leveling_config_spec (guild_id gv) (files st)) as H1.
  pose proof (get_leveling_config_level_roles (guild_id gv) (files st) (guild_id gv)) as Hr1.
  destruct (get_leveling_config (guild_id gv) (files st)) as [lv fs1].
  destruct H1 as (Hlv & Hlv1 & Ht1 & Hm1). simpl in Hr1.
  pose proof (get_level_roles_spec (guild_id gv) fs1) as H2.
  pose proof (get_level_roles_result (guild_id gv) fs1) as Hr2.
  destruct (get_level_roles (guild_id gv) fs1) as [lr fs2].
  destruct H2 as (Ht2 & Hl2). simpl in Hr2.
  pose proof (add_user_xp_spec (guild_id gv) (author_id m)
                (xp_per_message + rnd) fs2) as H3. simpl in H3.
  rewrite <- record_of_stored in H3.
  rewrite (record_of_table (files st) fs2) in H3 by (by rewrite Ht2, Ht1).
  assert (multiplier_of fs2 (guild_id gv) = multiplier_of (files st) (guild_id gv))
    as Hm2 by (rewrite <- Hm1; apply multiplier_of_leveling, Hl2).
  rewrite Hm2 in H3.
  destruct (level_up_loop _ _ false) as [[l' x'] b'].
  destruct (add_user_xp _ _ _ fs2) as [res fs3]. simpl.
  destruct H3 as (-> & _). simpl. by rewrite Hr2, Hr1, Hlv.
Qed.

Lemma level_up_effects_add_role m gv lv lr new_level role :
  AddRole (author_id m) role ∈ level_up_effects m gv lv lr new_level <->
  lr !! new_level = Some role /\ role ∈ guild_roles gv /\ role ∉ author_roles m.
Proof.
  unfold level_up_effects.
  rewrite elem_of_cons.
  destruct (lr !! new_level) as [role_id |].
  - destruct (bool_decide (role_id ∈ guild_roles gv)) eqn:Hin;
      destruct (bool_decide (role_id ∈ author_roles m)) eqn:Hhas; simpl.
    + apply bool_decide_eq_true in Hin, Hhas. rewrite elem_of_nil.
      split; [intros [? | []]; done | intros ([= <-] & _ & Hn); done].
    + apply bool_decide_eq_true in Hin. apply bool_decide_eq_false in Hhas.
      rewrite !elem_of_cons, elem_of_nil. split.
      * intros [? | [[= <-] | [? | []]]]; done.
      * intros ([= <-] & _). right. by left.
    + apply bool_decide_eq_false in Hin. rewrite elem_of_nil.
      split; [intros [? | []]; done | intros ([= <-] & Hy & _); done].
    + apply bool_decide_eq_false in Hin. rewrite elem_of_nil.
      split; [intros [? | []]; done | intros ([= <-] & Hy & _); done].
  - rewrite elem_of_nil. split; [intros [? | []]; done | intros (? & _); done].
Qed.

(** A message worth [(15 + 8) * 20 = 460] xp takes a fresh user from level 1
    to level 3; the role configured for level 2 is not granted. *)
Lemma intermediate_level_reward_skipped : ~ rewards_every_level_gained.
Proof.
  intros H.
  specialize (H demo_message
                {| guild_id := 1; guild_roles := [99]; guild_channels := [] |}
                0%Q 8 {| files := jump_files; cooldowns := ∅ |}
                eq_refl demo_message_qualifying eq_refl eq_refl).
  specialize (H 2 99). simpl in H.
  assert (Hin : AddRole 7 99 ∈ snd (on_message demo_message 0 8
                                      {| files := jump_files; cooldowns := ∅ |})).
  { apply H.
    - vm_compute. split; [reflexivity | discriminate].
    - reflexivity.
    - set_solver.
    - set_solver. }
  vm_compute in Hin.
  apply elem_of_cons in Hin as [Hin | Hin]; [discriminate |].
  by apply elem_of_nil in Hin.
Qed.

(** What the handler does on that message: one announcement, for level 3. *)
Example jump_message_actions :
  let '(st', acts) :=
    on_message demo_message 0 8 {| files := jump_files; cooldowns := ∅ |} in
  dict_get (record_of (files st') 1 7) "level" 1 = 3 /\
  dict_get (record_of (files st') 1 7) "xp" 0 = 10 /\
  acts = [SendLevelUp 5 7 3].
Proof. vm_compute. repeat split. Qed.

(** C3, as the handler implements it.  When an awarded message makes its
    author level up, the handler evaluates the role reward of the level
    reached, the one [add_user_xp] returns, and of no other level: a role is
    granted exactly when the level changed, the role is configured for the
    new level, it exists in the guild and the author does not hold it. *)
Theorem role_reward_final_level_only m gv t rnd st :
  guild m = Some gv ->
  qualifying m (guild_id gv) (author_id m) ->
  on_cooldown (cooldowns st) (guild_id gv, author_id m) t = false ->
  leveling_enabled (files st) (guild_id gv) = true ->
  let g := guild_id gv in
  let u := author_id m in
  let old_level := dict_get (record_of (files st) g u) "level" 1 in
  let new_level := dict_get (record_of (files (fst (on_message m t rnd st))) g u) "level" 1 in
  forall role,
    AddRole u role ∈ snd (on_message m t rnd st) <->
    old_level < new_level /\
    stored_level_roles (files st) g !! new_level = Some role /\
    role ∈ guild_roles gv /\
    role ∉ author_roles m.
Proof.
  intros Hg Hq Hcd Hen. cbv zeta. intros role.
  destruct (on_message_award_files m gv t rnd st Hg Hq Hcd Hen) as (_ & Hrec & _).
  pose proof (on_message_award_actions m gv t rnd st Hg Hq Hcd Hen) as Hacts.
  cbv zeta in Hacts. rewrite Hrec.
  set (r := record_of (files st) (guild_id gv) (author_id m)) in *.
  set (gained := Py.int _) in *.
  pose proof (granted_fields r gained) as G.
  pose proof (level_up_loop_flag (dict_get r "level" 1) (dict_get r "xp" 0 + gained)) as F.
  pose proof (level_up_loop_account (dict_get r "level" 1)
                (dict_get r "xp" 0 + gained) false) as A.
  destruct (level_up_loop _ _ false) as [[l' x'] b'].
  destruct G as (-> & _). destruct A as [_ Hle]. rewrite Hacts. subst b'.
  destruct (Z.eqb_spec l' (dict_get r "level" 1)) as [Heq | Hne]; simpl.
  - rewrite elem_of_nil. split; [done | lia].
  - rewrite level_up_effects_add_role. split; [intros ? | tauto].
    split; [lia | done].
Qed.

Lemma role_reward_final_level_only_witness :
  let st := {| files := snd (set_level_role 1 3 99 jump_files); cooldowns := ∅ |} in
  AddRole 7 99 ∈ snd (on_message demo_message 0 8 st) /\
  ~ AddRole 7 99 ∈ snd (on_message demo_message 0 8
                          {| files := jump_files; cooldowns := ∅ |}).
Proof.
  intros st. split.
  - apply (role_reward_final_level_only demo_message
             {| guild_id := 1; guild_roles := [99]; guild_channels := [] |}
             0%Q 8 st eq_refl demo_message_qualifying eq_refl eq_refl 99).
    split; [reflexivity |]. split; [reflexivity |]. split; set_solver.
  - intros Hin.
    set (st0 := {| files := jump_files; cooldowns := ∅ |}) in *.
    assert (Hcd : on_cooldown (cooldowns st0) (1, 7) 0 = false) by reflexivity.
    assert (Hen : leveling_enabled (files st0) 1 = true) by reflexivity.
    destruct (role_reward_final_level_only demo_message
                {| guild_id := 1; guild_roles := [99]; guild_channels := [] |}
                0%Q 8 st0 eq_refl demo_message_qualifying Hcd Hen 99) as [Hto _].
    destruct (Hto Hin) as (_ & Hrole & _). discriminate Hrole.
Defined.

(** Under the multiplier range [/levelconfig] stores (at most 5.0), a message
    grant is at most [int(25 * 5.0) = 125] xp, less than any threshold: a
    record with [xp < required(level)] gains at most one level per message. *)
Lemma message_grant_one_level (m : Q) level xp rnd :
  (0 <= m <= 5)%Q -> 0 <= rnd <= random_xp_range ->
  1 <= level -> 0 <= xp < 150 * level ->
  let gained := Py.int (Py.of_int (xp_per_message + rnd) * m)%Q in
  let '(l', _, _) := level_up_loop level (xp + gained) false in
  l' <= level + 1.
Proof.
  intros [Hm0 Hm5] Hrnd Hl Hx. cbv zeta.
  unfold xp_per_message, random_xp_range in *.
  set (gained := Py.int _).
  assert (0 <= gained <= 125) as Hg.
  { unfold gained. split.
    { apply int_nonneg, product_nonneg; [lia | done]. }
    rewrite gained_floor by (lia || done).
    replace 125 with (Qfloor (inject_Z 125)) by apply Qfloor_Z.
    apply Qfloor_resp_le.
    assert (inject_Z (15 + rnd) <= inject_Z 25)%Q as H25
      by (rewrite <- Zle_Qle; lia).
    assert (0 <= inject_Z (15 + rnd))%Q as H0
      by (change 0%Q with (inject_Z 0); rewrite <- Zle_Qle; lia).
    change (inject_Z 125) with (inject_Z 25 * 5)%Q.
    apply Qmult_le_compat_nonneg; split; assumption. }
  rewrite level_up_loop_Z.
  destruct (Z.leb_spec (150 * level) (xp + gained)); [| lia].
  rewrite level_up_loop_Z.
  destruct (Z.leb_spec (150 * (level + 1)) (xp + gained - 150 * level)); lia.
Qed.

(** The multiplier [/levelconfig] stores lies between 0.1 and 5.0. *)
Lemma clamp_multiplier_range (x : Q) : (1 # 10 <= clamp_multiplier x <= 5)%Q.
Proof.
  unfold clamp_multiplier.
  destruct (Py.lt x (1 # 10)) eqn:Hlo; [lra |].
  apply lt_false_iff in Hlo.
  destruct (Py.lt 5 x) eqn:Hhi; [lra |].
  apply lt_false_iff in Hhi. lra.
Qed.

(** ** C9: [get_user_level_data] never returns an empty record *)

Lemma granted_complete r gained :
  is_Some (granted r gained !! "level") /\
  is_Some (granted r gained !! "xp") /\
  is_Some (granted r gained !! "total_xp").
Proof.
  unfold granted. destruct (level_up_loop _ _ false) as [[l' x'] b'].
  by simplify_map_eq.
Qed.

Lemma run_stored_table o fs g' :
  match o with
  | AddUserXp g u a =>
      stored_table (run o fs) g' =
      if decide (g' = g)
      then table_set u (granted (record_of fs g u)
                          (Py.int (Py.of_int a * multiplier_of fs g)%Q))
                     (stored_table fs g)
      else stored_table fs g'
  | _ => stored_table (run o fs) g' = stored_table fs g'
  end.
Proof.
  destruct o as [g | g | g c | g | g l r | g l | g u | g u a | g]; simpl.
  - rewrite load_guild_config_spec. unfold stored_table.
    destruct (fs !! g) eqn:Hc; simpl; [done |]. frame_other g' g.
  - pose proof (get_leveling_config_spec g fs) as H.
    destruct (get_leveling_config g fs) as [lv fs']. simpl. apply H.
  - unfold save_leveling_config, bind, save_guild_config, stored_table.
    rewrite load_guild_config_spec.
    destruct (fs !! g) as [c0 |] eqn:Hc; simpl; frame_other g' g.
  - pose proof (get_level_roles_spec g fs) as H.
    destruct (get_level_roles g fs) as [lr fs']. simpl. apply H.
  - unfold set_level_role, bind, save_guild_config, stored_table.
    rewrite load_guild_config_spec.
    destruct (fs !! g) as [c0 |] eqn:Hc; simpl; frame_other g' g.
  - unfold remove_level_role, bind, ret, save_guild_config, stored_table.
    rewrite load_guild_config_spec.
    destruct (fs !! g) as [[ul lv [lr |]] |] eqn:Hc; simpl;
      try destruct (lr !! l); simpl; try done; frame_other g' g.
  - pose proof (get_user_level_data_spec g u fs) as H.
    destruct (get_user_level_data g u fs) as [r fs']. simpl. apply H.
  - pose proof (add_user_xp_spec g u a fs) as H. simpl in H.
    rewrite <- record_of_stored in H.
    destruct (level_up_loop _ _ false) as [[l' x'] b'].
    destruct (add_user_xp g u a fs) as [res fs']. simpl.
    destruct H as (_ & _ & Ht & _ & Hother).
    destruct (decide (g' = g)) as [-> | Hne]; [done |].
    unfold stored_table. by rewrite Hother.
  - rewrite get_level_leaderboard_spec. simpl. unfold stored_table.
    destruct (fs !! g) eqn:Hc; simpl; [done |]. frame_other g' g.
Qed.

Lemma reachable_records_complete fs : reachable fs -> records_complete fs.
Proof.
  induction 1 as [| o fs Hr IH].
  - intros g u r. unfold stored_table. by rewrite lookup_empty.
  - intros g' u' r. pose proof (run_stored_table o fs g') as Hrun.
    destruct o as [g | g | g c | g | g l r0 | g l | g u | g u a | g];
      try (rewrite Hrun; apply IH).
    rewrite Hrun. destruct (decide (g' = g)) as [-> | Hne]; [| apply IH].
    destruct (decide (u = u')) as [-> | Hu].
    + rewrite table_get_set_eq. intros [= <-]. apply granted_complete.
    + rewrite table_get_set_ne by done. apply IH.
Qed.

(** The handlers of the cog reach the documents through these methods. *)
Lemma on_message_reachable m t rnd st :
  reachable (files st) -> reachable (files (fst (on_message m t rnd st))).
Proof.
  intros Hr. unfold on_message.
  destruct (guild m) as [gv |]; [| done].
  destruct (author_bot m); [done |].
  destruct (_ <? 5); [done |].
  destruct (on_cooldown _ _ _); [done |].
  pose proof (reachable_run (GetLevelingConfig (guild_id gv)) _ Hr) as H1.
  simpl in H1.
  destruct (get_leveling_config (guild_id gv) (files st)) as [lv fs1].
  destruct (negb _); [done |].
  pose proof (reachable_run (GetLevelRoles (guild_id gv)) _ H1) as H2.
  simpl in H2.
  destruct (get_level_roles (guild_id gv) fs1) as [lr fs2].
  pose proof (reachable_run
                (AddUserXp (guild_id gv) (author_id m) (xp_per_message + rnd))
                _ H2) as H3.
  simpl in H3.
  by destruct (add_user_xp _ _ _ fs2) as [res fs3].
Qed.

Lemma add_xp_command_reachable g u amount fs :
  reachable fs -> reachable (snd (add_xp_command g u amount fs)).
Proof.
  intros Hr. unfold add_xp_command, bind, ret.
  destruct (amount <=? 0); [done |].
  destruct (10000 <? amount); [done |].
  pose proof (reachable_run (AddUserXp g u amount) _ Hr) as H. simpl in H.
  by destruct (add_user_xp g u amount fs).
Qed.

Lemma falsy_false_iff (d : gmap string Z) : falsy d = false <-> d <> ∅.
Proof. unfold falsy. apply bool_decide_eq_false. Qed.

Lemma new_record_truthy : falsy new_record = false.
Proof. reflexivity. Qed.

(** [/rank] takes its first branch exactly when the record is falsy. *)
Lemma rank_command_no_xp g u fs :
  fst (rank_command g u fs) = NoXpYet <-> falsy (record_of fs g u) = true.
Proof.
  unfold rank_command, bind, ret, record_of.
  destruct (get_user_level_data g u fs) as [r fs']. simpl.
  destruct (falsy r); simpl; [done |].
  destruct (get_level_leaderboard g fs'). simpl. split; discriminate.
Qed.

(** C9.  In every data folder the bot can produce, for every guild and
    user, [get_user_level_data] returns a non-empty record: the stored one,
    which has its three keys, or [{level: 1, xp: 0, total_xp: 0}] when none
    is stored.  Hence [/rank] never takes the branch replying that the user
    "hasn't earned any XP yet". *)
Theorem get_user_level_data_truthy fs g u :
  reachable fs ->
  let r := fst (get_user_level_data g u fs) in
  r <> ∅ /\
  falsy r = false /\
  (stored_record fs g u = None -> r = new_record) /\
  (forall r0, stored_record fs g u = Some r0 -> r = r0) /\
  fst (rank_command g u fs) <> NoXpYet.
Proof.
  intros Hr. cbv zeta. fold (record_of fs g u).
  assert (Hne : record_of fs g u <> ∅).
  { rewrite record_of_stored, stored_record_table.
    destruct (table_get u (stored_table fs g)) as [r |] eqn:Hget; simpl.
    - destruct (reachable_records_complete fs Hr g u r Hget) as ([l Hl] & _).
      intros ->. by rewrite lookup_empty in Hl.
    - by apply falsy_false_iff. }
  split; [exact Hne |].
  split; [by apply falsy_false_iff |].
  split; [| split].
  - intros Hnone. by rewrite record_of_stored, Hnone.
  - intros r0 Hsome. by rewrite record_of_stored, Hsome.
  - rewrite rank_command_no_xp. apply falsy_false_iff in Hne. by rewrite Hne.
Qed.

Lemma get_user_level_data_truthy_witness :
  let fs := run (AddUserXp 1 7 450) (run (GetLevelingConfig 1) ∅) in
  fst (get_user_level_data 1 7 fs) <> ∅ /\
  fst (get_user_level_data 1 8 fs) = new_record /\
  fst (rank_command 1 8 fs) <> NoXpYet.
Proof.
  intros fs.
  assert (Hr : reachable fs) by (do 2 apply reachable_run; apply reachable_empty).
  destruct (get_user_level_data_truthy fs 1 7 Hr) as (H7 & _).
  destruct (get_user_level_data_truthy fs 1 8 Hr) as (_ & _ & H8 & _ & Hrank).
  split; [exact H7 |]. split; [exact (H8 eq_refl) | exact Hrank].
Defined.

(** * Further properties of the code *)

(** ** The document store ([config.py]) *)

(** X1.  Loading a guild document returns the stored one and changes
    nothing; a missing document is created as [DEFAULT_CONFIG] and written,
    so loading again returns the same document without another write.  A
    document saved is the one loaded next, and documents of other guilds are
    untouched by both. *)
Theorem load_save_round_trip g c fs :
  let '(c1, fs1) := load_guild_config g fs in
  fs1 !! g = Some c1 /\
  (fs !! g = None -> c1 = DEFAULT_CONFIG) /\
  (forall c0, fs !! g = Some c0 -> c1 = c0 /\ fs1 = fs) /\
  load_guild_config g fs1 = (c1, fs1) /\
  load_guild_config g (snd (save_guild_config g c fs)) =
    (c, snd (save_guild_config g c fs)) /\
  (forall g', g' <> g ->
     fs1 !! g' = fs !! g' /\ snd (save_guild_config g c fs) !! g' = fs !! g').
Proof.
  rewrite !load_guild_config_spec. unfold save_guild_config. simpl.
  rewrite lookup_insert_eq.
  destruct (fs !! g) as [c0 |] eqn:Hc;
    rewrite load_guild_config_spec, ?Hc, ?lookup_insert_eq.
  all: repeat split; try done.
  all: try congruence.
  all: try apply lookup_insert_eq.
  all: by rewrite lookup_insert_ne.
Qed.

(** ** The leveling configuration *)

Lemma get_leveling_config_facts g fs :
  let '(lv, fs') := get_leveling_config g fs in
  (stored_leveling fs g = None -> lv = default_leveling) /\
  (forall lv0, stored_leveling fs g = Some lv0 -> lv = lv0) /\
  stored_leveling fs' g = Some lv /\
  get_leveling_config g fs' = (lv, fs') /\
  (forall g', stored_table fs' g' = stored_table fs g') /\
  (forall g', stored_level_roles fs' g' = stored_level_roles fs g') /\
  (forall g', g' <> g -> fs' !! g' = fs !! g').
Proof.
  pose proof (get_leveling_config_spec g fs) as H.
  pose proof (get_leveling_config_level_roles g fs) as Hr.
  assert (Hother : forall g', g' <> g ->
            snd (get_leveling_config g fs) !! g' = fs !! g').
  { intros g' Hne. unfold get_leveling_config, bind, ret, save_guild_config.
    rewrite load_guild_config_spec.
    destruct (fs !! g) as [[ul [lv |] lr] |]; simpl; try done;
      by rewrite ?lookup_insert_ne. }
  assert (Hagain : get_leveling_config g (snd (get_leveling_config g fs))
                   = get_leveling_config g fs).
  { unfold get_leveling_config, bind, ret, save_guild_config.
    rewrite (load_guild_config_spec g fs).
    destruct (fs !! g) as [[ul [lv |] lr] |] eqn:Hc; simpl;
      rewrite load_guild_config_spec; rewrite ?lookup_insert_eq, ?Hc; simpl; try done. }
  destruct (get_leveling_config g fs) as [lv fs']. simpl in *.
  destruct H as (Hlv & Hst & Ht & _).
  split; [by intros Hn; rewrite Hlv, Hn |].
  split; [by intros lv0 Hs; rewrite Hlv, Hs |].
  repeat split; try done.
Qed.

(** X2.  The first [get_leveling_config] of a guild without a leveling
    object returns the default one (disabled, multiplier 1.0, no channel) and
    stores it; in every case a second call returns the same object and
    writes nothing, and no user record, level role or other guild's
    configuration changes. *)
Theorem get_leveling_config_idempotent g fs :
  let '(lv, fs') := get_leveling_config g fs in
  (stored_leveling fs g = None -> lv = default_leveling) /\
  (forall lv0, stored_leveling fs g = Some lv0 -> lv = lv0) /\
  stored_leveling fs' g = Some lv /\
  get_leveling_config g fs' = (lv, fs') /\
  (forall g', stored_table fs' g' = stored_table fs g') /\
  (forall g', stored_level_roles fs' g' = stored_level_roles fs g') /\
  (forall g', g' <> g -> fs' !! g' = fs !! g').
Proof. exact (get_leveling_config_facts g fs). Qed.
Lemma stored_leveling_get g fs :
  fst (get_leveling_config g fs) = default default_leveling (stored_leveling fs g).
Proof.
  pose proof (get_leveling_config_spec g fs) as H.
  destruct (get_leveling_config g fs) as [lv fs']. simpl. tauto.
Qed.

Lemma save_leveling_config_stored g cfg fs :
  let fs' := snd (save_leveling_config g cfg fs) in
  stored_leveling fs' g = Some cfg /\
  (forall g', stored_table fs' g' = stored_table fs g') /\
  (forall g', stored_level_roles fs' g' = stored_level_roles fs g') /\
  (forall g', g' <> g -> fs' !! g' = fs !! g').
Proof.
  unfold save_leveling_config, bind, save_guild_config.
  unfold stored_leveling, stored_table, stored_level_roles.
  rewrite load_guild_config_spec.
  destruct (fs !! g) as [c0 |] eqn:Hc; simpl; rewrite lookup_insert_eq; simpl.
  all: repeat split; try done; intros g'; try frame_other g' g.
  all: intros; by rewrite ?lookup_insert_ne.
Qed.

Lemma save_leveling_config_facts g cfg fs :
  let fs' := snd (save_leveling_config g cfg fs) in
  get_leveling_config g fs' = (cfg, fs') /\
  multiplier_of fs' g = default 1%Q (xp_multiplier cfg) /\
  leveling_enabled fs' g = default false (enabled cfg) /\
  (forall g', stored_table fs' g' = stored_table fs g') /\
  (forall g', stored_level_roles fs' g' = stored_level_roles fs g') /\
  (forall g', g' <> g -> fs' !! g' = fs !! g').
Proof.
  destruct (save_leveling_config_stored g cfg fs) as (Hs & Ht & Hr & Ho).
  cbv zeta in *. set (fs' := snd (save_leveling_config g cfg fs)) in *.
  split; [| split; [| split]]; [| | | done].
  - unfold get_leveling_config, bind, ret. rewrite load_guild_config_spec.
    unfold stored_leveling in Hs.
    destruct (fs' !! g) as [c0 |]; [| done]. simpl in Hs. by rewrite Hs.
  - unfold multiplier_of. by rewrite Hs.
  - unfold leveling_enabled. by rewrite Hs.
Qed.

(** X3.  A leveling configuration saved is the one returned by the next
    [get_leveling_config], which then writes nothing; the multiplier and the
    enabled flag used by the engine are those of the saved object (1.0 and
    false where the keys are absent); user records, level roles and other
    guilds are untouched. *)
Theorem save_leveling_config_round_trip g cfg fs :
  let fs' := snd (save_leveling_config g cfg fs) in
  get_leveling_config g fs' = (cfg, fs') /\
  multiplier_of fs' g = default 1%Q (xp_multiplier cfg) /\
  leveling_enabled fs' g = default false (enabled cfg) /\
  (forall g', stored_table fs' g' = stored_table fs g') /\
  (forall g', stored_level_roles fs' g' = stored_level_roles fs g') /\
  (forall g', g' <> g -> fs' !! g' = fs !! g').
Proof. exact (save_leveling_config_facts g cfg fs). Qed.
(** [/levelconfig] as one update of the leveling object. *)
Lemma level_config_command_eq g enable chan mult fs :
  level_config_command g enable chan mult fs =
  let '(old, fs1) := get_leveling_config g fs in
  let new :=
    {| enabled := match enable with Some e => Some e | None => enabled old end;
       xp_multiplier := match mult with
                        | Some x => Some (clamp_multiplier x)
                        | None => xp_multiplier old
                        end;
       level_channel_id := match chan with
                           | Some c => Some c
                           | None => level_channel_id old
                           end |} in
  match enable, chan, mult with
  | None, None, None => (true, fs1)
  | _, _, _ => save_leveling_config g new fs1
  end.
Proof.
  unfold level_config_command, bind, ret.
  destruct (get_leveling_config g fs) as [[en mu ch] fs1].
  destruct enable, chan, mult; reflexivity.
Qed.

(** X4.  [/levelconfig]: each parameter given replaces its field of the
    guild's leveling object and each parameter left out keeps it; a
    multiplier given is stored clamped, so the multiplier in force afterwards
    lies between 0.1 and 5.0; user records and level roles are untouched. *)
Theorem level_config_command_effect g enable chan mult fs :
  let old := fst (get_leveling_config g fs) in
  let fs' := snd (level_config_command g enable chan mult fs) in
  let new := fst (get_leveling_config g fs') in
  enabled new = match enable with Some e => Some e | None => enabled old end /\
  level_channel_id new =
    match chan with Some c => Some c | None => level_channel_id old end /\
  xp_multiplier new =
    match mult with
    | Some x => Some (clamp_multiplier x)
    | None => xp_multiplier old
    end /\
  (forall x, mult = Some x -> (1 # 10 <= multiplier_of fs' g <= 5)%Q) /\
  (forall g', stored_table fs' g' = stored_table fs g') /\
  (forall g', stored_level_roles fs' g' = stored_level_roles fs g').
Proof.
  cbv zeta. rewrite level_config_command_eq.
  pose proof (get_leveling_config_facts g fs) as H.
  destruct (get_leveling_config g fs) as [old fs1]. simpl fst.
  destruct H as (_ & _ & Hs1 & Hagain & Ht1 & Hr1 & _).
  cbv zeta.
  set (new := {| enabled := _; xp_multiplier := _; level_channel_id := _ |}).
  destruct (save_leveling_config_facts g new fs1)
    as (Hget & Hm & _ & Ht2 & Hr2 & _).
  assert (Hsave :
    let fs' := snd (save_leveling_config g new fs1) in
    let new' := fst (get_leveling_config g fs') in
    enabled new' = enabled new /\ level_channel_id new' = level_channel_id new /\
    xp_multiplier new' = xp_multiplier new /\
    (forall x, mult = Some x -> (1 # 10 <= multiplier_of fs' g <= 5)%Q) /\
    (forall g', stored_table fs' g' = stored_table fs g') /\
    (forall g', stored_level_roles fs' g' = stored_level_roles fs g')).
  { cbv zeta. rewrite Hget. simpl fst. repeat split; try done.
    - rewrite Hm. unfold new. rewrite H. simpl. apply clamp_multiplier_range.
    - rewrite Hm. unfold new. rewrite H. simpl. apply clamp_multiplier_range.
    - intros g'. by rewrite Ht2, Ht1.
    - intros g'. by rewrite Hr2, Hr1. }
  destruct enable as [e |], chan as [c |], mult as [x |]; try exact Hsave.
  simpl. rewrite Hagain. simpl. repeat split; done.
Qed.

Lemma set_level_role_stored g level role_id fs :
  let fs' := snd (set_level_role g level role_id fs) in
  stored_level_roles fs' g = <[level := role_id]> (stored_level_roles fs g) /\
  (forall g', g' <> g -> fs' !! g' = fs !! g') /\
  (forall g', stored_table fs' g' = stored_table fs g') /\
  (forall g', stored_leveling fs' g' = stored_leveling fs g').
Proof.
  unfold set_level_role, bind, save_guild_config.
  unfold stored_level_roles, stored_table, stored_leveling.
  rewrite load_guild_config_spec.
  destruct (fs !! g) as [c0 |] eqn:Hc; simpl; rewrite lookup_insert_eq; simpl.
  all: repeat split; try done; intros g'; try frame_other g' g.
  all: intros; by rewrite ?lookup_insert_ne.
Qed.

Lemma set_level_role_facts g level role_id fs :
  let fs' := snd (set_level_role g level role_id fs) in
  fst (set_level_role g level role_id fs) = true /\
  fst (get_level_roles g fs') !! level = Some role_id /\
  (forall level', level' <> level ->
     fst (get_level_roles g fs') !! level' = fst (get_level_roles g fs) !! level') /\
  (forall g', stored_table fs' g' = stored_table fs g') /\
  (forall g', stored_leveling fs' g' = stored_leveling fs g') /\
  (forall g', g' <> g -> fs' !! g' = fs !! g').
Proof.
  destruct (set_level_role_stored g level role_id fs) as (Hs & Ho & Ht & Hl).
  cbv zeta in *. rewrite !get_level_roles_result, Hs.
  split; [| split; [| split]]; [| | | done].
  - unfold set_level_role, bind, save_guild_config.
    by destruct (load_guild_config g fs).
  - apply lookup_insert_eq.
  - intros level' Hne. by rewrite lookup_insert_ne.
Qed.

(** X5.  After [set_level_role] the role configured for the level is the one
    given (an earlier one is replaced), the roles of the other levels are as
    before, and [get_level_roles] returns that table; user records, the
    leveling object and other guilds are untouched. *)
Theorem set_level_role_round_trip g level role_id fs :
  let fs' := snd (set_level_role g level role_id fs) in
  fst (set_level_role g level role_id fs) = true /\
  fst (get_level_roles g fs') !! level = Some role_id /\
  (forall level', level' <> level ->
     fst (get_level_roles g fs') !! level' = fst (get_level_roles g fs) !! level') /\
  (forall g', stored_table fs' g' = stored_table fs g') /\
  (forall g', stored_leveling fs' g' = stored_leveling fs g') /\
  (forall g', g' <> g -> fs' !! g' = fs !! g').
Proof. exact (set_level_role_facts g level role_id fs). Qed.

Lemma remove_level_role_facts g level fs :
  let '(ok, fs') := remove_level_role g level fs in
  ok = bool_decide (is_Some (stored_level_roles fs g !! level)) /\
  stored_level_roles fs' g !! level = None /\
  (forall level', level' <> level ->
     stored_level_roles fs' g !! level' = stored_level_roles fs g !! level') /\
  (forall g', stored_table fs' g' = stored_table fs g') /\
  (forall g', stored_leveling fs' g' = stored_leveling fs g') /\
  (forall g', g' <> g -> fs' !! g' = fs !! g').
Proof.
  unfold remove_level_role, bind, ret, save_guild_config.
  unfold stored_level_roles, stored_table, stored_leveling.
  rewrite load_guild_config_spec.
  destruct (fs !! g) as [[ul lv [lr |]] |] eqn:Hc; simpl;
    try destruct (lr !! level) as [r |] eqn:Hl; simpl;
    rewrite ?lookup_insert_eq, ?Hc; simpl.
  all: split; [by rewrite ?Hl |].
  all: split; [by rewrite ?lookup_delete_eq, ?Hl |].
  all: split; [by intros; rewrite ?lookup_delete_ne |].
  all: repeat split; try done; intros g'; try frame_other g' g.
  all: intros; by rewrite ?lookup_insert_ne.
Qed.

(** X6.  [remove_level_role] returns true exactly when a role is configured
    for the level; afterwards none is, the other levels keep their roles,
    and user records and the leveling object are untouched. *)
Theorem remove_level_role_effect g level fs :
  let '(ok, fs') := remove_level_role g level fs in
  ok = bool_decide (is_Some (stored_level_roles fs g !! level)) /\
  stored_level_roles fs' g !! level = None /\
  (forall level', level' <> level ->
     stored_level_roles fs' g !! level' = stored_level_roles fs g !! level') /\
  (forall g', stored_table fs' g' = stored_table fs g') /\
  (forall g', stored_leveling fs' g' = stored_leveling fs g') /\
  (forall g', g' <> g -> fs' !! g' = fs !! g').
Proof. exact (remove_level_role_facts g level fs). Qed.
(** ** The XP engine *)

Lemma table_set_keys {V} k (v : V) t :
  table_keys (table_set k v t) =
  match table_get k t with
  | Some _ => table_keys t
  | None => table_keys t ++ [k]
  end.
Proof.
  unfold table_keys. induction t as [| [k' v'] t IH]; simpl; [done |].
  destruct (Z.eqb_spec k k') as [-> | Hne]; simpl; [done |].
  rewrite IH. by destruct (table_get k t).
Qed.

Lemma add_user_xp_level_roles g u amount fs g' :
  stored_level_roles (snd (add_user_xp g u amount fs)) g' = stored_level_roles fs g'.
Proof.
  unfold add_user_xp, bind, ret, save_guild_config, stored_level_roles.
  rewrite load_guild_config_spec.
  destruct (fs !! g) as [c0 |] eqn:Hc; simpl;
    destruct (level_up_loop _ _ false) as [[l' x'] b']; simpl;
    frame_other g' g.
Qed.

(** X7.  [add_user_xp] writes the record of its user only: a user who has a
    record keeps the position in the guild's table, a new user is appended
    last; the records of the other users, the guild's leveling object and
    level roles, and the documents of other guilds are as before. *)
Theorem add_user_xp_frame g u amount fs :
  let fs' := snd (add_user_xp g u amount fs) in
  table_keys (stored_table fs' g) =
    match stored_record fs g u with
    | Some _ => table_keys (stored_table fs g)
    | None => table_keys (stored_table fs g) ++ [u]
    end /\
  (forall u', u' <> u -> stored_record fs' g u' = stored_record fs g u') /\
  stored_leveling fs' g = stored_leveling fs g /\
  stored_level_roles fs' g = stored_level_roles fs g /\
  (forall g', g' <> g -> fs' !! g' = fs !! g').
Proof.
  cbv zeta.
  pose proof (add_user_xp_level_roles g u amount fs g) as Hroles.
  pose proof (add_user_xp_spec g u amount fs) as H. simpl in H.
  destruct (level_up_loop _ _ false) as [[l' x'] b'].
  destruct (add_user_xp g u amount fs) as [res fs']. simpl in *.
  destruct H as (_ & _ & Ht & Hl & Ho).
  split; [| split; [| done]].
  - rewrite Ht, table_set_keys, <- stored_record_table. done.
  - intros u' Hne. rewrite !stored_record_table, Ht.
    by apply table_get_set_ne.
Qed.

(** At loop exit the xp is below the threshold, whatever the xp at entry. *)
Lemma level_up_loop_exit l x b :
  let '(l', x', _) := level_up_loop l x b in x' < 150 * l'.
Proof.
  pattern l, x, b, (level_up_loop l x b).
  apply level_up_loop_ind; clear.
  - intros; lia.
  - intros l x b [[l' x'] b'] _ IH. exact IH.
Qed.

Lemma granted_consistent r gained :
  record_consistent r -> record_consistent (granted r gained).
Proof.
  unfold record_consistent. intros (Hl & Hx & Ht).
  pose proof (granted_fields r gained) as G.
  pose proof (level_up_loop_exit (dict_get r "level" 1)
                (dict_get r "xp" 0 + gained) false) as E.
  pose proof (level_up_loop_account (dict_get r "level" 1)
                (dict_get r "xp" 0 + gained) false) as A.
  destruct (level_up_loop _ _ false) as [[l' x'] b'].
  destruct G as (-> & -> & ->). lia.
Qed.

Lemma new_record_consistent : record_consistent new_record.
Proof. unfold record_consistent. vm_compute. repeat split; discriminate. Qed.

(** X8.  In every data folder the bot can produce, whatever the amounts
    granted and the multipliers configured (negative ones included), every
    level record, stored or defaulted, has a level of at least 1, an xp below
    the threshold of its level, and a total_xp equal to its xp plus the
    thresholds of all the levels passed,
    [total_xp = xp + 150 * (1 + 2 + ... + (level - 1))]. *)
Theorem reachable_records_consistent fs g u :
  reachable fs ->
  let r := record_of fs g u in
  1 <= dict_get r "level" 1 /\
  dict_get r "xp" 0 < 150 * dict_get r "level" 1 /\
  dict_get r "total_xp" 0 =
    dict_get r "xp" 0 + 75 * dict_get r "level" 1 * (dict_get r "level" 1 - 1) /\
  fst (get_user_level g u fs) = dict_get r "level" 1.
Proof.
  intros Hr. cbv zeta.
  assert (Hall : forall g u, record_consistent (record_of fs g u)).
  { clear g u. induction Hr as [| o fs Hr IH]; intros g' u'.
    - rewrite record_of_stored. unfold stored_record. rewrite lookup_empty.
      apply new_record_consistent.
    - rewrite record_of_stored, stored_record_table.
      pose proof (run_stored_table o fs g') as Hrun.
      specialize (IH g').
      destruct o as [g | g | g c | g | g l r0 | g l | g u | g u a | g];
        try (rewrite Hrun, <- stored_record_table, <- record_of_stored; apply IH).
      rewrite Hrun. destruct (decide (g' = g)) as [-> | Hne];
        [| rewrite <- stored_record_table, <- record_of_stored; apply IH].
      destruct (decide (u = u')) as [-> | Hu].
      + rewrite table_get_set_eq. simpl. apply granted_consistent, IH.
      + rewrite table_get_set_ne by done.
        rewrite <- stored_record_table, <- record_of_stored. apply IH. }
  destruct (Hall g u) as (H1 & H2 & H3).
  split; [done |]. split; [done |]. split; [done |].
  unfold get_user_level, bind, ret. fold (record_of fs g u).
  unfold record_of. by destruct (get_user_level_data g u fs).
Qed.

Lemma reachable_records_consistent_witness :
  let fs := run (AddUserXp 1 7 (-40)) (run (AddUserXp 1 7 500) ∅) in
  let r := record_of fs 1 7 in
  1 <= dict_get r "level" 1 /\
  dict_get r "xp" 0 < 150 * dict_get r "level" 1 /\
  dict_get r "total_xp" 0 =
    dict_get r "xp" 0 + 75 * dict_get r "level" 1 * (dict_get r "level" 1 - 1) /\
  fst (get_user_level 1 7 fs) = dict_get r "level" 1.
Proof.
  intros fs.
  apply (reachable_records_consistent fs 1 7).
  do 2 apply reachable_run. apply reachable_empty.
Defined.

(** X9.  For every grant, of any sign, the level [add_user_xp] returns is at
    least the level read, and [leveled_up] is true exactly when it is
    greater. *)
Theorem add_user_xp_level_monotone g u amount fs :
  let old_level := dict_get (record_of fs g u) "level" 1 in
  let res := fst (add_user_xp g u amount fs) in
  old_level <= res_level res /\
  (res_leveled_up res = true <-> old_level < res_level res).
Proof.
  cbv zeta.
  pose proof (add_user_xp_spec g u amount fs) as H. simpl in H.
  rewrite <- record_of_stored in H.
  set (gained := Py.int _) in H.
  pose proof (level_up_loop_flag (dict_get (record_of fs g u) "level" 1)
                (dict_get (record_of fs g u) "xp" 0 + gained)) as F.
  pose proof (level_up_loop_account (dict_get (record_of fs g u) "level" 1)
                (dict_get (record_of fs g u) "xp" 0 + gained) false) as A.
  destruct (level_up_loop _ _ false) as [[l' x'] b'].
  destruct (add_user_xp g u amount fs) as [res fs']. simpl.
  destruct H as (-> & _). simpl. destruct A as [_ Hle]. split; [done |].
  subst b'. rewrite negb_true_iff, Z.eqb_neq. lia.
Qed.

(** X10.  [/addxp] rejects an amount exactly when it is not positive or
    exceeds 10000, and a rejected command leaves the data folder as it
    was. *)
Theorem add_xp_command_rejects g u amount fs :
  (fst (add_xp_command g u amount fs) = None <-> amount <= 0 \/ 10000 < amount) /\
  (fst (add_xp_command g u amount fs) = None ->
   snd (add_xp_command g u amount fs) = fs).
Proof.
  unfold add_xp_command, bind, ret.
  destruct (Z.leb_spec amount 0); [split; [split; [lia | done] | done] |].
  destruct (Z.ltb_spec 10000 amount); [split; [split; [lia | done] | done] |].
  destruct (add_user_xp g u amount fs) as [res fs']. simpl.
  split; [split; [done | lia] | done].
Qed.

(** ** The message handler *)

(** X11.  A message of a bot, a message outside a guild and a message of
    fewer than 5 characters change nothing: no record, no document, and no
    cooldown entry is written, and nothing is sent. *)
Theorem on_message_ignored m t rnd st :
  author_bot m = true \/ guild m = None \/ (String.length (content m) < 5)%nat ->
  on_message m t rnd st = (st, []).
Proof.
  intros H. unfold on_message.
  destruct (guild m) as [gv |]; [| done].
  destruct (author_bot m); [done |].
  destruct (Z.ltb_spec (Z.of_nat (String.length (content m))) 5); [done |].
  destruct H as [? | [? | ?]]; [done | done | lia].
Qed.

Lemma on_message_ignored_witness :
  on_message {| author_bot := false; author_id := 7; author_roles := [];
                guild := Some {| guild_id := 1; guild_roles := [];
                                 guild_channels := [] |};
                content := "hey"; channel := 5 |}
             0 3 {| files := demo_files; cooldowns := ∅ |}
  = ({| files := demo_files; cooldowns := ∅ |}, []).
Proof.
  apply on_message_ignored. right. right. simpl. lia.
Defined.
(** ** Rank and leaderboard *)

Lemma table_get_None {V} k (t : list (Z * V)) :
  table_get k t = None <-> k ∉ table_keys t.
Proof.
  unfold table_keys. induction t as [| [k' v'] t IH]; simpl.
  - split; [intros _; apply not_elem_of_nil | done].
  - rewrite not_elem_of_cons.
    destruct (Z.eqb_spec k k') as [-> | Hne]; [split; [done | tauto] |].
    rewrite IH. tauto.
Qed.

Lemma table_get_elem {V} k (v : V) t :
  NoDup (table_keys t) -> (k, v) ∈ t -> table_get k t = Some v.
Proof.
  unfold table_keys. induction t as [| [k' v'] t IH]; simpl; intros Hnd Hin.
  - by apply elem_of_nil in Hin.
  - apply NoDup_cons in Hnd as [Hk' Hnd].
    apply elem_of_cons in Hin as [[= <- <-] | Hin].
    + by rewrite Z.eqb_refl.
    + destruct (Z.eqb_spec k k') as [-> | Hne]; [| by apply IH].
      exfalso. apply Hk'. apply list_elem_of_fmap. by exists (k', v).
Qed.

Lemma table_set_nodup {V} k (v : V) t :
  NoDup (table_keys t) -> NoDup (table_keys (table_set k v t)).
Proof.
  intros Hnd. rewrite table_set_keys.
  destruct (table_get k t) eqn:Hget; [done |].
  apply NoDup_app. split; [done |]. split; [| apply NoDup_singleton].
  intros x Hx Hx'. apply list_elem_of_singleton in Hx' as ->.
  by apply table_get_None in Hget.
Qed.

(** User ids are the keys of a dictionary: no user has two records. *)
Lemma reachable_keys_nodup fs g : reachable fs -> NoDup (table_keys (stored_table fs g)).
Proof.
  intros Hr. revert g. induction Hr as [| o fs Hr IH]; intros g'.
  - unfold stored_table. rewrite lookup_empty. apply NoDup_nil_2.
  - pose proof (run_stored_table o fs g') as Hrun.
    destruct o as [g | g | g c | g | g l r0 | g l | g u | g u a | g];
      try (rewrite Hrun; apply IH).
    rewrite Hrun. destruct (decide (g' = g)) as [-> | Hne]; [| apply IH].
    apply table_set_nodup, IH.
Qed.

Lemma get_user_level_data_not_falsy fs g u :
  reachable fs -> falsy (fst (get_user_level_data g u fs)) = false.
Proof.
  intros Hr. fold (record_of fs g u). apply falsy_false_iff.
  rewrite record_of_stored, stored_record_table.
  destruct (table_get u (stored_table fs g)) as [r |] eqn:Hget; simpl.
  - destruct (reachable_records_complete fs Hr g u r Hget) as ([l Hl] & _).
    intros ->. by rewrite lookup_empty in Hl.
  - by apply falsy_false_iff.
Qed.

(** X12.  In every data folder the bot can produce, [/rank] replies with a
    card showing the user's record (the default one if none is stored) and
    the threshold [150 * level]; the rank is absent exactly when the user has
    no stored record, and otherwise it is the 1-based position of the user's
    own record on the leaderboard. *)
Theorem rank_command_card fs g u :
  reachable fs ->
  let r := record_of fs g u in
  let lb := fst (get_level_leaderboard g fs) in
  exists pos,
    fst (rank_command g u fs) =
      RankCard pos (dict_get r "level" 1) (dict_get r "xp" 0)
               (dict_get r "total_xp" 0) (150 * dict_get r "level" 1) /\
    match stored_record fs g u with
    | None => pos = None
    | Some r0 =>
        exists n : nat, pos = Some (Z.of_nat n + 1) /\ lb !! n = Some (u, r0)
    end.
Proof.
  intros Hr. cbv zeta.
  pose proof (get_user_level_data_not_falsy fs g u Hr) as Hfalsy.
  pose proof (get_user_level_data_spec g u fs) as Hspec.
  unfold rank_command, bind, ret, record_of.
  destruct (get_user_level_data g u fs) as [r fs1]. simpl in *.
  destruct Hspec as (Hrec & Ht & _). rewrite Hfalsy.
  rewrite !get_level_leaderboard_spec. simpl. rewrite Ht.
  rewrite int_xp_for_next_level.
  eexists. split; [reflexivity |].
  pose proof (user_position_from_spec u (sort_by_total_xp (stored_table fs g)) 0) as Hpos.
  pose proof (sort_by_total_xp_perm (stored_table fs g)) as Hperm.
  pose proof (reachable_keys_nodup fs g Hr) as Hnd.
  rewrite stored_record_table.
  destruct (table_get u (stored_table fs g)) as [r0 |] eqn:Hget.
  - destruct (user_position_from 0 u _) as [p |].
    + destruct Hpos as (n & r' & -> & Hn & _).
      exists n. split; [f_equal; lia |]. rewrite Hn. do 2 f_equal.
      assert ((u, r') ∈ stored_table fs g) as Hin.
      { rewrite <- Hperm. by eapply list_elem_of_lookup_2. }
      apply (table_get_elem _ _ _ Hnd) in Hin. congruence.
    + exfalso.
      assert (exists i, stored_table fs g !! i = Some (u, r0)) as [i Hi].
      { clear -Hget. induction (stored_table fs g) as [| [k v] t IH]; [done |].
        simpl in Hget. destruct (Z.eqb_spec u k) as [-> | Hne].
        - exists 0%nat. simpl. congruence.
        - destruct (IH Hget) as [i Hi]. by exists (S i). }
      apply (Hpos (u, r0)); [| done].
      rewrite Hperm. by eapply list_elem_of_lookup_2.
  - destruct (user_position_from 0 u _) as [p |]; [| done].
    destruct Hpos as (n & r' & _ & Hn & _).
    apply table_get_None in Hget. exfalso. apply Hget.
    apply list_elem_of_fmap. exists (u, r'). split; [done |].
    rewrite <- Hperm. by eapply list_elem_of_lookup_2.
Qed.

Lemma rank_command_card_witness :
  let fs := run (AddUserXp 1 8 700) (run (AddUserXp 1 7 450) ∅) in
  fst (rank_command 1 7 fs) = RankCard (Some 2) 3 0 450 450 /\
  fst (rank_command 1 9 fs) = RankCard None 1 0 0 150.
Proof.
  intros fs.
  assert (Hr : reachable fs) by (do 2 apply reachable_run; apply reachable_empty).
  destruct (rank_command_card fs 1 7 Hr) as (p7 & H7 & n7 & -> & Hn7).
  destruct (rank_command_card fs 1 9 Hr) as (p9 & H9 & ->).
  split; [| exact H9].
  rewrite H7. destruct n7 as [| [| n7]]; [discriminate Hn7 | reflexivity |].
  destruct n7; discriminate Hn7.
Defined.
Lemma enumerate_from_lookup {A} (l : list A) : forall i (k : nat),
  enumerate_from i l !! k = (fun x => (i + Z.of_nat k, x)) <$> l !! k.
Proof.
  induction l as [| x l IH]; intros i k; [by destruct k |].
  destruct k as [| k]; simpl.
  - do 2 f_equal. lia.
  - rewrite IH. destruct (l !! k); simpl; [| done]. do 2 f_equal. lia.
Qed.

Lemma py_slice_lookup {A} (l : list A) (start stop : Z) (k : nat) :
  0 <= start ->
  py_slice l start stop !! k =
  if decide (Z.of_nat k < stop - start) then l !! (Z.to_nat start + k)%nat else None.
Proof.
  intros Hs. unfold py_slice.
  destruct (decide (Z.of_nat k < stop - start)) as [Hlt | Hge].
  - rewrite lookup_take_lt by lia. apply lookup_drop.
  - apply lookup_take_ge. lia.
Qed.

Lemma py_slice_length {A} (l : list A) (start stop : Z) :
  0 <= start ->
  Z.of_nat (length (py_slice l start stop)) =
  Z.max 0 (Z.min (stop - start) (Z.of_nat (length l) - start)).
Proof.
  intros Hs. unfold py_slice. rewrite length_take, length_drop. lia.
Qed.

Lemma enumerate_from_length {A} (l : list A) i :
  length (enumerate_from i l) = length l.
Proof. revert i. induction l as [| x l IH]; intros i; simpl; [done |]. by rewrite IH. Qed.

Lemma leaderboard_command_facts g page fs :
  let lb := fst (get_level_leaderboard g fs) in
  let n := Z.of_nat (length lb) in
  match fst (leaderboard_command g page fs) with
  | NoLeaderboardData => lb = []
  | LeaderboardPage p max_pages lines =>
      lb <> [] /\
      max_pages = (n + 9) / 10 /\
      p = Z.max 1 (Z.min page max_pages) /\
      1 <= p <= max_pages /\
      Z.of_nat (length lines) = Z.min 10 (n - 10 * (p - 1)) /\
      1 <= Z.of_nat (length lines) <= 10 /\
      forall (k : nat) line,
        lines !! k = Some line ->
        let rank := 10 * (p - 1) + Z.of_nat k + 1 in
        exists r,
          lb !! Z.to_nat (rank - 1) = Some (line_user line, r) /\
          line_level line = dict_get r "level" 1 /\
          line_total_xp line = dict_get r "total_xp" 0 /\
          line_prefix line = prefix_of rank
  end.
Proof.
  cbv zeta. unfold leaderboard_command, bind, ret.
  destruct (get_level_leaderboard g fs) as [lb fs1]. simpl.
  destruct lb as [| e lb0]; [done |].
  set (lb := e :: lb0). set (n := Z.of_nat (length lb)).
  assert (1 <= n) as Hn by (unfold n, lb; simpl; lia).
  simpl fst. unfold max_pages_of, items_per_page.
  set (maxp := (n + 10 - 1) / 10).
  assert (maxp = (n + 9) / 10) as Hmaxp by (unfold maxp; f_equal; lia).
  assert (1 <= maxp /\ 10 * (maxp - 1) < n <= 10 * maxp) as [Hm1 Hm2].
  { rewrite Hmaxp.
    pose proof (Z.div_mod (n + 9) 10 ltac:(lia)).
    pose proof (Z.mod_pos_bound (n + 9) 10 ltac:(lia)). lia. }
  set (p := Z.max 1 (Z.min page maxp)).
  assert (1 <= p <= maxp) as Hp by lia.
  assert (Hlen : Z.of_nat (length (py_slice lb ((p - 1) * 10) ((p - 1) * 10 + 10)))
                 = Z.min 10 (n - 10 * (p - 1))).
  { rewrite py_slice_length by lia. fold n. lia. }
  split; [done |]. split; [done |]. split; [done |]. split; [done |].
  rewrite length_map, enumerate_from_length.
  split; [exact Hlen |]. split; [lia |].
  intros k line Hk. cbv zeta.
  rewrite list_lookup_fmap, enumerate_from_lookup in Hk.
  rewrite py_slice_lookup in Hk by lia.
  destruct (decide _) as [Hlt | ?]; [| done].
  replace (Z.to_nat (10 * (p - 1) + Z.of_nat k + 1 - 1))
    with (Z.to_nat ((p - 1) * 10) + k)%nat by lia.
  destruct (lb !! _) as [[uid r] |]; [| done].
  simpl in Hk. injection Hk as Hk. subst line. simpl.
  exists r. repeat split; try done. f_equal. lia.
Qed.

(** X13.  [/leaderboard]: with no record in the guild the reply is the
    "no data" message; otherwise the page shown is the page asked for,
    brought into [1 .. max_pages] with [max_pages = ceil(n / 10)]; it has
    between 1 and 10 lines, and line [k] of page [p] shows the leaderboard
    entry of rank [10 * (p - 1) + k + 1] (user, level, total_xp) with the
    medal of that rank. *)
Theorem leaderboard_command_page g page fs :
  let lb := fst (get_level_leaderboard g fs) in
  let n := Z.of_nat (length lb) in
  match fst (leaderboard_command g page fs) with
  | NoLeaderboardData => lb = []
  | LeaderboardPage p max_pages lines =>
      lb <> [] /\
      max_pages = (n + 9) / 10 /\
      p = Z.max 1 (Z.min page max_pages) /\
      1 <= p <= max_pages /\
      Z.of_nat (length lines) = Z.min 10 (n - 10 * (p - 1)) /\
      1 <= Z.of_nat (length lines) <= 10 /\
      forall (k : nat) line,
        lines !! k = Some line ->
        let rank := 10 * (p - 1) + Z.of_nat k + 1 in
        exists r,
          lb !! Z.to_nat (rank - 1) = Some (line_user line, r) /\
          line_level line = dict_get r "level" 1 /\
          line_total_xp line = dict_get r "total_xp" 0 /\
          line_prefix line = prefix_of rank
  end.
Proof. exact (leaderboard_command_facts g page fs). Qed.

(** X14.  Every entry of the leaderboard is shown on the page of its rank:
    the entry at 0-based index [j] is line [j mod 10] of page [j / 10 + 1]. *)
Theorem leaderboard_command_covers g fs (j : nat) uid r :
  fst (get_level_leaderboard g fs) !! j = Some (uid, r) ->
  exists max_pages lines,
    fst (leaderboard_command g (Z.of_nat j / 10 + 1) fs) =
      LeaderboardPage (Z.of_nat j / 10 + 1) max_pages lines /\
    lines !! (j mod 10)%nat =
      Some {| line_prefix := prefix_of (Z.of_nat j + 1); line_user := uid;
              line_level := dict_get r "level" 1;
              line_total_xp := dict_get r "total_xp" 0 |}.
Proof.
  intros Hj.
  pose proof (leaderboard_command_facts g (Z.of_nat j / 10 + 1) fs) as Hpage.
  cbv zeta in Hpage.
  assert (Hlt : (j < length (fst (get_level_leaderboard g fs)))%nat)
    by (by eapply lookup_lt_Some).
  destruct (fst (leaderboard_command g _ fs)) as [| p maxp lines] eqn:Hcmd.
  { rewrite Hpage in Hlt. simpl in Hlt. lia. }
  destruct Hpage as (_ & Hmaxp & Hp & _ & Hlen & _ & Hlines).
  set (n := Z.of_nat (length (fst (get_level_leaderboard g fs)))) in *.
  pose proof (Z.div_mod (Z.of_nat j) 10 ltac:(lia)) as Hdm.
  pose proof (Z.mod_pos_bound (Z.of_nat j) 10 ltac:(lia)) as Hmb.
  pose proof (Z.div_mod (n + 9) 10 ltac:(lia)) as Hdm'.
  pose proof (Z.mod_pos_bound (n + 9) 10 ltac:(lia)) as Hmb'.
  assert (p = Z.of_nat j / 10 + 1) as Hpj by lia.
  exists maxp, lines. split; [by rewrite Hpj |].
  assert (Z.of_nat (j mod 10) = Z.of_nat j mod 10) as Hmod
    by (rewrite Nat2Z.inj_mod; done).
  destruct (lines !! (j mod 10)%nat) as [line |] eqn:Hline.
  - destruct (Hlines _ _ Hline) as (r' & Hlb & Hlv & Htot & Hpre).
    replace (Z.to_nat (10 * (p - 1) + Z.of_nat (j mod 10) + 1 - 1)) with j in Hlb by lia.
    rewrite Hj in Hlb. injection Hlb as Hu Hr'.
    destruct line as [pre us lv tot].
    cbn [line_user line_level line_total_xp line_prefix] in *. subst.
    do 3 f_equal. lia.
  - apply lookup_ge_None in Hline. lia.
Qed.

Lemma leaderboard_command_covers_witness :
  let fs := run (AddUserXp 1 8 700) (run (AddUserXp 1 7 450) ∅) in
  exists max_pages lines,
    fst (leaderboard_command 1 (Z.of_nat 1 / 10 + 1) fs) =
      LeaderboardPage (Z.of_nat 1 / 10 + 1) max_pages lines /\
    lines !! (1 mod 10)%nat =
      Some {| line_prefix := prefix_of (Z.of_nat 1 + 1); line_user := 7;
              line_level := 3; line_total_xp := 450 |}.
Proof.
  intros fs.
  exact (leaderboard_command_covers 1 fs 1 7
           {[ "level" := 3; "xp" := 0; "total_xp" := 450 ]} eq_refl).
Defined.
(** ** The progress bar *)






(** ** Level-role commands *)



(** ** What the message handler sends *)


(** X20.  [on_ready] (a restart of the cog) clears every cooldown, so every
    user is eligible at once, and changes no user record; the only writes
    are default leveling objects for guilds that had none. *)
Theorem on_ready_resets_cooldowns guilds st :
  let st' := on_ready guilds st in
  (forall key now, on_cooldown (cooldowns st') key now = false) /\
  (forall g u, record_of (files st') g u = record_of (files st) g u) /\
  (forall g, multiplier_of (files st') g = multiplier_of (files st) g) /\
  (forall g, leveling_enabled (files st') g = leveling_enabled (files st) g).
Proof.
  cbv zeta. unfold on_ready. simpl.
  split; [intros key now; unfold on_cooldown; by rewrite lookup_empty |].
  generalize (files st) as fs. clear st.
  induction guilds as [| g0 guilds IH]; intros fs; simpl; [done |].
  destruct (IH (snd (get_leveling_config g0 fs))) as (Hr & Hm & He).
  pose proof (get_leveling_config_spec g0 fs) as Hspec.
  pose proof (get_leveling_config_facts g0 fs) as Hid.
  destruct (get_leveling_config g0 fs) as [lv fs1]. simpl in *.
  destruct Hspec as (Hlv & Hlv1 & Ht & Hmul).
  destruct Hid as (_ & _ & _ & _ & _ & _ & Hother).
  split; [| split].
  - intros g u. rewrite Hr. apply record_of_table, Ht.
  - intros g. by rewrite Hm, Hmul.
  - intros g. rewrite He. unfold leveling_enabled.
    destruct (decide (g = g0)) as [-> | Hne].
    + by rewrite Hlv1, Hlv.
    + unfold stored_leveling. by rewrite Hother.
Qed.
(** ** Warnings *)

Lemma get_warnings_add g u reason moderator now warns g' u' :
  get_warnings g' u' (snd (add_warning g u reason moderator now warns)) =
  if decide ((g', u') = (g, u))
  then get_warnings g u warns
       ++ [{| warn_reason := reason; warn_moderator_id := moderator;
              warn_timestamp := now |}]
  else get_warnings g' u' warns.
Proof.
  unfold add_warning, get_warnings. simpl.
  destruct (decide ((g', u') = (g, u))) as [[= -> ->] | Hne].
  - rewrite !lookup_insert_eq. simpl. by destruct (warns !! g).
  - destruct (decide (g' = g)) as [-> | Hg].
    + rewrite lookup_insert_eq, lookup_insert_ne by congruence.
      destruct (warns !! g); simpl; [done | by rewrite lookup_empty].
    + by rewrite lookup_insert_ne.
Qed.

Lemma clear_warnings_count g u warns :
  fst (clear_warnings g u warns) = Z.of_nat (length (get_warnings g u warns)).
Proof.
  unfold clear_warnings, get_warnings.
  destruct (warns !! g) as [bu |]; [| done]. by destruct (bu !! u).
Qed.

Lemma get_warnings_clear g u warns g' u' :
  get_warnings g' u' (snd (clear_warnings g u warns)) =
  if decide ((g', u') = (g, u)) then [] else get_warnings g' u' warns.
Proof.
  unfold clear_warnings, get_warnings.
  destruct (decide ((g', u') = (g, u))) as [[= -> ->] | Hne].
  - destruct (warns !! g) as [bu |] eqn:Hg; simpl; [| by rewrite Hg].
    destruct (bu !! u) eqn:Hu; simpl.
    + by rewrite !lookup_insert_eq.
    + by rewrite Hg, Hu.
  - destruct (warns !! g) as [bu |] eqn:Hg; simpl; [| done].
    destruct (bu !! u) eqn:Hu; simpl; [| done].
    destruct (decide (g' = g)) as [-> | Hg'].
    + rewrite lookup_insert_eq, Hg, lookup_insert_ne by congruence. done.
    + by rewrite lookup_insert_ne.
Qed.

(** X21.  [add_warning] appends the warning to the user's list and returns
    the new number of warnings, one more than before; [clear_warnings]
    returns the number of warnings the user had and leaves the list empty;
    neither changes the warnings of any other user or guild. *)
Theorem warnings_ledger g u reason moderator now warns :
  let before := get_warnings g u warns in
  let added := add_warning g u reason moderator now warns in
  let cleared := clear_warnings g u (snd added) in
  fst added = Z.of_nat (length before) + 1 /\
  get_warnings g u (snd added) =
    before ++ [{| warn_reason := reason; warn_moderator_id := moderator;
                  warn_timestamp := now |}] /\
  fst cleared = fst added /\
  get_warnings g u (snd cleared) = [] /\
  fst (clear_warnings g u warns) = Z.of_nat (length before) /\
  (forall g' u', (g', u') <> (g, u) ->
     get_warnings g' u' (snd added) = get_warnings g' u' warns /\
     get_warnings g' u' (snd cleared) = get_warnings g' u' warns /\
     get_warnings g' u' (snd (clear_warnings g u warns)) = get_warnings g' u' warns).
Proof.
  cbv zeta.
  assert (Hadd : fst (add_warning g u reason moderator now warns)
                 = Z.of_nat (length (get_warnings g u warns)) + 1).
  { unfold add_warning, get_warnings. simpl. rewrite length_app. simpl.
    destruct (warns !! g); simpl; rewrite ?lookup_empty; simpl; lia. }
  split; [exact Hadd |].
  split; [by rewrite get_warnings_add, decide_True |].
  split.
  { rewrite clear_warnings_count, get_warnings_add, decide_True by done.
    rewrite Hadd, length_app. simpl length. lia. }
  split; [by rewrite get_warnings_clear, decide_True |].
  split; [apply clear_warnings_count |].
  intros g' u' Hne.
  rewrite !get_warnings_clear, !get_warnings_add, !decide_False by done. done.
Qed.

(** ** Admin and moderator roles *)

Lemma list_remove_first_not_elem x l :
  NoDup l -> x ∉ list_remove_first x l.
Proof.
  induction 1 as [| y l Hy Hnd IH]; simpl; [apply not_elem_of_nil |].
  destruct (Z.eqb_spec x y) as [-> | Hne]; [done |].
  rewrite not_elem_of_cons. done.
Qed.

Lemma list_remove_first_elem x y l :
  y <> x -> y ∈ list_remove_first x l <-> y ∈ l.
Proof.
  intros Hne. induction l as [| z l IH]; simpl; [done |].
  destruct (Z.eqb_spec x z) as [-> | Hz].
  - rewrite elem_of_cons. split; [by right | by intros [? | ?]].
  - by rewrite !elem_of_cons, IH.
Qed.

Lemma list_remove_first_nodup x l : NoDup l -> NoDup (list_remove_first x l).
Proof.
  induction 1 as [| y l Hy Hnd IH]; simpl; [constructor |].
  destruct (Z.eqb_spec x y) as [-> | Hne]; [done |].
  constructor; [| done]. by rewrite list_remove_first_elem.
Qed.

Lemma default_role_sections_empty key (g : Z) :
  (s ← DEFAULT_ROLE_SECTIONS !! key; s !! g) = None.
Proof.
  unfold DEFAULT_ROLE_SECTIONS.
  destruct (decide (key = "admin_roles")) as [-> | H1];
    [by rewrite lookup_insert_eq |].
  rewrite lookup_insert_ne by done.
  destruct (decide (key = "mod_roles")) as [-> | H2];
    [by rewrite lookup_singleton_eq |].
  by rewrite lookup_singleton_ne.
Qed.

Lemma get_roles_result key g docs :
  fst (get_roles key g docs) =
  default [] (c ← docs !! g; s ← c !! key; s !! g).
Proof.
  unfold get_roles, load_role_sections.
  destruct (docs !! g) as [c |] eqn:Hc; simpl.
  - destruct (c !! key) as [s |]; simpl; [done |]. by rewrite lookup_empty.
  - pose proof (default_role_sections_empty key g) as H.
    destruct (DEFAULT_ROLE_SECTIONS !! key) as [s |]; simpl in *;
      [by rewrite H | by rewrite lookup_empty].
Qed.

Lemma get_roles_set key g role_id docs key' g' :
  fst (get_roles key' g' (snd (set_role key g role_id docs))) =
  if decide ((key', g') = (key, g))
  then let roles := fst (get_roles key g docs) in
       if bool_decide (role_id ∈ roles) then roles else roles ++ [role_id]
  else fst (get_roles key' g' docs).
Proof.
  cbv zeta. rewrite !get_roles_result. unfold set_role, load_role_sections.
  pose proof (default_role_sections_empty key g) as Hd.
  pose proof (default_role_sections_empty key' g) as Hd'.
  destruct (decide ((key', g') = (key, g))) as [[= -> ->] | Hne].
  - destruct (docs !! g) as [c |] eqn:Hc; simpl;
      rewrite !lookup_insert_eq; simpl; rewrite !lookup_insert_eq; simpl;
      rewrite !lookup_insert_eq; simpl.
    + destruct (c !! key) as [s |]; simpl; [done |]. by rewrite lookup_empty.
    + destruct (DEFAULT_ROLE_SECTIONS !! key) as [s |]; simpl in *;
        [by rewrite Hd | by rewrite lookup_empty].
  - destruct (decide (g' = g)) as [-> | Hg].
    + assert (key' <> key) as Hk by congruence.
      destruct (docs !! g) as [c |] eqn:Hc; simpl;
        rewrite !lookup_insert_eq; simpl; rewrite lookup_insert_ne by done.
      * done.
      * by rewrite Hd'.
    + destruct (docs !! g) as [c |] eqn:Hc; simpl;
        by rewrite !lookup_insert_ne by done.
Qed.

Lemma remove_role_result key g role_id docs :
  fst (remove_role key g role_id docs)
  = bool_decide (role_id ∈ fst (get_roles key g docs)).
Proof.
  rewrite get_roles_result. unfold remove_role, load_role_sections.
  pose proof (default_role_sections_empty key g) as Hd.
  assert (Hnil : bool_decide (role_id ∈ @nil Z) = false)
    by (apply bool_decide_eq_false, not_elem_of_nil).
  destruct (docs !! g) as [c |] eqn:Hc; simpl.
  - destruct (c !! key) as [s |]; simpl; [| first [done | by rewrite Hnil]].
    destruct (s !! g) as [l |]; simpl; [| first [done | by rewrite Hnil]].
    by destruct (bool_decide (role_id ∈ l)).
  - destruct (DEFAULT_ROLE_SECTIONS !! key) as [s |]; simpl in *;
      rewrite ?Hd; simpl; first [done | by rewrite Hnil].
Qed.

Lemma get_roles_remove key g role_id docs key' g' :
  fst (get_roles key' g' (snd (remove_role key g role_id docs))) =
  if decide ((key', g') = (key, g))
  then list_remove_first role_id (fst (get_roles key g docs))
  else fst (get_roles key' g' docs).
Proof.
  rewrite !get_roles_result. unfold remove_role, load_role_sections.
  pose proof (default_role_sections_empty key g) as Hd.
  pose proof (default_role_sections_empty key' g) as Hd'.
  assert (Hnotin : forall l, role_id ∉ l -> list_remove_first role_id l = l).
  { induction l as [| y l IH]; simpl; [done |].
    rewrite not_elem_of_cons. intros [Hy Hl].
    destruct (Z.eqb_spec role_id y); [done |]. by rewrite IH. }
  destruct (docs !! g) as [c |] eqn:Hc; simpl.
  - destruct (c !! key) as [s |] eqn:Hs; simpl.
    + destruct (s !! g) as [l |] eqn:Hl; simpl.
      * destruct (bool_decide (role_id ∈ l)) eqn:Hin; simpl.
        -- destruct (decide ((key', g') = (key, g))) as [[= -> ->] | Hne].
           ++ rewrite !lookup_insert_eq. simpl. rewrite !lookup_insert_eq. simpl.
              by rewrite !lookup_insert_eq.
           ++ destruct (decide (g' = g)) as [-> | Hg].
              ** assert (key' <> key) as Hk by congruence.
                 rewrite lookup_insert_eq. simpl. rewrite lookup_insert_ne by done.
                 by rewrite Hc.
              ** by rewrite lookup_insert_ne.
        -- apply bool_decide_eq_false in Hin.
           destruct (decide ((key', g') = (key, g))) as [[= -> ->] | Hne]; [| done].
           rewrite Hc. simpl. rewrite Hs. simpl. rewrite Hl. simpl.
           by rewrite Hnotin.
      * destruct (decide ((key', g') = (key, g))) as [[= -> ->] | Hne]; [| done].
        rewrite Hc. simpl. rewrite Hs. simpl. by rewrite Hl.
    + destruct (decide ((key', g') = (key, g))) as [[= -> ->] | Hne]; [| done].
      rewrite Hc. simpl. by rewrite Hs.
  - destruct (DEFAULT_ROLE_SECTIONS !! key) as [s |] eqn:Hs; simpl in *;
      rewrite ?Hd; simpl;
      destruct (decide ((key', g') = (key, g))) as [[= -> ->] | Hne];
      try (destruct (decide (g' = g)) as [-> | Hg]);
      rewrite ?lookup_insert_eq, ?lookup_insert_ne by done; simpl;
      rewrite ?Hs; simpl; rewrite ?Hd, ?Hd', ?Hc; done.
Qed.

(** X22.  [set_admin_role] / [set_mod_role] add the role to the guild's list
    unless it is there already, so a list without duplicates stays without
    duplicates and the role is listed exactly once more at most;
    [remove_admin_role] / [remove_mod_role] return true exactly when the
    role is listed and take out its first occurrence, so it is gone from a
    list without duplicates; the other roles stay listed, and the other
    section and other guilds are untouched. *)
Theorem role_list_set_remove key g role_id docs :
  let before := fst (get_roles key g docs) in
  let docs1 := snd (set_role key g role_id docs) in
  let after := fst (get_roles key g docs1) in
  let docs2 := snd (remove_role key g role_id docs) in
  after = (if bool_decide (role_id ∈ before) then before else before ++ [role_id]) /\
  role_id ∈ after /\
  (NoDup before -> NoDup after) /\
  fst (get_roles key g (snd (set_role key g role_id docs1))) = after /\
  fst (remove_role key g role_id docs) = bool_decide (role_id ∈ before) /\
  fst (get_roles key g docs2) = list_remove_first role_id before /\
  (NoDup before ->
   NoDup (fst (get_roles key g docs2)) /\ role_id ∉ fst (get_roles key g docs2)) /\
  (forall r, r <> role_id ->
     (r ∈ after <-> r ∈ before) /\ (r ∈ fst (get_roles key g docs2) <-> r ∈ before)) /\
  (forall key' g', (key', g') <> (key, g) ->
     fst (get_roles key' g' docs1) = fst (get_roles key' g' docs) /\
     fst (get_roles key' g' docs2) = fst (get_roles key' g' docs)).
Proof.
  cbv zeta. rewrite !get_roles_set, !get_roles_remove, remove_role_result.
  rewrite !decide_True by done. cbv zeta.
  set (before := fst (get_roles key g docs)).
  assert (Hin : role_id ∈ (if bool_decide (role_id ∈ before)
                           then before else before ++ [role_id])).
  { destruct (bool_decide (role_id ∈ before)) eqn:H.
    - by apply bool_decide_eq_true in H.
    - apply elem_of_app. right. by apply list_elem_of_singleton. }
  split; [done |]. split; [done |].
  split.
  { intros Hnd. destruct (bool_decide (role_id ∈ before)) eqn:H; [done |].
    apply bool_decide_eq_false in H.
    apply NoDup_app. split; [done |]. split; [| apply NoDup_singleton].
    intros x Hx Hx'. apply list_elem_of_singleton in Hx' as ->. done. }
  split; [by rewrite bool_decide_true |].
  split; [done |]. split; [done |].
  split.
  { intros Hnd. split; [by apply list_remove_first_nodup |
                        by apply list_remove_first_not_elem]. }
  split.
  { intros r Hr. rewrite list_remove_first_elem by done.
    destruct (bool_decide (role_id ∈ before)); [done |].
    rewrite elem_of_app, list_elem_of_singleton. tauto. }
  intros key' g' Hne.
  rewrite get_roles_set, get_roles_remove, !decide_False by done. done.
Qed.
(** ** Permission checks *)

Lemma get_roles_frame key g docs key' g' :
  fst (get_roles key' g' (snd (get_roles key g docs))) = fst (get_roles key' g' docs).
Proof.
  rewrite !get_roles_result. unfold get_roles, load_role_sections.
  destruct (docs !! g) as [c |] eqn:Hc; simpl; [done |].
  destruct (decide (g' = g)) as [-> | Hg].
  - rewrite lookup_insert_eq, Hc. simpl.
    by rewrite (default_role_sections_empty key' g).
  - by rewrite lookup_insert_ne.
Qed.

Lemma any_role_held_true user_roles roles :
  any_role_held user_roles roles = true <-> exists r, r ∈ roles /\ r ∈ user_roles.
Proof.
  unfold any_role_held. rewrite existsb_exists. split.
  - intros (r & Hin & Hr). exists r. apply bool_decide_eq_true in Hr.
    by rewrite list_elem_of_In.
  - intros (r & Hin & Hr). exists r. rewrite <- list_elem_of_In.
    by rewrite bool_decide_eq_true.
Qed.

(** X23.  [has_admin_permissions] passes exactly the guild administrators
    and the members holding one of the guild's admin roles;
    [has_mod_permissions] passes those and the members holding a moderator
    role, so whoever passes the admin check passes the moderator check.  A
    member holding a role passes the admin check once the role is set as an
    admin role; the checks change no role list. *)
Theorem permission_checks administrator user_roles g docs :
  let admin_roles := fst (get_admin_roles g docs) in
  let mod_roles := fst (get_mod_roles g docs) in
  let admin_ok := fst (has_admin_permissions administrator user_roles g docs) in
  let mod_ok := fst (has_mod_permissions administrator user_roles g docs) in
  (admin_ok = true <->
   administrator = true \/ exists r, r ∈ admin_roles /\ r ∈ user_roles) /\
  (mod_ok = true <->
   administrator = true \/
   exists r, (r ∈ admin_roles \/ r ∈ mod_roles) /\ r ∈ user_roles) /\
  (admin_ok = true -> mod_ok = true) /\
  (forall r, r ∈ user_roles ->
     fst (has_admin_permissions administrator user_roles g
            (snd (set_admin_role g r docs))) = true) /\
  (forall key g',
     fst (get_roles key g' (snd (has_admin_permissions administrator user_roles g docs)))
       = fst (get_roles key g' docs) /\
     fst (get_roles key g' (snd (has_mod_permissions administrator user_roles g docs)))
       = fst (get_roles key g' docs)).
Proof.
  cbv zeta.
  assert (Hadmin : forall docs0,
            fst (has_admin_permissions administrator user_roles g docs0) = true <->
            administrator = true \/
            exists r, r ∈ fst (get_admin_roles g docs0) /\ r ∈ user_roles).
  { intros docs0. unfold has_admin_permissions.
    destruct administrator; simpl; [split; [by left | done] |].
    destruct (get_admin_roles g docs0) as [ar docs1]. simpl.
    rewrite any_role_held_true. split; [by right | by intros [? | ?]]. }
  assert (Hmod : fst (has_mod_permissions administrator user_roles g docs) = true <->
            administrator = true \/
            exists r, (r ∈ fst (get_admin_roles g docs) \/ r ∈ fst (get_mod_roles g docs))
                      /\ r ∈ user_roles).
  { unfold has_mod_permissions.
    destruct administrator; simpl; [split; [by left | done] |].
    pose proof (get_roles_frame "admin_roles" g docs "mod_roles" g) as Hf.
    unfold get_admin_roles, get_mod_roles in *.
    destruct (get_roles "admin_roles" g docs) as [ar docs1]. simpl in *.
    destruct (get_roles "mod_roles" g docs1) as [mr docs2]. simpl in *. subst mr.
    rewrite any_role_held_true. setoid_rewrite elem_of_app.
    split; [by right | by intros [? | ?]]. }
  split; [apply Hadmin |]. split; [apply Hmod |].
  split.
  { rewrite Hadmin, Hmod. intros [? | (r & ? & ?)]; [by left |].
    right. exists r. tauto. }
  split.
  { intros r Hr. apply Hadmin. right. exists r. split; [| done].
    unfold get_admin_roles, set_admin_role.
    rewrite get_roles_set, decide_True by done. cbv zeta.
    destruct (bool_decide _) eqn:H; [by apply bool_decide_eq_true in H |].
    apply elem_of_app. right. by apply list_elem_of_singleton. }
  intros key g'. unfold has_admin_permissions, has_mod_permissions.
  destruct administrator; simpl; [done |].
  pose proof (get_roles_frame "admin_roles" g docs key g') as H1.
  unfold get_admin_roles, get_mod_roles.
  destruct (get_roles "admin_roles" g docs) as [ar docs1]. simpl in *.
  pose proof (get_roles_frame "mod_roles" g docs1 key g') as H2.
  destruct (get_roles "mod_roles" g docs1) as [mr docs2]. simpl in *.
  split; [done | by rewrite H2].
Qed.

(** ** Ticket numbers *)

Lemma increment_ticket_count_spec g name tickets :
  let '(n, tickets') := increment_ticket_count g name tickets in
  match get_ticket_system g name tickets with
  | None => n = None /\ tickets' = tickets
  | Some s =>
      n = Some (default 0 (ts_ticket_count s) + 1) /\
      get_ticket_system g name tickets' =
        Some {| ts_description := ts_description s;
                ts_category_id := ts_category_id s;
                ts_log_channel_id := ts_log_channel_id s;
                ts_support_role_id := ts_support_role_id s;
                ts_ticket_count := n |} /\
      forall g' name', (g', name') <> (g, name) ->
        get_ticket_system g' name' tickets' = get_ticket_system g' name' tickets
  end.
Proof.
  unfold increment_ticket_count, get_ticket_system.
  destruct (tickets !! g) as [sys |] eqn:Hg; simpl; [| done].
  destruct (sys !! name) as [s |] eqn:Hn; simpl; [| done].
  rewrite lookup_insert_eq. simpl. rewrite lookup_insert_eq.
  split; [done |]. split; [done |].
  intros g' name' Hne. destruct (decide (g' = g)) as [-> | Hg'].
  - rewrite lookup_insert_eq, Hg. simpl. rewrite lookup_insert_ne by congruence. done.
  - by rewrite lookup_insert_ne.
Qed.

(** X24.  [increment_ticket_count] returns [None] and changes nothing exactly
    when the guild has no ticket system of that name; otherwise it stores
    and returns the count plus one, leaving the other fields and the other
    systems as they are.  After [create_ticket_system], which also resets
    the counter of a system of that name that already exists, the tickets
    opened are numbered 1, 2, 3, ... *)
Theorem ticket_numbers_sequential g name description category log_channel support
    tickets (k : nat) :
  let created :=
    snd (create_ticket_system g name description category log_channel support tickets) in
  let opened := Nat.iter k (fun t => snd (increment_ticket_count g name t)) created in
  fst (increment_ticket_count g name opened) = Some (Z.of_nat k + 1) /\
  (forall tickets0,
     fst (increment_ticket_count g name tickets0) = None <->
     get_ticket_system g name tickets0 = None) /\
  (forall tickets0,
     fst (increment_ticket_count g name tickets0) = None ->
     snd (increment_ticket_count g name tickets0) = tickets0) /\
  (forall g' name', (g', name') <> (g, name) ->
     get_ticket_system g' name' opened = get_ticket_system g' name' tickets).
Proof.
  cbv zeta.
  set (created := snd (create_ticket_system g name description category log_channel
                         support tickets)).
  assert (Hk : forall k,
            let opened := Nat.iter k (fun t => snd (increment_ticket_count g name t))
                                   created in
            (exists s, get_ticket_system g name opened = Some s /\
                       ts_ticket_count s = Some (Z.of_nat k)) /\
            (forall g' name', (g', name') <> (g, name) ->
               get_ticket_system g' name' opened = get_ticket_system g' name' tickets)).
  { clear k. induction k as [| k [(s & Hs & Hc) Hother]]; cbv zeta.
    - split.
      + eexists. unfold created, create_ticket_system, get_ticket_system. simpl.
        rewrite lookup_insert_eq. simpl. rewrite lookup_insert_eq. done.
      + intros g' name' Hne. unfold created, create_ticket_system, get_ticket_system.
        simpl. destruct (decide (g' = g)) as [-> | Hg'].
        * rewrite lookup_insert_eq. simpl. rewrite lookup_insert_ne by congruence.
          destruct (tickets !! g); done.
        * by rewrite lookup_insert_ne.
    - rewrite Nat.iter_succ.
      pose proof (increment_ticket_count_spec g name
                    (Nat.iter k (fun t => snd (increment_ticket_count g name t)) created))
        as Hspec.
      destruct (increment_ticket_count g name _) as [n t']. simpl.
      rewrite Hs in Hspec. destruct Hspec as (-> & Hget & Hfr).
      split.
      + eexists. split; [exact Hget |]. simpl. rewrite Hc. simpl. f_equal. lia.
      + intros g' name' Hne. by rewrite Hfr, Hother. }
  destruct (Hk k) as [(s & Hs & Hc) Hother].
  split.
  { pose proof (increment_ticket_count_spec g name
                  (Nat.iter k (fun t => snd (increment_ticket_count g name t)) created))
      as Hspec.
    destruct (increment_ticket_count g name _) as [n t']. simpl.
    rewrite Hs in Hspec. destruct Hspec as (-> & _). by rewrite Hc. }
  split; [| split; [| done]].
  - intros t0. pose proof (increment_ticket_count_spec g name t0) as Hspec.
    destruct (increment_ticket_count g name t0) as [n t']. simpl.
    destruct (get_ticket_system g name t0); [| tauto].
    destruct Hspec as (-> & _). split; discriminate.
  - intros t0. pose proof (increment_ticket_count_spec g name t0) as Hspec.
    destruct (increment_ticket_count g name t0) as [n t']. simpl.
    destruct (get_ticket_system g name t0); [| tauto].
    destruct Hspec as (-> & _). discriminate.
Qed.
(** ** Bump counters *)

Lemma total_user_bumps_insert (m : gmap Z Z) u v :
  total_user_bumps (<[u := v]> m) = total_user_bumps m - default 0 (m !! u) + v.
Proof.
  unfold total_user_bumps.
  assert (Hins : forall (m0 : gmap Z Z) x, m0 !! u = None ->
            map_fold (fun _ n acc => n + acc) 0 (<[u := x]> m0)
            = x + map_fold (fun _ n acc => n + acc) 0 m0).
  { intros m0 x Hnone. apply (map_fold_insert_L (fun _ n acc => n + acc)); [| done].
    intros; lia. }
  destruct (m !! u) as [x |] eqn:Hu; simpl.
  - rewrite <- (insert_delete_eq m), Hins by apply lookup_delete_eq.
    rewrite <- (insert_id m u x) at 2 by done.
    rewrite <- (insert_delete_eq m), Hins by apply lookup_delete_eq. lia.
  - rewrite Hins by done. lia.
Qed.

(** X25.  On a guild whose bump counter agrees with its per-user counters (as
    after [setup_bump_system] and after [clear_bump_count]), [record_bump]
    returns the counter plus one, adds one to the counter of the user and
    only to that one, keeps the two in agreement, and starts the cooldown:
    the guild is on cooldown exactly until [cooldown_hours] hours after the
    bump. *)
Theorem record_bump_counts g u now bumps b :
  bumps !! g = Some b ->
  bump_consistent b ->
  let '(n, bumps') := record_bump g u now bumps in
  n = Some (default 0 (bump_count b) + 1) /\
  get_user_bump_count g u bumps' = get_user_bump_count g u bumps + 1 /\
  (forall u', u' <> u ->
     get_user_bump_count g u' bumps' = get_user_bump_count g u' bumps) /\
  (exists b', bumps' !! g = Some b' /\ bump_consistent b' /\
              bump_count b' = n) /\
  (forall t, is_bump_on_cooldown g t bumps' = true <->
             t < now + default 24 (bump_cooldown_hours b) * 3600000000) /\
  (forall g', g' <> g -> bumps' !! g' = bumps !! g').
Proof.
  intros Hb Hcons. unfold record_bump, get_user_bump_count, is_bump_on_cooldown.
  rewrite Hb. simpl. rewrite !lookup_insert_eq. simpl.
  split; [done |]. split.
  { rewrite lookup_insert_eq. simpl. by destruct (bump_user_bumps b). }
  split.
  { intros u' Hne. rewrite lookup_insert_ne by done. by destruct (bump_user_bumps b). }
  split.
  { eexists. split; [done |]. split; [| done].
    unfold bump_consistent in *. simpl.
    rewrite total_user_bumps_insert. lia. }
  split.
  { intros t. rewrite Z.ltb_lt. unfold microseconds_per_hour. lia. }
  intros g' Hne. by rewrite lookup_insert_ne.
Qed.

Lemma record_bump_counts_witness :
  let bumps0 : gmap Z bump_system := snd (setup_bump_system 1 5 "bump" 2 ∅) in
  let bumps1 := snd (record_bump 1 7 1000 bumps0) in
  let '(n, bumps2) := record_bump 1 8 2000 bumps1 in
  n = Some 2 /\
  get_user_bump_count 1 8 bumps2 = 1 /\
  get_user_bump_count 1 7 bumps2 = 1 /\
  (is_bump_on_cooldown 1 7200001999 bumps2 = true) /\
  ~ (is_bump_on_cooldown 1 7200002000 bumps2 = true).
Proof.
  intros bumps0 bumps1.
  pose proof (record_bump_counts 1 8 2000 bumps1
                {| bump_channel_id := 5; bump_message := "bump";
                   bump_cooldown_hours := Some 2; bump_last_bump := Some 1000;
                   bump_count := Some 1;
                   bump_user_bumps := Some {[ 7 := 1 ]} |}
                eq_refl eq_refl) as H.
  destruct (record_bump 1 8 2000 bumps1) as [n bumps2].
  destruct H as (Hn & Hu & Ho & _ & Hcd & _).
  split; [exact Hn |]. split; [exact Hu |].
  split; [exact (Ho 7 ltac:(lia)) |].
  split; [apply Hcd; by vm_compute |].
  intros Hc. apply Hcd in Hc. by vm_compute in Hc.
Defined.

(** [setup_bump_system] and [clear_bump_count] leave the guild with a
    counter of 0 and no per-user counter, in agreement; setting up also
    clears the last bump, so the guild is not on cooldown, while clearing
    keeps the last bump and the cooldown.  Without a bump system,
    [record_bump] returns [None], [clear_bump_count] returns false, nothing
    changes and the guild is never on cooldown. *)
Lemma bump_setup_clear g channel message hours bumps :
  let set_up := snd (setup_bump_system g channel message hours bumps) in
  (exists b, set_up !! g = Some b /\ bump_consistent b /\ bump_count b = Some 0) /\
  (forall u, get_user_bump_count g u set_up = 0) /\
  (forall t, is_bump_on_cooldown g t set_up = false) /\
  (forall b, bumps !! g = Some b ->
     let cleared := snd (clear_bump_count g bumps) in
     fst (clear_bump_count g bumps) = true /\
     (exists b', cleared !! g = Some b' /\ bump_consistent b' /\ bump_count b' = Some 0) /\
     (forall u, get_user_bump_count g u cleared = 0) /\
     (forall t, is_bump_on_cooldown g t cleared = is_bump_on_cooldown g t bumps)) /\
  (bumps !! g = None ->
   forall u now,
     record_bump g u now bumps = (None, bumps) /\
     clear_bump_count g bumps = (false, bumps) /\
     get_user_bump_count g u bumps = 0 /\
     is_bump_on_cooldown g now bumps = false).
Proof.
  cbv zeta.
  unfold setup_bump_system, clear_bump_count, record_bump, get_user_bump_count,
    is_bump_on_cooldown. simpl. rewrite !lookup_insert_eq. simpl.
  split; [eexists; split; [done |]; split; [| done]; by vm_compute |].
  split; [intros u; by rewrite lookup_empty |]. split; [done |].
  split.
  - intros b Hb. rewrite Hb. simpl. rewrite !lookup_insert_eq. simpl.
    split; [done |].
    split; [eexists; split; [done |]; split; [| done]; by vm_compute |].
    split; [intros u; by rewrite lookup_empty | done].
  - intros Hnone u now. by rewrite Hnone.
Qed.
(** ** Auto messages *)

(** X26.  [add_auto_message] called without an id stores the message, active,
    under the id [len(messages) + 1] and changes no other id; the number of
    messages grows by one exactly when that id was free.  Ids are reused:
    after the removal of any other message, the next message added takes the
    id [len(messages)] counted before the removal, which for a message
    stored under a free id is its own id, so that it is replaced. *)
Theorem add_auto_message_id g channel text interval now autos :
  let before := get_auto_messages g autos in
  let '((ok, id), autos') := add_auto_message g channel text interval now autos in
  let after := get_auto_messages g autos' in
  ok = true /\
  id = Z.of_nat (size before) + 1 /\
  (exists am, after !! id = Some am /\ am_message am = text /\
              am_channel_id am = channel /\ am_active am = true) /\
  (forall id', id' <> id -> after !! id' = before !! id') /\
  (before !! id = None -> size after = S (size before)) /\
  (is_Some (before !! id) -> size after = size before) /\
  (forall removed victim,
     removed <> Z.of_nat (size before) + 1 ->
     let autos1 := snd (remove_auto_message g removed autos') in
     let '((_, id2), autos2) :=
       add_auto_message g channel text interval now autos1 in
     after !! removed = Some victim ->
     id2 = Z.of_nat (size after) /\
     (before !! id = None -> id2 = id /\
        size (get_auto_messages g autos2) = size before)).
Proof.
  cbv zeta. unfold add_auto_message, get_auto_messages. simpl.
  rewrite !lookup_insert_eq. simpl.
  set (m := default ∅ (autos !! g)).
  set (new := {| am_channel_id := channel; am_message := text;
                 am_interval := interval; am_last_sent := now;
                 am_active := true |}).
  split; [done |]. split; [done |].
  split; [eexists; by rewrite lookup_insert_eq |].
  split; [intros id' Hne; by rewrite lookup_insert_ne |].
  split; [intros Hnone; by apply map_size_insert_None |].
  split; [intros Hsome; by apply map_size_insert_Some |].
  intros removed victim Hne Hvictim.
  unfold remove_auto_message. rewrite lookup_insert_eq, Hvictim. simpl.
  rewrite lookup_insert_eq. simpl.
  rewrite lookup_insert_ne in Hvictim by done.
  assert (Hdel : size (delete removed (<[Z.of_nat (size m) + 1 := new]> m))
                 = pred (size (<[Z.of_nat (size m) + 1 := new]> m))).
  { apply map_size_delete_Some. rewrite lookup_insert_ne by done. by eexists. }
  split.
  - rewrite Hdel.
    assert (size (<[Z.of_nat (size m) + 1 := new]> m) <> 0%nat).
    { intros H0. apply map_size_empty_inv in H0.
      by apply insert_non_empty in H0. }
    lia.
  - intros Hnone.
    assert (Hsz : size (<[Z.of_nat (size m) + 1 := new]> m) = S (size m))
      by by apply map_size_insert_None.
    rewrite Hsz in Hdel. simpl in Hdel.
    rewrite Hdel. split; [done |].
    rewrite lookup_insert_eq. simpl.
    rewrite map_size_insert_Some; [done |].
    rewrite lookup_delete_ne by done. rewrite lookup_insert_eq. by eexists.
Qed.
(** ** Tournaments *)

Lemma team_lookup_is_Some name teams :
  is_Some (team_lookup name teams) <-> name ∈ map fst teams.
Proof.
  induction teams as [| [n t] teams IH]; simpl.
  - split; [by intros [? ?] | by intros H%elem_of_nil].
  - rewrite elem_of_cons. destruct (String.eqb_spec name n) as [-> | Hne].
    + split; [by left | by eexists].
    + rewrite IH. split; [by right | by intros [? | ?]].
Qed.

Lemma all_members_snoc teams name tm :
  all_members (teams ++ [(name, tm)]) = all_members teams ++ team_members tm.
Proof.
  unfold all_members. rewrite map_app, concat_app. simpl. by rewrite app_nil_r.
Qed.

Lemma all_members_cons name tm teams :
  all_members ((name, tm) :: teams) = team_members tm ++ all_members teams.
Proof. done. Qed.

Lemma teams_disjoint_snoc teams name tm :
  teams_disjoint teams ->
  (forall member, member ∈ team_members tm -> member ∉ all_members teams) ->
  teams_disjoint (teams ++ [(name, tm)]).
Proof.
  induction teams as [| [n t] teams IH]; simpl.
  - intros _ _. split; [| done]. intros member _ H. by apply elem_of_nil in H.
  - intros [Hhead Htail] Hnew. split.
    + intros member Hin. rewrite all_members_snoc, elem_of_app.
      intros [Hold | Hin']; [by apply (Hhead member) |].
      apply (Hnew member Hin'). rewrite all_members_cons, elem_of_app. by left.
    + apply IH; [done |]. intros member Hin Hold. apply (Hnew member Hin).
      rewrite all_members_cons, elem_of_app. by right.
Qed.

Lemma status_eqb_eq a b : status_eqb a b = true <-> a = b.
Proof. destruct a, b; simpl; split; congruence. Qed.

Lemma any_member_taken (member_ids members : list Z) :
  existsb (fun member_id => bool_decide (member_id ∈ members)) member_ids = true
  <-> exists member, member ∈ member_ids /\ member ∈ members.
Proof.
  induction member_ids as [| x l IH]; simpl.
  - split; [done | by intros (member & H%elem_of_nil & _)].
  - rewrite orb_true_iff, IH, bool_decide_eq_true. split.
    + intros [Hx | (member & Hin & Hm)].
      * exists x. split; [by left | done].
      * exists member. split; [by right | done].
    + intros (member & [-> | Hin]%elem_of_cons & Hm); [by left |].
      right. by exists member.
Qed.

(** X27.  [add_team_to_tournament] saves the team, last and with score 0,
    exactly when the tournament is in registration, the team has
    [team_size] members, no team has its name and none of its members is in
    a team; in every other case it returns False and saves nothing.  The
    number of teams is not compared with [team_count]. *)
Theorem add_team_checks t team_name member_ids :
  match add_team t team_name member_ids with
  | Saved t' =>
      tournament_status_of t = Registration /\
      Z.of_nat (length member_ids) = tournament_team_size t /\
      (team_name ∉ map fst (tournament_teams t)) /\
      (forall member, member ∈ member_ids ->
                      member ∉ all_members (tournament_teams t)) /\
      tournament_teams t' =
        tournament_teams t
        ++ [(team_name, {| team_members := member_ids; team_score := 0 |})] /\
      tournament_matches t' = tournament_matches t /\
      tournament_status_of t' = Registration /\
      tournament_team_size t' = tournament_team_size t /\
      tournament_team_count t' = tournament_team_count t
  | ReturnedFalse =>
      tournament_status_of t <> Registration \/
      Z.of_nat (length member_ids) <> tournament_team_size t \/
      team_name ∈ map fst (tournament_teams t) \/
      exists member, member ∈ member_ids /\
                     member ∈ all_members (tournament_teams t)
  | RaisedKeyError => False
  end.
Proof.
  unfold add_team.
  destruct (status_eqb (tournament_status_of t) Registration) eqn:Hst; simpl.
  2: { left. intros Hs. apply status_eqb_eq in Hs. congruence. }
  apply status_eqb_eq in Hst.
  destruct (Z.eqb_spec (Z.of_nat (length member_ids)) (tournament_team_size t))
    as [Hsize | Hsize]; simpl.
  2: { right. by left. }
  destruct (bool_decide (is_Some (team_lookup team_name (tournament_teams t))))
    eqn:Hname.
  { apply bool_decide_eq_true in Hname. apply team_lookup_is_Some in Hname.
    right. right. by left. }
  apply bool_decide_eq_false in Hname. rewrite team_lookup_is_Some in Hname.
  destruct (existsb _ member_ids) eqn:Hany.
  { apply any_member_taken in Hany. by do 3 right. }
  simpl. repeat (split; [done |]). split; [| done].
  intros member Hin Hm.
  assert (Htrue : existsb (fun member_id =>
             bool_decide (member_id ∈ all_members (tournament_teams t)))
             member_ids = true) by (apply any_member_taken; by exists member).
  congruence.
Qed.

(** *** The round robin *)

Lemma add_matches_against_spec team_i later matches :
  add_matches_against team_i later matches
  = matches ++ imap (fun k team_j =>
                       new_match team_i team_j (Z.of_nat (length matches + k) + 1))
                    later.
Proof.
  revert matches. induction later as [| team_j later IH]; intros matches; simpl.
  - by rewrite app_nil_r.
  - rewrite IH, <- app_assoc. simpl. f_equal. f_equal.
    + unfold new_match. do 2 f_equal. lia.
    + apply imap_ext. intros k x _. simpl. rewrite length_app. simpl.
      unfold new_match. do 2 f_equal. lia.
Qed.

Lemma round_robin_spec teams matches :
  round_robin teams matches
  = matches ++ imap (fun k p =>
                       new_match (fst p) (snd p) (Z.of_nat (length matches + k) + 1))
                    (team_pairs teams).
Proof.
  revert matches. induction teams as [| team_i later IH]; intros matches; simpl.
  - by rewrite app_nil_r.
  - rewrite IH, add_matches_against_spec, <- app_assoc. f_equal.
    rewrite imap_app. f_equal.
    + change (map (pair team_i) later) with (pair team_i <$> later).
      rewrite imap_fmap. by apply imap_ext.
    + apply imap_ext. intros k p _. simpl.
      rewrite length_app, length_imap, length_map. do 2 f_equal. lia.
Qed.

Lemma team_pairs_length teams :
  (2 * length (team_pairs teams) = length teams * (length teams - 1))%nat.
Proof.
  induction teams as [| t later IH]; simpl; [done |].
  rewrite length_app, length_map. nia.
Qed.

Lemma team_pairs_elem teams a b :
  (a, b) ∈ team_pairs teams
  <-> exists i j, (i < j)%nat /\ teams !! i = Some a /\ teams !! j = Some b.
Proof.
  induction teams as [| t later IH]; simpl.
  - split; [by intros H%elem_of_nil | by intros (i & j & _ & H & _)].
  - rewrite elem_of_app, IH. split.
    + intros [Hhead | (i & j & Hlt & Hi & Hj)].
      * change (map (pair t) later) with (pair t <$> later) in Hhead.
        apply list_elem_of_fmap in Hhead as (x & [= -> ->] & Hx).
        apply list_elem_of_lookup in Hx as [j Hj].
        exists 0%nat, (S j). split; [lia | done].
      * exists (S i), (S j). split; [lia | done].
    + intros (i & j & Hlt & Hi & Hj). destruct j as [| j]; [lia |].
      destruct i as [| i]; simpl in *.
      * left. injection Hi as ->.
        change (map (pair a) later) with (pair a <$> later).
        apply list_elem_of_fmap. exists b. split; [done |].
        by apply list_elem_of_lookup_2 in Hj.
      * right. exists i, j. split; [lia | done].
Qed.

Lemma team_pairs_nodup teams :
  NoDup teams -> NoDup (team_pairs teams).
Proof.
  induction teams as [| t later IH]; simpl; [intros _; apply NoDup_nil_2 |].
  intros [Hnot Hnd]%NoDup_cons. apply NoDup_app. split; [| split].
  - change (map (pair t) later) with (pair t <$> later).
    apply NoDup_fmap_2; [| done]. by intros x y [= ->].
  - intros [a b] Hin Hin'.
    change (map (pair t) later) with (pair t <$> later) in Hin.
    apply list_elem_of_fmap in Hin as (x & [= -> ->] & _).
    apply team_pairs_elem in Hin' as (i & _ & _ & Hi & _).
    apply Hnot. by apply list_elem_of_lookup_2 in Hi.
  - by apply IH.
Qed.

(** X28.  [start_tournament] starts exactly a tournament in registration with
    at least two teams, and then keeps the teams, sets the status to ongoing
    and replaces the matches by a round robin: team [i] against team [j] for
    all [i < j], in that order, numbered 1, 2, ... without a winner; these
    are [n (n - 1) / 2] matches, and when the team names are distinct no
    pair meets twice and no team meets itself.  In every other case it
    returns False. *)
Theorem start_round_robin t :
  let names := map fst (tournament_teams t) in
  match start t with
  | Saved t' =>
      tournament_status_of t = Registration /\
      (2 <= length (tournament_teams t))%nat /\
      tournament_status_of t' = Ongoing /\
      tournament_teams t' = tournament_teams t /\
      map (fun m => (match_team1 m, match_team2 m)) (tournament_matches t')
        = team_pairs names /\
      (2 * length (tournament_matches t') = length names * (length names - 1))%nat /\
      (forall k m, tournament_matches t' !! k = Some m ->
         match_id m = Z.of_nat k + 1 /\ match_completed m = false /\
         match_winner m = None) /\
      (forall a b,
         (exists m, m ∈ tournament_matches t' /\ match_team1 m = a /\ match_team2 m = b)
         <-> exists i j, (i < j)%nat /\ names !! i = Some a /\ names !! j = Some b) /\
      (NoDup names ->
         NoDup (map (fun m => (match_team1 m, match_team2 m)) (tournament_matches t')) /\
         forall m, m ∈ tournament_matches t' -> match_team1 m <> match_team2 m)
  | ReturnedFalse =>
      tournament_status_of t <> Registration \/ (length (tournament_teams t) < 2)%nat
  | RaisedKeyError => False
  end.
Proof.
  cbv zeta. unfold start.
  destruct (status_eqb (tournament_status_of t) Registration) eqn:Hst; simpl.
  2: { left. intros Hs. apply status_eqb_eq in Hs. congruence. }
  apply status_eqb_eq in Hst.
  destruct (Nat.ltb_spec (length (tournament_teams t)) 2) as [Hlt | Hge]; simpl.
  { by right. }
  set (names := map fst (tournament_teams t)).
  rewrite round_robin_spec. simpl.
  set (f := fun (k : nat) (p : string * string) =>
              new_match (fst p) (snd p) (Z.of_nat k + 1)).
  assert (Hpairs : map (fun m => (match_team1 m, match_team2 m))
                     (imap f (team_pairs names)) = team_pairs names).
  { apply list_eq. intros k.
    change (map ?g ?l) with (g <$> l).
    rewrite list_lookup_fmap, list_lookup_imap.
    by destruct (team_pairs names !! k) as [[a b] |]. }
  assert (Hmem : forall a b,
            (exists m, m ∈ imap f (team_pairs names)
                       /\ match_team1 m = a /\ match_team2 m = b)
            <-> (a, b) ∈ team_pairs names).
  { intros a b. split.
    - intros (m & Hin & <- & <-). rewrite <- Hpairs.
      change (map ?g ?l) with (g <$> l). apply list_elem_of_fmap. by exists m.
    - intros Hin. rewrite <- Hpairs in Hin.
      change (map ?g ?l) with (g <$> l) in Hin.
      apply list_elem_of_fmap in Hin as (m & [= -> ->] & Hin). by exists m. }
  split; [done |]. split; [done |]. split; [done |]. split; [done |].
  split; [done |].
  split; [rewrite length_imap; apply team_pairs_length |].
  split.
  { intros k m. rewrite list_lookup_imap.
    destruct (team_pairs names !! k) as [[a b] |]; [| done].
    simpl. by intros [= <-]. }
  split.
  { intros a b. by rewrite Hmem, team_pairs_elem. }
  intros Hnd. rewrite Hpairs. split; [by apply team_pairs_nodup |].
  intros m Hin Heq.
  assert (Hab : (match_team1 m, match_team2 m) ∈ team_pairs names).
  { apply Hmem. by exists m. }
  apply team_pairs_elem in Hab as (i & j & Hlt & Hi & Hj).
  rewrite <- Heq in Hj.
  pose proof (NoDup_lookup _ _ _ _ Hnd Hi Hj). lia.
Qed.
(** *** Match results *)

Lemma update_match_spec id winner_team matches matches' :
  update_match id winner_team matches = Some (Some matches') ->
  exists k m,
    matches !! k = Some m /\ match_id m = id /\
    (forall j mj, (j < k)%nat -> matches !! j = Some mj -> match_id mj <> id) /\
    (winner_team = match_team1 m \/ winner_team = match_team2 m) /\
    matches' = <[k := decided m winner_team]> matches.
Proof.
  revert matches'. induction matches as [| m matches IH]; intros matches'; simpl;
    [done |].
  destruct (Z.eqb_spec (match_id m) id) as [Hid | Hid].
  - destruct (String.eqb_spec winner_team (match_team1 m)) as [H1 | H1];
      destruct (String.eqb_spec winner_team (match_team2 m)) as [H2 | H2];
      simpl; try done.
    all: intros [= <-]; exists 0%nat, m; simpl.
    all: split; [done |]; split; [done |]; split; [intros; lia |].
    all: split; [tauto | done].
  - destruct (update_match id winner_team matches) as [[l |] |]; try done.
    intros [= <-]. destruct (IH l eq_refl) as (k & m' & Hk & Hm & Hfirst & Hw & ->).
    exists (S k), m'. simpl. split; [done |]. split; [done |].
    split; [| done].
    intros [| j] mj Hlt; simpl; [by intros [= <-] |].
    apply Hfirst. lia.
Qed.

Lemma bump_score_spec name teams teams' :
  bump_score name teams = Some teams' ->
  map fst teams' = map fst teams /\
  all_members teams' = all_members teams /\
  (forall size,
     Forall (fun nt => Z.of_nat (length (team_members (snd nt))) = size) teams ->
     Forall (fun nt => Z.of_nat (length (team_members (snd nt))) = size) teams') /\
  (teams_disjoint teams -> teams_disjoint teams') /\
  team_lookup name teams'
    = (fun tm => {| team_members := team_members tm;
                    team_score := team_score tm + 1 |}) <$> team_lookup name teams /\
  (forall other, other <> name -> team_lookup other teams' = team_lookup other teams).
Proof.
  revert teams'. induction teams as [| [n t] teams IH]; intros teams'; simpl;
    [done |].
  destruct (String.eqb_spec name n) as [-> | Hne].
  - intros [= <-]. simpl. rewrite String.eqb_refl.
    split; [done |]. split; [done |].
    split; [intros size [Hh Ht]%Forall_cons; by apply Forall_cons |].
    split; [done |]. split; [done |].
    intros other Hother. by destruct (String.eqb_spec other n).
  - destruct (bump_score name teams) as [l |]; simpl; [| done].
    intros [= <-]. destruct (IH l eq_refl) as (Hn & Hm & Hsz & Hd & Hl & Ho).
    simpl. split; [by rewrite Hn |].
    split; [by rewrite !all_members_cons, Hm |].
    split; [intros size [Hh Ht]%Forall_cons; apply Forall_cons; auto |].
    split; [intros [Hh Ht]; split; [by rewrite Hm | by apply Hd] |].
    destruct (String.eqb_spec name n); [done |].
    split; [done |].
    intros other Hother. destruct (String.eqb_spec other n); [done | by apply Ho].
Qed.

Lemma bump_score_is_Some name teams :
  name ∈ map fst teams -> is_Some (bump_score name teams).
Proof.
  induction teams as [| [n t] teams IH]; simpl; [by intros H%elem_of_nil |].
  destruct (String.eqb_spec name n) as [-> | Hne]; [by eexists |].
  intros [? | Hin]%elem_of_cons; [done |].
  destruct (IH Hin) as [l ->]. by eexists.
Qed.

(** X29.  When [set_match_winner] saves, the tournament was ongoing, the
    winner is one of the two teams of the first match with the given id,
    that match and no other is marked completed with this winner, the
    winner's score and no other grows by one, and the tournament becomes
    completed exactly when every match is then completed.  Whether the match
    was already completed is not looked at. *)
Theorem set_winner_effect t id winner_team t' :
  set_winner t id winner_team = Saved t' ->
  tournament_status_of t = Ongoing /\
  (exists k m,
     tournament_matches t !! k = Some m /\ match_id m = id /\
     (forall j mj, (j < k)%nat -> tournament_matches t !! j = Some mj ->
                   match_id mj <> id) /\
     (winner_team = match_team1 m \/ winner_team = match_team2 m) /\
     tournament_matches t' = <[k := decided m winner_team]> (tournament_matches t)) /\
  map fst (tournament_teams t') = map fst (tournament_teams t) /\
  (exists tm, team_lookup winner_team (tournament_teams t) = Some tm /\
     team_lookup winner_team (tournament_teams t')
     = Some {| team_members := team_members tm; team_score := team_score tm + 1 |}) /\
  (forall other, other <> winner_team ->
     team_lookup other (tournament_teams t') = team_lookup other (tournament_teams t)) /\
  (tournament_status_of t' = Completed <->
   forall m, m ∈ tournament_matches t' -> match_completed m = true) /\
  (tournament_status_of t' = Completed \/ tournament_status_of t' = Ongoing).
Proof.
  unfold set_winner.
  destruct (status_eqb (tournament_status_of t) Ongoing) eqn:Hst; simpl; [| done].
  apply status_eqb_eq in Hst.
  destruct (update_match id winner_team (tournament_matches t))
    as [[matches |] |] eqn:Hup; try done.
  destruct (bump_score winner_team (tournament_teams t)) as [teams |] eqn:Hbs;
    [| done].
  intros [= <-]. simpl.
  destruct (bump_score_spec _ _ _ Hbs) as (Hn & _ & _ & _ & Hl & Ho).
  split; [done |].
  split; [by apply update_match_spec |].
  split; [done |].
  split.
  { destruct (team_lookup winner_team (tournament_teams t)) as [tm |] eqn:Htm.
    - exists tm. by rewrite Hl.
    - exfalso. assert (Hsome : is_Some (bump_score winner_team (tournament_teams t)))
        by by eexists.
      clear -Htm Hsome. induction (tournament_teams t) as [| [n x] l IH]; simpl in *.
      + by destruct Hsome.
      + destruct (String.eqb_spec winner_team n); [done |].
        apply IH; [done |]. destruct (bump_score winner_team l); [by eexists |].
        by destruct Hsome. }
  split; [done |].
  split.
  { destruct (forallb match_completed matches) eqn:Hall.
    - split; [| done]. intros _ m Hin.
      rewrite forallb_forall in Hall. apply Hall. by apply list_elem_of_In.
    - split; [done |]. intros Hcompleted.
      assert (forallb match_completed matches = true); [| congruence].
      apply forallb_forall. intros m Hin. apply Hcompleted. by apply list_elem_of_In. }
  destruct (forallb match_completed matches); [by left | by right].
Qed.
Lemma round_robin_pairs names :
  map (fun m => (match_team1 m, match_team2 m)) (round_robin names [])
  = team_pairs names.
Proof.
  rewrite round_robin_spec. simpl. apply list_eq. intros k.
  change (map ?g ?l) with (g <$> l).
  rewrite list_lookup_fmap, list_lookup_imap.
  by destruct (team_pairs names !! k) as [[a b] |].
Qed.

Lemma round_robin_ids names k m :
  round_robin names [] !! k = Some m ->
  match_id m = Z.of_nat k + 1 /\ match_completed m = false /\ match_winner m = None.
Proof.
  rewrite round_robin_spec. simpl. rewrite list_lookup_imap.
  destruct (team_pairs names !! k) as [[a b] |]; [| done].
  simpl. by intros [= <-].
Qed.

Lemma pairs_known names (matches : list tmatch) :
  map (fun m => (match_team1 m, match_team2 m)) matches = team_pairs names ->
  Forall (fun m => match_team1 m ∈ names /\ match_team2 m ∈ names) matches.
Proof.
  intros Hpairs. apply Forall_forall. intros m Hin.
  assert (Hab : (match_team1 m, match_team2 m) ∈ team_pairs names).
  { rewrite <- Hpairs. change (map ?g ?l) with (g <$> l).
    apply list_elem_of_fmap. by exists m. }
  apply team_pairs_elem in Hab as (i & j & _ & Hi & Hj).
  split; by eapply list_elem_of_lookup_2.
Qed.

Lemma tournament_reachable_invariant t :
  tournament_reachable t -> tournament_invariant t.
Proof.
  induction 1 as [size count channel
                 | t name ms t' Hreach IH Hadd
                 | t t' Hreach IH Hstart
                 | t id w t' Hreach IH Hset].
  - split; [| split]; [| done | done].
    unfold tournament_wf. simpl.
    split; [apply NoDup_nil_2 |]. by repeat split.
  - destruct IH as ((Hnd & Hsz & Hdis & Hreg & Hknown) & Hids & Hrr).
    unfold add_team in Hadd.
    destruct (status_eqb (tournament_status_of t) Registration) eqn:Hst;
      simpl in Hadd; [| done].
    apply status_eqb_eq in Hst.
    destruct (Z.eqb_spec (Z.of_nat (length ms)) (tournament_team_size t))
      as [Hsize | Hsize]; simpl in Hadd; [| done].
    destruct (bool_decide (is_Some (team_lookup name (tournament_teams t))))
      eqn:Hname; [done |].
    apply bool_decide_eq_false in Hname. rewrite team_lookup_is_Some in Hname.
    destruct (existsb _ ms) eqn:Hany; [done |].
    injection Hadd as <-.
    assert (Hfree : forall member, member ∈ ms ->
                      member ∉ all_members (tournament_teams t)).
    { intros member Hin Hm.
      assert (existsb (fun member_id =>
                bool_decide (member_id ∈ all_members (tournament_teams t))) ms
              = true) by (apply any_member_taken; by exists member).
      congruence. }
    specialize (Hreg Hst).
    split; [| split]; simpl.
    + unfold tournament_wf. simpl.
      split.
      { rewrite map_app. apply NoDup_app. split; [done |]. split.
        - intros x Hx Hx'. simpl in Hx'. apply list_elem_of_singleton in Hx'.
          by subst.
        - simpl. apply NoDup_singleton. }
      split.
      { apply Forall_app. split; [done |]. by apply Forall_singleton. }
      split.
      { apply teams_disjoint_snoc; [done |]. simpl. done. }
      split; [done |]. rewrite Hreg. apply Forall_nil_2.
    + rewrite Hreg. intros k m Hk. by rewrite lookup_nil in Hk.
    + by rewrite Hst.
  - destruct IH as ((Hnd & Hsz & Hdis & Hreg & Hknown) & Hids & Hrr).
    unfold start in Hstart.
    destruct (status_eqb (tournament_status_of t) Registration) eqn:Hst;
      simpl in Hstart; [| done].
    destruct (Nat.ltb_spec (length (tournament_teams t)) 2) as [Hlt | Hge];
      [done |].
    injection Hstart as <-.
    split; [| split]; simpl.
    + unfold tournament_wf. simpl.
      split; [done |]. split; [done |]. split; [done |]. split; [done |].
      apply pairs_known, round_robin_pairs.
    + intros k m Hk. by destruct (round_robin_ids _ _ _ Hk).
    + intros _. split; [done | apply round_robin_pairs].
  - destruct IH as ((Hnd & Hsz & Hdis & Hreg & Hknown) & Hids & Hrr).
    unfold set_winner in Hset.
    destruct (status_eqb (tournament_status_of t) Ongoing) eqn:Hst;
      simpl in Hset; [| done].
    apply status_eqb_eq in Hst.
    destruct (update_match id w (tournament_matches t)) as [[matches |] |] eqn:Hup;
      try done.
    destruct (bump_score w (tournament_teams t)) as [teams |] eqn:Hbs; [| done].
    injection Hset as <-.
    destruct (bump_score_spec _ _ _ Hbs) as (Hn & _ & Hsz' & Hdis' & _ & _).
    destruct (update_match_spec _ _ _ _ Hup) as (k & m & Hk & Hm & _ & _ & ->).
    assert (Hrr' : (2 <= length (tournament_teams t))%nat /\
              map (fun m => (match_team1 m, match_team2 m)) (tournament_matches t)
              = team_pairs (map fst (tournament_teams t))).
    { apply Hrr. by rewrite Hst. }
    assert (Hpairs : map (fun m => (match_team1 m, match_team2 m))
                       (<[k := decided m w]> (tournament_matches t))
                     = team_pairs (map fst teams)).
    { rewrite Hn, <- (proj2 Hrr'). change (map ?g ?l) with (g <$> l).
      rewrite list_fmap_insert. simpl. apply list_insert_id.
      by rewrite list_lookup_fmap, Hk. }
    split; [| split]; simpl.
    + unfold tournament_wf. simpl.
      split; [by rewrite Hn |]. split; [by apply Hsz' |].
      split; [by apply Hdis' |].
      split; [by destruct (forallb _ _) |].
      by apply pairs_known.
    + intros j mj. destruct (decide (j = k)) as [-> | Hne].
      * rewrite list_lookup_insert_eq by by eapply lookup_lt_Some.
        intros [= <-]. simpl. by apply Hids.
      * rewrite list_lookup_insert_ne by done. apply Hids.
    + intros _. split; [| done].
      assert (Hlen : length teams = length (tournament_teams t)).
      { by rewrite <- (length_map fst teams), Hn, length_map. }
      rewrite Hlen. apply Hrr'.
Qed.

(** X30.  Every tournament obtained from [create_tournament] through the
    three methods has distinct team names, teams of [team_size] members,
    no member in two teams, and no match while in registration; once
    started it has at least two teams and its matches are the round robin
    of its teams, numbered 1, 2, ... in order, whatever results were
    recorded.  On such a tournament [set_match_winner] never fails on the
    lookup of the winner's team. *)
Theorem tournament_reachable_wf t :
  tournament_reachable t ->
  tournament_wf t /\
  (forall k m, tournament_matches t !! k = Some m -> match_id m = Z.of_nat k + 1) /\
  (tournament_status_of t <> Registration ->
   (2 <= length (tournament_teams t))%nat /\
   map (fun m => (match_team1 m, match_team2 m)) (tournament_matches t)
   = team_pairs (map fst (tournament_teams t))) /\
  (forall id winner_team, set_winner t id winner_team <> RaisedKeyError).
Proof.
  intros Hreach. destruct (tournament_reachable_invariant t Hreach)
    as (Hwf & Hids & Hrr).
  split; [done |]. split; [done |]. split; [done |].
  intros id w. unfold set_winner.
  destruct (status_eqb (tournament_status_of t) Ongoing); simpl; [| done].
  destruct (update_match id w (tournament_matches t)) as [[matches |] |] eqn:Hup;
    try done.
  destruct (update_match_spec _ _ _ _ Hup) as (k & m & Hk & _ & _ & Hw & _).
  destruct Hwf as (_ & _ & _ & _ & Hknown).
  rewrite Forall_lookup in Hknown. destruct (Hknown k m Hk) as [H1 H2].
  assert (Hin : w ∈ map fst (tournament_teams t)) by (by destruct Hw as [-> | ->]).
  by destruct (bump_score_is_Some _ _ Hin) as [teams ->].
Qed.

Lemma reachable_saved_add t team_name member_ids :
  tournament_reachable t ->
  tournament_reachable (saved (add_team t team_name member_ids) t).
Proof.
  intros Hreach. unfold saved.
  destruct (add_team t team_name member_ids) eqn:Hadd; try done.
  by eapply tournament_team_added.
Qed.

Lemma reachable_saved_start t :
  tournament_reachable t -> tournament_reachable (saved (start t) t).
Proof.
  intros Hreach. unfold saved. destruct (start t) eqn:Hstart; try done.
  by eapply tournament_started.
Qed.

Lemma reachable_saved_winner t id winner_team :
  tournament_reachable t ->
  tournament_reachable (saved (set_winner t id winner_team) t).
Proof.
  intros Hreach. unfold saved.
  destruct (set_winner t id winner_team) eqn:Hset; try done.
  by eapply tournament_winner_set.
Qed.

Lemma tournament_reachable_wf_witness :
  tournament_wf demo_tournament /\
  (forall k m, tournament_matches demo_tournament !! k = Some m ->
               match_id m = Z.of_nat k + 1) /\
  (tournament_status_of demo_tournament <> Registration ->
   (2 <= length (tournament_teams demo_tournament))%nat /\
   map (fun m => (match_team1 m, match_team2 m)) (tournament_matches demo_tournament)
   = team_pairs (map fst (tournament_teams demo_tournament))) /\
  (forall id winner_team,
     set_winner demo_tournament id winner_team <> RaisedKeyError).
Proof.
  apply (tournament_reachable_wf demo_tournament).
  unfold demo_tournament.
  apply reachable_saved_winner, reachable_saved_start.
  do 3 apply reachable_saved_add. apply tournament_created.
Defined.

Lemma set_winner_effect_witness :
  let t := saved (start demo_registration) demo_registration in
  let t' := demo_tournament in
  tournament_status_of t = Ongoing /\
  (exists k m,
     tournament_matches t !! k = Some m /\ match_id m = 2 /\
     (forall j mj, (j < k)%nat -> tournament_matches t !! j = Some mj ->
                   match_id mj <> 2) /\
     ("C" = match_team1 m \/ "C" = match_team2 m) /\
     tournament_matches t' = <[k := decided m "C"]> (tournament_matches t)) /\
  map fst (tournament_teams t') = map fst (tournament_teams t) /\
  (exists tm, team_lookup "C" (tournament_teams t) = Some tm /\
     team_lookup "C" (tournament_teams t')
     = Some {| team_members := team_members tm; team_score := team_score tm + 1 |}) /\
  (forall other, other <> "C" ->
     team_lookup other (tournament_teams t') = team_lookup other (tournament_teams t)) /\
  (tournament_status_of t' = Completed <->
   forall m, m ∈ tournament_matches t' -> match_completed m = true) /\
  (tournament_status_of t' = Completed \/ tournament_status_of t' = Ongoing).
Proof.
  intros t t'.
  apply (set_winner_effect t 2 "C" t'). reflexivity.
Defined.
